(** * ExplainIt: the image -> text -> explanation pipeline of [explore.tsx]

    The screen component [HomeScreen] of [src/app/(tabs)/explore.tsx] is kept in
    the repository in two revisions that differ only in how [extractText] brings
    the picture under one mebibyte before it is posted to the OCR service:

    - the first revision resizes once and is written to re-encode the
      resized file at falling quality; as the file stands, the name
      [FileSystem] that its measurement reads is bound nowhere, so every run
      of it stops at the first measurement ([ResizeOnce] below);
    - the second revision measures the base64 text of the original and, when it
      is too long, re-encodes the original at falling quality
      ([FromOriginal] below).

    The OCR request, the reading of its answer and [analyzeWithAI] are the same
    text in both revisions and are modelled once ([Pipeline]).  So are the
    handlers of the two buttons, the state of the component and what it
    draws ([Component]).

    JavaScript numbers are IEEE-754 binary64 values, so the quality factor is a
    primitive float and the loops count exactly as the interpreter does.
    Strings are sequences of UTF-16 code units.

    A run is modelled by the sequence of what it does to the outside (state
    setters, alerts, console, Expo calls, requests) together with the way it
    ends; the surroundings ([Env]) say how each call settles.  The two
    [while] loops take fuel; the properties fix a fuel of six or more and
    show that the run then ends and no longer depends on the fuel.

    The buttons stay enabled while a run is under way and [analyzeWithAI] is
    not awaited, so the steps of two runs can fall between one another; what
    is said about the screen after a run says which other steps it allows
    for ([merged], [setsState]). *)

From Stdlib Require Import List Arith NArith Bool String Ascii PrimFloat Lia.
Import ListNotations.
Set Warnings "-inexact-float".

(* ------------------------------------------------------------------ *)
(** ** JavaScript values *)

Module JS.

(** A string is its sequence of UTF-16 code units. *)
Definition jsstring := list N.

(** Program text literals are ASCII. *)
Definition js (s : string) : jsstring :=
  map N_of_ascii (list_ascii_of_string s).

Definition jsstring_eqb (a b : jsstring) : bool :=
  if list_eq_dec N.eq_dec a b then true else false.

(** [WhiteSpace] and [LineTerminator] of ECMA-262, the code units that
    [String.prototype.trim] strips. *)
Definition is_white_space (c : N) : bool :=
  ((9 <=? c) && (c <=? 13)            (* TAB LF VT FF CR *)
   || (c =? 32)                       (* SPACE *)
   || (c =? 160)                      (* NO-BREAK SPACE *)
   || (c =? 5760)                     (* U+1680 *)
   || ((8192 <=? c) && (c <=? 8202))  (* U+2000 .. U+200A *)
   || (c =? 8232) || (c =? 8233)      (* U+2028 U+2029 *)
   || (c =? 8239)                     (* U+202F *)
   || (c =? 8287)                     (* U+205F *)
   || (c =? 12288)                    (* U+3000 *)
   || (c =? 65279))%N.                (* U+FEFF *)

Fixpoint trimStart (s : jsstring) : jsstring :=
  match s with
  | [] => []
  | c :: rest => if is_white_space c then trimStart rest else s
  end.

Definition trimEnd (s : jsstring) : jsstring := rev (trimStart (rev s)).

(** [s.trim()] *)
Definition trim (s : jsstring) : jsstring := trimEnd (trimStart s).

(** What [response.json()] resolves to. *)
#[local] Unset Elimination Schemes.
Inductive json : Type :=
| JNull
| JBool (b : bool)
| JNum (x : float)
| JStr (s : jsstring)
| JArr (items : list json)
| JObj (members : list (jsstring * json)).
#[local] Set Elimination Schemes.

(** A value that may also be [undefined] ([None]). *)
Definition value := option json.

(** Own property of a parsed object; of two members with one key the later
    one is the one [JSON.parse] keeps. *)
Fixpoint lookup (k : jsstring) (members : list (jsstring * json)) : value :=
  match members with
  | [] => None
  | (k', v) :: rest =>
      match lookup k rest with
      | Some w => Some w
      | None => if jsstring_eqb k k' then Some v else None
      end
  end.

(** [ToBoolean] *)
Definition truthy (v : value) : bool :=
  match v with
  | None => false
  | Some JNull => false
  | Some (JBool b) => b
  | Some (JNum x) => negb (PrimFloat.eqb x 0 || negb (PrimFloat.eqb x x))
  | Some (JStr s) => match s with [] => false | _ :: _ => true end
  | Some (JArr _) => true
  | Some (JObj _) => true
  end.

(** [v === undefined || v === null], the test of [?.] and [??]. *)
Definition nullish (v : value) : bool :=
  match v with
  | None | Some JNull => true
  | _ => false
  end.

(** What a [throw] or a rejected promise carries. *)
Inductive exn : Type :=
| TypeError                      (* raised by the language itself *)
| ReferenceError                 (* reading a name that is bound nowhere *)
| Rejected (reason : jsstring).  (* raised by a platform call *)

(** [v.k] for a key [k] that no built-in prototype defines, which holds of the
    three keys the program reads ([ParsedResults], [ParsedText], [result]):
    reading a property of [null] throws, a parsed object answers with its own
    member, every other value answers [undefined]. *)
Definition get (v : json) (k : jsstring) : exn + value :=
  match v with
  | JNull => inl TypeError
  | JObj members => inr (lookup k members)
  | _ => inr None
  end.

(** [v[0]] for a [v] that is neither [null] nor [undefined]. *)
Definition index0 (v : json) : value :=
  match v with
  | JArr items => nth_error items 0
  | JStr (c :: _) => Some (JStr [c])
  | JObj members => lookup (js "0") members
  | _ => None
  end.

End JS.
Import JS.

(* ------------------------------------------------------------------ *)
(** ** The platform: Expo modules, [fetch], React state setters *)

Module Platform.

Definition uri := jsstring.

(** [{ resize: { width } }], the one manipulation the program asks for. *)
Inductive action : Type :=
| Resize (width : N).

(** [{ compress, format: SaveFormat.JPEG, base64 }]; the format is JPEG in
    every call. *)
Record SaveOptions : Type := {
  compress : float;
  want_base64 : bool
}.

(** The fields of an [ImageResult] that the program reads. *)
Record ImageResult : Type := {
  uri_of : uri;
  base64_of : option jsstring
}.

Record FormData : Type := {
  apikey : jsstring;
  base64Image : jsstring
}.

Inductive request : Type :=
| PostOcr (body : FormData)       (* POST https://api.ocr.space/parse/image *)
| PostAnalyze (text : jsstring).  (* POST .../api/analyze, body {text} *)

(** A [Response]: its status line and what [response.json()] settles to. *)
Record Response : Type := {
  status : N;
  json_body : exn + json
}.

(** One run's surroundings.  Every call either settles with a value ([inr])
    or rejects ([inl]). *)
Record Env : Type := {
  manipulateAsync : uri -> list action -> SaveOptions -> exn + ImageResult;
  readAsStringAsync : uri -> exn + jsstring;
  importImageManipulator : option exn;
  fetch : request -> exn + Response
}.

Inductive console_level : Type := LogLevel | WarnLevel | ErrorLevel.

(** What a run does to the outside, in order.  A platform call is recorded
    with what it settled to; a [fetch] is recorded twice, when the request is
    issued and when the awaiting function resumes with its outcome. *)
Inductive event : Type :=
| SetLoading (b : bool)
| SetExtractedText (s : jsstring)
| SetAiResult (v : json)
| Alert (title message : jsstring)
| Console (level : console_level) (label : jsstring)
| ConsoleError (err : exn)
| Manipulate (src : uri) (actions : list action) (opts : SaveOptions)
             (settled : exn + ImageResult)
| GetInfo (fileUri : uri) (settled : exn + option N)
| ReadAsString (fileUri : uri) (settled : exn + jsstring)
| ImportManipulator (settled : option exn)
| FetchSent (req : request)
| FetchSettled (settled : exn + Response).

End Platform.
Import Platform.

(* ------------------------------------------------------------------ *)
(** ** Async functions as traces with a completion *)

Module Async.

(** How a block ends.  [OutOfFuel] is the model's own third case: a loop
    that was given too few steps to finish. *)
Inductive completion (A : Type) : Type :=
| Normal (a : A)
| Thrown (e : exn)
| OutOfFuel.
Arguments Normal {A} a.
Arguments Thrown {A} e.
Arguments OutOfFuel {A}.

(** [events]: what the block did itself, in order.  [later]: what functions it
    called without awaiting them do once they resume, which is after the
    block has run to its end. *)
Record M (A : Type) : Type := mkM {
  events : list event;
  later : list event;
  completion_of : completion A
}.
Arguments mkM {A} events later completion_of.
Arguments events {A} m.
Arguments later {A} m.
Arguments completion_of {A} m.

Definition ret {A} (a : A) : M A := mkM [] [] (Normal a).

Definition bind {A B} (m : M A) (k : A -> M B) : M B :=
  match completion_of m with
  | Normal a =>
      let r := k a in
      mkM (events m ++ events r) (later m ++ later r) (completion_of r)
  | Thrown e => mkM (events m) (later m) (Thrown e)
  | OutOfFuel => mkM (events m) (later m) OutOfFuel
  end.

Definition emit (e : event) : M unit := mkM [e] [] (Normal tt).

Definition throw {A} (e : exn) : M A := mkM [] [] (Thrown e).

(** Reading a name that no import and no declaration binds. *)
Definition unbound {A} : M A := throw ReferenceError.

Definition diverge {A} : M A := mkM [] [] OutOfFuel.

(** [await p] for a promise that settled to [r]. *)
Definition settle {A} (r : exn + A) : M A :=
  match r with
  | inr a => ret a
  | inl e => throw e
  end.

(** [try { body } catch (err) { handler }] *)
Definition tryCatch {A} (body : M A) (handler : exn -> M A) : M A :=
  match completion_of body with
  | Thrown e =>
      let h := handler e in
      mkM (events body ++ events h) (later body ++ later h) (completion_of h)
  | _ => body
  end.

(** [try { body } finally { finalizer }]: the finalizer runs however the body
    ended, and the body's completion stands unless the finalizer throws. *)
Definition tryFinally {A} (body : M A) (finalizer : M unit) : M A :=
  match completion_of body with
  | OutOfFuel => body
  | c =>
      mkM (events body ++ events finalizer) (later body ++ later finalizer)
          match completion_of finalizer with
          | Normal _ => c
          | Thrown e => Thrown e
          | OutOfFuel => OutOfFuel
          end
  end.

(** The events at which an awaiting function resumes. *)
Definition resumes (e : event) : bool :=
  match e with
  | FetchSettled _ | Manipulate _ _ _ _ | GetInfo _ _ | ReadAsString _ _
  | ImportManipulator _ => true
  | _ => false
  end.

(** [l] up to its first resumption, and from there on. *)
Fixpoint untilFirstAwait (l : list event) : list event * list event :=
  match l with
  | [] => ([], [])
  | e :: rest =>
      if resumes e then ([], l)
      else let (before, after) := untilFirstAwait rest in (e :: before, after)
  end.

(** A call [f(x)] to an async function whose promise is dropped: [f] runs up
    to its first [await] inside the caller, the caller goes on at once with a
    pending promise, and [f] resumes when what it awaits has settled. *)
Definition detached (m : M unit) : M unit :=
  let (before, after) := untilFirstAwait (events m) in
  mkM before (after ++ later m) (Normal tt).

(** Everything a run does, in the order it does it. *)
Definition timeline {A} (m : M A) : list event := events m ++ later m.

Declare Scope async_scope.
Delimit Scope async_scope with async.
Notation "x <- m ;; k" := (bind m (fun x => k))
  (at level 61, m at next level, right associativity) : async_scope.
Notation "m ;;; k" := (bind m (fun _ => k))
  (at level 61, right associativity) : async_scope.

End Async.
Import Async.
Local Open Scope async_scope.

(* ------------------------------------------------------------------ *)
(** ** What both revisions share: OCR request, its answer, [analyzeWithAI] *)

Module Pipeline.

(** [await fetch(...)]: the request goes out, the function resumes with the
    outcome. *)
Definition awaitFetch (env : Env) (req : request) : M Response :=
  emit (FetchSent req) ;;;
  emit (FetchSettled (fetch env req)) ;;;
  settle (fetch env req).

(** [await ImageManipulator.manipulateAsync(src, actions, opts)] *)
Definition awaitManipulate (env : Env) (src : uri) (actions : list action)
    (opts : SaveOptions) : M ImageResult :=
  emit (Manipulate src actions opts (manipulateAsync env src actions opts)) ;;;
  settle (manipulateAsync env src actions opts).

(** [await readAsStringAsync(fileUri, { encoding: "base64" })] *)
Definition awaitRead (env : Env) (fileUri : uri) : M jsstring :=
  emit (ReadAsString fileUri (readAsStringAsync env fileUri)) ;;;
  settle (readAsStringAsync env fileUri).

(** [a?.f]: [undefined] when [a] is [null] or [undefined]. *)
Definition optional (a : value) (f : json -> exn + value) : exn + value :=
  if nullish a then inr None
  else match a with
       | Some v => f v
       | None => inr None
       end.

(** [v.trim()]: only a string has the method; calling what is not there
    throws. *)
Definition callTrim (v : json) : exn + value :=
  match v with
  | JStr s => inr (Some (JStr (trim s)))
  | _ => inl TypeError
  end.

(** [v || ""] for a [v] that is a string or [undefined]. *)
Definition orEmpty (v : value) : jsstring :=
  if truthy v then
    match v with
    | Some (JStr s) => s
    | _ => []
    end
  else [].

(** [data.ParsedResults?.[0]?.ParsedText?.trim() || ""] (lines 119 and 374) *)
Definition parsedText (data : json) : exn + jsstring :=
  match get data (js "ParsedResults") with
  | inl e => inl e
  | inr results =>
      match optional results (fun v => inr (index0 v)) with
      | inl e => inl e
      | inr first =>
          match optional first (fun v => get v (js "ParsedText")) with
          | inl e => inl e
          | inr parsed =>
              match optional parsed callTrim with
              | inl e => inl e
              | inr trimmed => inr (orEmpty trimmed)
              end
          end
      end
  end.

Definition noResult : jsstring := js "No result from AI.".

(** [data.result || "No result from AI."] (lines 147 and 401) *)
Definition resultOrFallback (data : json) : exn + json :=
  match get data (js "result") with
  | inl e => inl e
  | inr r =>
      inr (if truthy r then
             match r with
             | Some v => v
             | None => JStr noResult
             end
           else JStr noResult)
  end.

(** [analyzeWithAI(text)] (lines 137-154 and 391-408), when awaited. *)
Definition analyzeWithAI (env : Env) (text : jsstring) : M unit :=
  tryFinally
    (tryCatch
       (emit (SetLoading true) ;;;
        res <- awaitFetch env (PostAnalyze text) ;;
        data <- settle (json_body res) ;;
        shown <- settle (resultOrFallback data) ;;
        emit (SetAiResult shown))
       (fun err =>
          emit (ConsoleError err) ;;;
          emit (Alert (js "Error") (js "Could not connect to AI service."))))
    (emit (SetLoading false)).

Definition apiKey : jsstring := js "K85683965888957".

(** [`data:image/jpeg;base64,${base64}`] in a fresh form. *)
Definition formOf (base64 : jsstring) : FormData :=
  {| apikey := apiKey;
     base64Image := js "data:image/jpeg;base64," ++ base64 |}.

(** From the parsed answer [data] to the end of [extractText]'s [try]
    block (lines 117-127 and 373-381).  The call of [analyzeWithAI] is not
    awaited. *)
Definition readAnswer (env : Env) (data : json) : M unit :=
  emit (Console LogLevel (js "OCR Response:")) ;;;
  text <- settle (parsedText data) ;;
  emit (SetExtractedText text) ;;;
  emit (Console LogLevel (js "Extracted Text:")) ;;;
  if truthy (Some (JStr text)) then detached (analyzeWithAI env text)
  else emit (Alert (js "No text detected")
                   (js "Try another image with clearer text.")).

(** Step 4: the OCR request and what follows it (lines 111-127 and
    367-381). *)
Definition submit (env : Env) (payload : FormData) : M unit :=
  response <- awaitFetch env (PostOcr payload) ;;
  data <- settle (json_body response) ;;
  readAnswer env data.

(** [catch (err) { console.error(err); Alert.alert("Error", ...) }] of
    [extractText] (lines 128-130 and 382-384). *)
Definition extractionFailed (err : exn) : M unit :=
  emit (ConsoleError err) ;;;
  emit (Alert (js "Error") (js "Failed to extract text.")).

(** The frame of [extractText], the same in both revisions (lines 67-134
    and 309-388): the three resets, the steps that produce the form to post
    ([prepare], where the revisions differ), the OCR stage, and the [catch]
    and [finally] around all of it. *)
Definition extractTextWith (prepare : M FormData) (env : Env) : M unit :=
  tryFinally
    (tryCatch
       (emit (SetLoading true) ;;;
        emit (SetExtractedText []) ;;;
        emit (SetAiResult (JStr [])) ;;;
        payload <- prepare ;;
        submit env payload)
       extractionFailed)
    (emit (SetLoading false)).

End Pipeline.
Import Pipeline.

(* ------------------------------------------------------------------ *)
(** ** First revision: resize once, then lower the quality of the result *)

Module ResizeOnce.

(** Modelled from the spec: the constant [MAX_FILE_SIZE] is read by this
    revision but declared nowhere under src/; the spec fixes the byte ceiling
    at 1,048,576 bytes, the value the second revision spells [1024 * 1024]. *)
Definition MAX_FILE_SIZE : N := 1048576.

(** [getFileSize] (lines 81-84): [info.size ?? 0] of what
    [FileSystem.getInfoAsync] answers.  The name [FileSystem] is bound
    nowhere: line 13 imports [readAsStringAsync] alone from the file system
    module, and the component declares no [FileSystem].  Reading it throws
    before any call is made, so the rest of the body is never reached,
    whatever [fileUri] is. *)
Definition getFileSize (fileUri : uri) : M N :=
  FileSystem_getInfoAsync <- unbound (A := uri -> exn + option N) ;;
  emit (GetInfo fileUri (FileSystem_getInfoAsync fileUri)) ;;;
  info <- settle (FileSystem_getInfoAsync fileUri) ;;
  ret (match info with
       | Some size => size
       | None => 0%N
       end).

(** [while (size > MAX_FILE_SIZE && quality > 0.1) { ... quality -= 0.1 }]
    (lines 89-97), from the state [(compressed, size, quality)] to the state
    at exit. *)
Fixpoint reduceLoop (fuel : nat) (env : Env) (compressed : ImageResult)
    (size : N) (quality : float) : M (ImageResult * N * float) :=
  if (MAX_FILE_SIZE <? size)%N && (0.1 <? quality)%float then
    match fuel with
    | O => diverge
    | S fuel' =>
        compressed' <- awaitManipulate env (uri_of compressed) []
                         {| compress := quality; want_base64 := false |} ;;
        size' <- getFileSize (uri_of compressed') ;;
        reduceLoop fuel' env compressed' size' (quality - 0.1)%float
    end
  else ret (compressed, size, quality).

(** Steps 1 and 2 of [extractText] (lines 74-97): the bounded-size file
    and its size. *)
Definition reduce (fuel : nat) (env : Env) (u : uri)
    : M (ImageResult * N * float) :=
  compressed <- awaitManipulate env u [Resize 1280]
                  {| compress := 0.7; want_base64 := false |} ;;
  size <- getFileSize (uri_of compressed) ;;
  reduceLoop fuel env compressed size 0.6%float.

(** Steps 1 to 3 and the form of step 4 (lines 74-109).  The label of the
    log starts with a check mark (U+2705). *)
Definition prepare (fuel : nat) (env : Env) (u : uri) : M FormData :=
  reduced <- reduce fuel env u ;;
  emit (Console LogLevel ([9989%N] ++ js " Final image size:")) ;;;
  base64 <- awaitRead env (uri_of (fst (fst reduced))) ;;
  ret (formOf base64).

Definition extractText (fuel : nat) (env : Env) (u : uri) : M unit :=
  extractTextWith (prepare fuel env u) env.

End ResizeOnce.

(* ------------------------------------------------------------------ *)
(** ** Second revision: measure the base64 text, re-encode the original *)

Module FromOriginal.

Definition maxBytes : N := 1024 * 1024.

(** [Math.ceil((b64.length * 3) / 4)] (line 325); exact in binary64 for
    every length a string can have. *)
Definition calcBytes (b64 : jsstring) : N :=
  (N.of_nat (List.length b64) * 3 + 3) / 4.

(** A string-or-undefined used as a condition. *)
Definition nonEmpty (s : option jsstring) : bool :=
  match s with
  | Some (_ :: _) => true
  | _ => false
  end.

(** [while (quality >= 0.1) { ... quality -= 0.15 }] (lines 334-350), from
    the state [(quality, manipulatedBase64)] to the state at exit. *)
Fixpoint compressLoop (fuel : nat) (env : Env) (u : uri) (quality : float)
    (manipulatedBase64 : option jsstring) : M (float * option jsstring) :=
  if (0.1 <=? quality)%float then
    match fuel with
    | O => diverge
    | S fuel' =>
        result <- awaitManipulate env u []
                    {| compress := quality; want_base64 := true |} ;;
        if nonEmpty (base64_of result) then
          match base64_of result with
          | Some b64 =>
              if (calcBytes b64 <=? maxBytes)%N
              then ret (quality, Some b64)
              else compressLoop fuel' env u (quality - 0.15)%float (Some b64)
          | None => ret (quality, manipulatedBase64)
          end
        else ret (quality, manipulatedBase64)
    end
  else ret (quality, manipulatedBase64).

(** The inner [try { ... } catch (e) { console.warn(...) }] (lines
    323-365): the form that will be posted. *)
Definition choosePayload (fuel : nat) (env : Env) (u : uri)
    (base64 : jsstring) : M FormData :=
  tryCatch
    (if (maxBytes <? calcBytes base64)%N then
       emit (ImportManipulator (importImageManipulator env)) ;;;
       match importImageManipulator env with
       | Some e => throw e
       | None =>
           final <- compressLoop fuel env u 0.9%float None ;;
           if nonEmpty (snd final) then
             match snd final with
             | Some manipulated =>
                 emit (Console LogLevel (js "Compressed image to bytes:")) ;;;
                 ret (formOf manipulated)
             | None => ret (formOf base64)
             end
           else
             emit (Console WarnLevel
                     (js "Could not compress image via ImageManipulator; sending original (may be large).")) ;;;
             ret (formOf base64)
       end
     else ret (formOf base64))
    (fun e =>
       emit (Console WarnLevel
               (js "Image compression step failed, continuing with original image:")) ;;;
       ret (formOf base64)).

(** Reading the original and choosing the form (lines 315-365). *)
Definition prepare (fuel : nat) (env : Env) (u : uri) : M FormData :=
  base64 <- awaitRead env u ;;
  choosePayload fuel env u base64.

Definition extractText (fuel : nat) (env : Env) (u : uri) : M unit :=
  extractTextWith (prepare fuel env u) env.

End FromOriginal.

(* ------------------------------------------------------------------ *)
(** ** Reading a run: the busy flag and the stage it is in *)

Module Orchestrator.

(** The spec's states of a run.  The program keeps no such variable: the
    state is where the run stands. *)
Inductive PipelineState : Type :=
| Idle | Reducing | ExtractingText | Explaining | Done | Failed.

(** The [loading] state after a sequence of events. *)
Fixpoint loadingAfter (initial : bool) (l : list event) : bool :=
  match l with
  | [] => initial
  | SetLoading b :: rest => loadingAfter b rest
  | _ :: rest => loadingAfter initial rest
  end.

(** [useState(false)] *)
Definition busy (l : list event) : bool := loadingAfter false l.

Definition isOcrRequest (e : event) : bool :=
  match e with
  | FetchSent (PostOcr _) => true
  | _ => false
  end.

Definition isAnalyzeRequest (e : event) : bool :=
  match e with
  | FetchSent (PostAnalyze _) => true
  | _ => false
  end.

Definition isErrorAlert (e : event) : bool :=
  match e with
  | Alert title _ => jsstring_eqb title (js "Error")
  | _ => false
  end.

(** The state of the run whose whole timeline is [whole], once its first
    [n] events have happened: idle before the first, done or failed after
    the last (failed when an error alert was raised), and in between in the
    stage of the last request that went out. *)
Definition stateAt (whole : list event) (n : nat) : PipelineState :=
  match n with
  | O => Idle
  | S _ =>
      if Nat.leb (List.length whole) n then
        if existsb isErrorAlert whole then Failed else Done
      else if existsb isAnalyzeRequest (firstn n whole) then Explaining
      else if existsb isOcrRequest (firstn n whole) then ExtractingText
      else Reducing
  end.

Definition finalState (whole : list event) : PipelineState :=
  stateAt whole (List.length whole).

(** The two revisions of the component. *)
Inductive revision : Type :=
| Resizing        (* first: resize once, lower the quality of the result *)
| Reencoding.     (* second: measure base64, re-encode the original *)

Definition prepareOf (rev : revision) : nat -> Env -> uri -> M FormData :=
  match rev with
  | Resizing => ResizeOnce.prepare
  | Reencoding => FromOriginal.prepare
  end.

Definition extractTextOf (rev : revision) : nat -> Env -> uri -> M unit :=
  match rev with
  | Resizing => ResizeOnce.extractText
  | Reencoding => FromOriginal.extractText
  end.

End Orchestrator.
Import Orchestrator.

(* ------------------------------------------------------------------ *)
(** ** What is read off a trace to state the properties *)

Module Observing.

Definition qualityOf (e : event) : list float :=
  match e with
  | Manipulate _ _ opts _ => [compress opts]
  | _ => []
  end.

(** The quality factors of the encoder calls, in order. *)
Definition qualitiesUsed (l : list event) : list float :=
  flat_map qualityOf l.

(** Encoder calls made. *)
Definition encodings (l : list event) : nat :=
  List.length (qualitiesUsed l).

(** [q], [q - step], [q - step - step], ... ([n] of them), in binary64. *)
Fixpoint descending (step : float) (n : nat) (q : float) : list float :=
  match n with
  | O => []
  | S k => q :: descending step k (q - step)%float
  end.

(** [q] after [n] subtractions of [step]. *)
Fixpoint lowered (step : float) (n : nat) (q : float) : float :=
  match n with
  | O => q
  | S k => lowered step k (q - step)%float
  end.

(** Each element is the one before it minus [step], and is smaller. *)
Fixpoint fallsBy (step : float) (l : list float) : bool :=
  match l with
  | a :: (b :: _) as rest =>
      PrimFloat.eqb b (a - step) && (b <? a)%float && fallsBy step rest
  | _ => true
  end.

Definition sizeOf (e : event) : list N :=
  match e with
  | GetInfo _ (inr (Some size)) => [size]
  | GetInfo _ (inr None) => [0%N]
  | _ => []
  end.

(** The file sizes [getFileSize] returned, in order. *)
Definition sizesMeasured (l : list event) : list N := flat_map sizeOf l.

Definition variantOf (e : event) : list jsstring :=
  match e with
  | Manipulate _ _ _ (inr r) =>
      match base64_of r with
      | Some (c :: s) => [c :: s]
      | _ => []
      end
  | _ => []
  end.

(** The non-empty base64 texts the encoder returned, in order. *)
Definition variants (l : list event) : list jsstring := flat_map variantOf l.

Fixpoint nonIncreasing (l : list N) : bool :=
  match l with
  | a :: (b :: _) as rest => (b <=? a)%N && nonIncreasing rest
  | _ => true
  end.

(** The spec's bound on the iterations of the quality loop. *)
Definition iterationBound (startQuality qualityFloor qualityStep : float)
    : float :=
  ((startQuality - qualityFloor) / qualityStep + 1)%float.

Fixpoint floatOfNat (n : nat) : float :=
  match n with
  | O => 0%float
  | S k => (floatOfNat k + 1)%float
  end.

(** The guard [quality >= 0.1] of the second revision fails after at most
    [n] subtractions of 0.15, none of which raises the quality. *)
Fixpoint floorWithin' (n : nat) (q : float) : bool :=
  if (0.1 <=? q)%float then
    match n with
    | O => false
    | S k => (q - 0.15 <=? q)%float && floorWithin' k (q - 0.15)%float
    end
  else true.

(** For the quality [q - 0.15] the encoder returns a text of no more bytes
    than for [q] (second revision: each turn re-encodes the original
    [u]). *)
Definition noLongerBelow (env : Env) (u : uri) (q : float) : Prop :=
  forall r1 r2 b1 b2,
    manipulateAsync env u [] {| compress := q; want_base64 := true |} = inr r1 ->
    manipulateAsync env u []
      {| compress := (q - 0.15)%float; want_base64 := true |} = inr r2 ->
    base64_of r1 = Some b1 ->
    base64_of r2 = Some b2 ->
    (FromOriginal.calcBytes b2 <= FromOriginal.calcBytes b1)%N.

(** ... at each of the qualities from which the loop of the second revision
    goes one turn further: 0.9 and the four below it. *)
Definition smallerDownTheLoop (env : Env) (u : uri) : Prop :=
  forall n, (n < 5)%nat -> noLongerBelow env u (lowered 0.15 n 0.9).

(** The newest of the variants [vs], or [m] when there is none. *)
Definition latest (vs : list jsstring) (m : option jsstring)
    : option jsstring :=
  match vs with
  | [] => m
  | _ :: _ => Some (last vs [])
  end.

(** The encoder settled, with no base64 text or an empty one. *)
Definition returnedNothing (e : event) : bool :=
  match e with
  | Manipulate _ _ _ (inr r) => negb (FromOriginal.nonEmpty (base64_of r))
  | _ => false
  end.

Definition isFailedImport (e : event) : bool :=
  match e with
  | ImportManipulator (Some _) => true
  | _ => false
  end.

Definition isRequest (e : event) : bool :=
  match e with
  | FetchSent _ => true
  | _ => false
  end.

(** What the OCR stage yields for the form [payload]. *)
Definition ocrResult (env : Env) (payload : FormData) : exn + jsstring :=
  match fetch env (PostOcr payload) with
  | inl e => inl e
  | inr response =>
      match json_body response with
      | inl e => inl e
      | inr data => parsedText data
      end
  end.

(** What the analysis stage yields for [text]. *)
Definition explanation (env : Env) (text : jsstring) : exn + json :=
  match fetch env (PostAnalyze text) with
  | inl e => inl e
  | inr response =>
      match json_body response with
      | inl e => inl e
      | inr data => resultOrFallback data
      end
  end.

(** The first revision's resizing: its options, the call with what it
    settled to, and what stops the steps that follow it, which is what the
    encoder rejected with or else the throw of the measurement. *)
Definition resizeOptions : SaveOptions :=
  {| compress := 0.7; want_base64 := false |}.

Definition resizing (env : Env) (u : uri) : event :=
  Manipulate u [Resize 1280] resizeOptions
    (manipulateAsync env u [Resize 1280] resizeOptions).

Definition stoppedBy (env : Env) (u : uri) : exn :=
  match manipulateAsync env u [Resize 1280] resizeOptions with
  | inl e => e
  | inr _ => ReferenceError
  end.

(** The two ways [analyzeWithAI] ends, as events. *)
Definition explainedEvents (r : exn + json) : list event :=
  match r with
  | inr shown => [SetAiResult shown]
  | inl e => [ConsoleError e;
              Alert (js "Error") (js "Could not connect to AI service.")]
  end.

Definition resets : list event :=
  [SetLoading true; SetExtractedText []; SetAiResult (JStr [])].

Definition failureEvents (e : exn) : list event :=
  [ConsoleError e; Alert (js "Error") (js "Failed to extract text.")].

Definition noTextAlert : event :=
  Alert (js "No text detected") (js "Try another image with clearer text.").

(** Events of the steps that prepare the form: calls of the Expo modules
    and console output, nothing that touches the screen or the network. *)
Definition isLocal (e : event) : bool :=
  match e with
  | Manipulate _ _ _ _ | GetInfo _ _ | ReadAsString _ _
  | ImportManipulator _ | Console _ _ => true
  | _ => false
  end.

(** A run from the OCR request on, event by event: the request and its
    outcome, then either the failure alert, or the "no text" alert, or the
    start of the analysis, the clearing of the flag by [extractText], and
    the rest of [analyzeWithAI]. *)
Definition answerEvents (env : Env) (payload : FormData) : list event :=
  FetchSent (PostOcr payload) :: FetchSettled (fetch env (PostOcr payload)) ::
  match fetch env (PostOcr payload) with
  | inl e => failureEvents e ++ [SetLoading false]
  | inr response =>
      match json_body response with
      | inl e => failureEvents e ++ [SetLoading false]
      | inr data =>
          Console LogLevel (js "OCR Response:") ::
          match parsedText data with
          | inl e => failureEvents e ++ [SetLoading false]
          | inr [] =>
              [SetExtractedText []; Console LogLevel (js "Extracted Text:");
               noTextAlert; SetLoading false]
          | inr (c :: s) =>
              [SetExtractedText (c :: s);
               Console LogLevel (js "Extracted Text:");
               SetLoading true; FetchSent (PostAnalyze (c :: s));
               SetLoading false;
               FetchSettled (fetch env (PostAnalyze (c :: s)))]
              ++ explainedEvents (explanation env (c :: s))
              ++ [SetLoading false]
          end
      end
  end.

(** A whole run, given what the preparation did and how it ended. *)
Definition runEvents (env : Env) (prepared : list event)
    (c : completion FormData) : list event :=
  resets ++ prepared ++
  match c with
  | Normal payload => answerEvents env payload
  | Thrown e => failureEvents e ++ [SetLoading false]
  | OutOfFuel => []
  end.

(** [setLoading(false)] *)
Definition clears (e : event) : bool :=
  match e with
  | SetLoading false => true
  | _ => false
  end.

Definition isFailedEncoding (e : event) : bool :=
  match e with
  | Manipulate _ _ _ (inl _) => true
  | _ => false
  end.

(** How the inner [try] block ended, read off its events and the text sent. *)
Inductive chosen (base64 : jsstring) (ev : list event) (sent : jsstring) : Prop :=
| chosen_untouched :
    (* the original is within the limit: nothing is done *)
    (FromOriginal.calcBytes base64 <= FromOriginal.maxBytes)%N -> sent = base64 -> ev = [] ->
    chosen base64 ev sent
| chosen_fits :
    (* the newest variant is within the limit *)
    (FromOriginal.maxBytes < FromOriginal.calcBytes base64)%N ->
    (FromOriginal.calcBytes sent <= FromOriginal.maxBytes)%N ->
    latest (variants ev) None = Some sent ->
    existsb isFailedEncoding ev = false ->
    chosen base64 ev sent
| chosen_at_floor :
    (* six oversized variants, down to the last quality: the last is sent *)
    (FromOriginal.maxBytes < FromOriginal.calcBytes base64)%N ->
    encodings ev = 6%nat ->
    List.length (variants ev) = 6%nat ->
    Forall (fun b => (FromOriginal.maxBytes < FromOriginal.calcBytes b)%N) (variants ev) ->
    latest (variants ev) None = Some sent ->
    existsb isFailedEncoding ev = false ->
    chosen base64 ev sent
| chosen_no_text :
    (* the encoder returned no text: the newest variant, else the original *)
    (FromOriginal.maxBytes < FromOriginal.calcBytes base64)%N ->
    existsb returnedNothing ev = true ->
    latest (variants ev) (Some base64) = Some sent ->
    existsb isFailedEncoding ev = false ->
    chosen base64 ev sent
| chosen_threw :
    (* the import or the encoder threw: the original *)
    (FromOriginal.maxBytes < FromOriginal.calcBytes base64)%N ->
    existsb isFailedImport ev = true \/ existsb isFailedEncoding ev = true ->
    sent = base64 ->
    chosen base64 ev sent.

End Observing.
Import Observing.

(* ------------------------------------------------------------------ *)
(** ** Concrete surroundings used as examples *)

Module Scenarios.

Definition photo : uri := js "file:///photo.jpg".

(** The base64 text of three bytes. *)
Definition smallBase64 : jsstring := js "QUJD".

(** 1,398,104 characters of base64 ("AAAA..."), the text of 1,048,578
    bytes: two more than the limit. *)
Definition bigBase64 : jsstring := repeat 65%N (N.to_nat 1398104).

Definition answer (code : N) (data : json) : Response :=
  {| status := code; json_body := inr data |}.

Definition helloAnswer : json :=
  JObj [(js "ParsedResults",
         JArr [JObj [(js "ParsedText", JStr (js " hello world "))]])].

Definition blankAnswer : json := JObj [(js "ParsedResults", JArr [])].

Definition errorAnswer : json :=
  JObj [(js "IsErroredOnProcessing", JBool true);
        (js "ErrorMessage", JStr (js "Internal server error"))].

Definition analysisAnswer : json :=
  JObj [(js "result", JStr (js "A greeting."))].

(** The OCR endpoint answers [ocr]; the analysis endpoint works. *)
Definition service (ocr : exn + Response) (req : request) : exn + Response :=
  match req with
  | PostOcr _ => ocr
  | PostAnalyze _ => inr (answer 200 analysisAnswer)
  end.

(** The encoder writes its [n]-th output to the file named [[n]]. *)
Definition nextFile (src : uri) : ImageResult :=
  {| uri_of := match src with
               | [n] => [(n + 1)%N]
               | _ => [0%N]
               end;
     base64_of := Some smallBase64 |}.

(** A photo that is small once resized. *)
Definition envWith (ocr : exn + Response) : Env :=
  {| manipulateAsync := fun src _ _ => inr (nextFile src);
     readAsStringAsync := fun _ => inr smallBase64;
     importImageManipulator := None;
     fetch := service ocr |}.

Definition envHello : Env := envWith (inr (answer 200 helloAnswer)).
Definition envBlank : Env := envWith (inr (answer 200 blankAnswer)).
Definition envServerError : Env := envWith (inr (answer 500 errorAnswer)).
Definition envOffline : Env :=
  envWith (inl (Rejected (js "Network request failed"))).

(** The analysis endpoint answers [analysis]. *)
Definition envAnalysis (analysis : json) : Env :=
  {| manipulateAsync := fun src _ _ => inr (nextFile src);
     readAsStringAsync := fun _ => inr smallBase64;
     importImageManipulator := None;
     fetch := fun req =>
       match req with
       | PostOcr _ => inr (answer 200 helloAnswer)
       | PostAnalyze _ => inr (answer 200 analysis)
       end |}.

(** A large original, with an encoder that does what [encoder] says. *)
Definition envLarge (encoder : exn + ImageResult) : Env :=
  {| manipulateAsync := fun _ _ _ => encoder;
     readAsStringAsync := fun _ => inr bigBase64;
     importImageManipulator := None;
     fetch := service (inr (answer 200 helloAnswer)) |}.

(** ... that brings it down to three bytes at once, *)
Definition envHeavy : Env :=
  envLarge (inr {| uri_of := js "file:///out.jpg"; base64_of := Some smallBase64 |}).

(** ... that rejects the picture, *)
Definition envCorrupt : Env :=
  envLarge (inl (Rejected (js "Could not decode image"))).


(** 1,398,108 characters of base64, the text of 1,048,581 bytes. *)
Definition biggerBase64 : jsstring := repeat 65%N (N.to_nat 1398108).

(** A large original, with an encoder that answers by the quality it is
    given. *)
Definition envByQuality (encoder : float -> jsstring) : Env :=
  {| manipulateAsync := fun _ _ opts =>
       inr {| uri_of := js "file:///out.jpg";
              base64_of := Some (encoder (compress opts)) |};
     readAsStringAsync := fun _ => inr bigBase64;
     importImageManipulator := None;
     fetch := service (inr (answer 200 helloAnswer)) |}.

(** ... whose output is too large above quality 0.7 and three bytes from
    there down, *)
Definition envStepping : Env :=
  envByQuality (fun q => if (0.7 <? q)%float then bigBase64 else smallBase64).

(** ... whose output is too large at every quality, and larger below
    quality 0.8 than above. *)
Definition envSwelling : Env :=
  envByQuality (fun q => if (0.8 <? q)%float then bigBase64 else biggerBase64).

End Scenarios.
Import Scenarios.

(* ------------------------------------------------------------------ *)
(** ** The component: its state, the two buttons' handlers, what it draws *)

Module Component.

(** An [ImagePickerAsset]; the program reads its [uri]. *)
Record ImagePickerAsset : Type := {
  asset_uri : uri
}.

(** An [ImagePickerResult]; [assets] is [null] ([None]) when the user
    backed out. *)
Record ImagePickerResult : Type := {
  canceled : bool;
  assets : option (list ImagePickerAsset)
}.

(** [ImagePicker]: how each of its four calls settles.  A permission call
    is given by the [status] of the response it resolves to.  The options
    the program passes to the two pickers are constants. *)
Record ImagePicker : Type := {
  requestMediaLibraryPermissionsAsync : exn + jsstring;
  launchImageLibraryAsync : exn + ImagePickerResult;
  requestCameraPermissionsAsync : exn + jsstring;
  launchCameraAsync : exn + ImagePickerResult
}.

(** What a handler does to the outside, in order: the picker calls with
    what they settled to, [setImageUri], and whatever [event] lists. *)
Inductive step : Type :=
| MediaLibraryPermission (settled : exn + jsstring)
| LaunchImageLibrary (settled : exn + ImagePickerResult)
| CameraPermission (settled : exn + jsstring)
| LaunchCamera (settled : exn + ImagePickerResult)
| SetImageUri (u : uri)
| Did (e : event).

(** A handler as a trace with a completion, as [M] is, over [step]:
    [steps] up to the moment the handler returns, [afterwards] what the
    functions it did not await do later. *)
Record Task (A : Type) : Type := mkTask {
  steps : list step;
  afterwards : list step;
  outcome : completion A
}.
Arguments mkTask {A} steps afterwards outcome.
Arguments steps {A} _.
Arguments afterwards {A} _.
Arguments outcome {A} _.

Definition tret {A} (a : A) : Task A := mkTask [] [] (Normal a).

Definition tbind {A B} (h : Task A) (k : A -> Task B) : Task B :=
  match outcome h with
  | Normal a =>
      let r := k a in
      mkTask (steps h ++ steps r) (afterwards h ++ afterwards r) (outcome r)
  | Thrown e => mkTask (steps h) (afterwards h) (Thrown e)
  | OutOfFuel => mkTask (steps h) (afterwards h) OutOfFuel
  end.

Definition temit (x : step) : Task unit := mkTask [x] [] (Normal tt).

(** [await p] for a promise that settled to [r]. *)
Definition tsettle {A} (r : exn + A) : Task A :=
  match r with
  | inr a => tret a
  | inl e => mkTask [] [] (Thrown e)
  end.

(** A block of the pipeline, run inside a handler. *)
Definition lift {A} (m : M A) : Task A :=
  mkTask (map Did (events m)) (map Did (later m)) (completion_of m).

(** Everything a handler sets off, in the order it happens. *)
Definition course {A} (h : Task A) : list step := steps h ++ afterwards h.

Declare Scope task_scope.
Delimit Scope task_scope with task.
Notation "x <- h ;; k" := (tbind h (fun x => k))
  (at level 61, h at next level, right associativity) : task_scope.
Notation "h ;;; k" := (tbind h (fun _ => k))
  (at level 61, right associativity) : task_scope.
Local Open Scope task_scope.

(** [result.assets[0].uri]: reading [0] of [null] throws, and so does
    reading [uri] of the [undefined] that an empty array gives. *)
Definition firstAssetUri (result : ImagePickerResult) : exn + uri :=
  match assets result with
  | None => inl TypeError
  | Some [] => inl TypeError
  | Some (asset :: _) => inr (asset_uri asset)
  end.

(** [pickImage] (lines 26-45 and 272-288).  [extractText] is the function of
    that name in the same component; its call is not awaited. *)
Definition pickImage (extractText : uri -> M unit) (picker : ImagePicker)
    : Task unit :=
  status <- (temit (MediaLibraryPermission
                      (requestMediaLibraryPermissionsAsync picker)) ;;;
             tsettle (requestMediaLibraryPermissionsAsync picker)) ;;
  if negb (jsstring_eqb status (js "granted")) then
    lift (emit (Alert (js "Permission required")
                      (js "Please grant access to your media library.")))
  else
    result <- (temit (LaunchImageLibrary (launchImageLibraryAsync picker)) ;;;
               tsettle (launchImageLibraryAsync picker)) ;;
    if negb (canceled result) then
      shown <- tsettle (firstAssetUri result) ;;
      temit (SetImageUri shown) ;;;
      u <- tsettle (firstAssetUri result) ;;
      lift (detached (extractText u))
    else tret tt.

(** [takePhoto] (lines 48-63 and 291-306). *)
Definition takePhoto (extractText : uri -> M unit) (picker : ImagePicker)
    : Task unit :=
  status <- (temit (CameraPermission (requestCameraPermissionsAsync picker)) ;;;
             tsettle (requestCameraPermissionsAsync picker)) ;;
  if negb (jsstring_eqb status (js "granted")) then
    lift (emit (Alert (js "Permission required")
                      (js "Please grant camera permissions.")))
  else
    result <- (temit (LaunchCamera (launchCameraAsync picker)) ;;;
               tsettle (launchCameraAsync picker)) ;;
    if negb (canceled result) then
      shown <- tsettle (firstAssetUri result) ;;
      temit (SetImageUri shown) ;;;
      u <- tsettle (firstAssetUri result) ;;
      lift (detached (extractText u))
    else tret tt.

(** The four [useState] cells (lines 20-23 and 266-269).  [aiResult] holds
    whatever [setAiResult] was given, which is [data.result] as parsed. *)
Record State : Type := {
  imageUri : option uri;
  extractedText : jsstring;
  aiResult : json;
  loading : bool
}.

(** The initial values: [null], the empty string twice, [false]. *)
Definition initial : State :=
  {| imageUri := None; extractedText := []; aiResult := JStr [];
     loading := false |}.

(** A setter replaces the value of its cell; nothing else touches the
    state. *)
Definition assign (s : State) (x : step) : State :=
  match x with
  | SetImageUri u =>
      {| imageUri := Some u; extractedText := extractedText s;
         aiResult := aiResult s; loading := loading s |}
  | Did (SetExtractedText text) =>
      {| imageUri := imageUri s; extractedText := text;
         aiResult := aiResult s; loading := loading s |}
  | Did (SetAiResult v) =>
      {| imageUri := imageUri s; extractedText := extractedText s;
         aiResult := v; loading := loading s |}
  | Did (SetLoading b) =>
      {| imageUri := imageUri s; extractedText := extractedText s;
         aiResult := aiResult s; loading := b |}
  | _ => s
  end.

(** The state once the steps [l] have happened. *)
Definition after (s : State) (l : list step) : State := fold_left assign l s.

(** The steps that call a setter. *)
Definition setsState (x : step) : bool :=
  match x with
  | SetImageUri _ | Did (SetExtractedText _) | Did (SetAiResult _)
  | Did (SetLoading _) => true
  | _ => false
  end.

(** None of the steps [l] calls a setter. *)
Definition setsNothing (l : list step) : bool :=
  forallb (fun x => negb (setsState x)) l.

(** [l] is [a] and [b] put together, each in its own order: what two
    handlers or runs under way at once do between them.  Nothing in the
    component keeps a second press from starting a run before the first has
    ended. *)
Inductive merged {A : Type} : list A -> list A -> list A -> Prop :=
| merged_nil : merged [] [] []
| merged_left x a b l : merged a b l -> merged (x :: a) b (x :: l)
| merged_right x a b l : merged a b l -> merged a (x :: b) (x :: l).

(** The two functions the buttons are wired to. *)
Inductive handler : Type := TakePhoto | PickImage.

Definition press (h : handler) : (uri -> M unit) -> ImagePicker -> Task unit :=
  match h with
  | TakePhoto => takePhoto
  | PickImage => pickImage
  end.

(** The permission call of each handler, its picker call, the steps that
    record them, and the message of its alert. *)
Definition permissionOf (h : handler) (picker : ImagePicker) : exn + jsstring :=
  match h with
  | TakePhoto => requestCameraPermissionsAsync picker
  | PickImage => requestMediaLibraryPermissionsAsync picker
  end.

Definition launchOf (h : handler) (picker : ImagePicker)
    : exn + ImagePickerResult :=
  match h with
  | TakePhoto => launchCameraAsync picker
  | PickImage => launchImageLibraryAsync picker
  end.

Definition asked (h : handler) (settled : exn + jsstring) : step :=
  match h with
  | TakePhoto => CameraPermission settled
  | PickImage => MediaLibraryPermission settled
  end.

Definition launched (h : handler) (settled : exn + ImagePickerResult) : step :=
  match h with
  | TakePhoto => LaunchCamera settled
  | PickImage => LaunchImageLibrary settled
  end.

Definition refusal (h : handler) : event :=
  Alert (js "Permission required")
        match h with
        | TakePhoto => js "Please grant camera permissions."
        | PickImage => js "Please grant access to your media library."
        end.

(** What is drawn.  Props that only style an element ([style], [size],
    [color], [contentContainerStyle]) are left out. *)
#[local] Unset Elimination Schemes.
Inductive node : Type :=
| Skip                        (* [null] or [false]: nothing is drawn *)
| Bare (v : json)             (* a value standing among the children as it is *)
| ScrollView (children : list node)
| ThemedText (type : option jsstring) (text : jsstring)
| View (children : list node)
| TouchableOpacity (onPress : handler) (children : list node)
| Text (content : json)
| ActivityIndicator
| Image (source : uri).
#[local] Set Elimination Schemes.

(** The title, the subtitle and the row of buttons (lines 158-172 and
    412-424).  The characters outside ASCII are written as their UTF-16
    code units: an em dash, a camera, a framed picture with its variation
    selector. *)
Definition heading : list node :=
  [ThemedText (Some (js "title")) (js "ExplainIt AI");
   ThemedText None
     (js "Upload or take a picture " ++ [8212%N]
      ++ js " we'll extract and simplify the text.");
   View [TouchableOpacity TakePhoto
           [Text (JStr ([55357; 56567]%N ++ js " Take Photo"))];
         TouchableOpacity PickImage
           [Text (JStr ([55357; 56764; 65039]%N ++ js " Upload Image"))]]].

(** [{loading && <ActivityIndicator ... />}] *)
Definition spinner (s : State) : node :=
  if loading s then ActivityIndicator else Skip.

(** [{imageUri && <Image source={{ uri: imageUri }} ... />}]: [&&] yields
    its left operand when that is falsy, so an empty string stands among
    the children as it is. *)
Definition preview (s : State) : node :=
  match imageUri s with
  | None => Skip
  | Some u => if truthy (Some (JStr u)) then Image u else Bare (JStr u)
  end.

(** [{extractedText ? <View> ... </View> : null}] (a memo, then the
    text) *)
Definition textBox (s : State) : node :=
  if truthy (Some (JStr (extractedText s))) then
    View [Text (JStr ([55357; 56541]%N ++ js " Extracted Text:"));
          Text (JStr (extractedText s))]
  else Skip.

(** [{aiResult ? <View> ... </View> : null}] (a robot face, then the
    explanation) *)
Definition explanationBox (s : State) : node :=
  if truthy (Some (aiResult s)) then
    View [Text (JStr ([55358; 56598]%N ++ js " AI Explanation:"));
          Text (aiResult s)]
  else Skip.

(** What [HomeScreen] returns in the state [s] (lines 156-198 and
    410-444). *)
Definition HomeScreen (s : State) : node :=
  ScrollView (heading ++ [spinner s; preview s; textBox s; explanationBox s]).

End Component.
Import Component.

(* ------------------------------------------------------------------ *)
(** ** Further readings of a trace *)

Module Inspecting.

(** An encoder call: what it was given and what it settled to. *)
Definition call : Type := uri * list action * SaveOptions * (exn + ImageResult).

Definition callOf (e : event) : list call :=
  match e with
  | Manipulate src actions opts settled => [(src, actions, opts, settled)]
  | _ => []
  end.

(** The encoder calls, in order. *)
Definition encoderCalls (l : list event) : list call := flat_map callOf l.

Definition noActions (actions : list action) : bool :=
  match actions with
  | [] => true
  | _ :: _ => false
  end.

(** A call that encodes [u] itself, as it is, and asks for base64. *)
Definition encodesOriginal (u : uri) (c : call) : bool :=
  match c with
  | (from, actions, opts, _) =>
      jsstring_eqb from u && noActions actions && want_base64 opts
  end.

(** Steps that are neither an encoder call nor a reading nor a
    measurement. *)
Definition quiet (e : event) : bool :=
  match e with
  | ImportManipulator _ | Console _ _ => true
  | _ => false
  end.

Definition readOf (e : event) : list uri :=
  match e with
  | ReadAsString fileUri _ => [fileUri]
  | _ => []
  end.

(** The files read as base64, in order. *)
Definition filesRead (l : list event) : list uri := flat_map readOf l.

(** The requests of a run, in order. *)
Definition requests (l : list event) : list request :=
  flat_map (fun e => match e with FetchSent req => [req] | _ => [] end) l.

Definition alertOf (e : event) : list (jsstring * jsstring) :=
  match e with
  | Alert title message => [(title, message)]
  | _ => []
  end.

(** The alerts of a run, each with its title and its message, in order. *)
Definition alerts (l : list event) : list (jsstring * jsstring) :=
  flat_map alertOf l.

Definition shownTextOf (e : event) : list jsstring :=
  match e with
  | SetExtractedText text => [text]
  | _ => []
  end.

(** What [setExtractedText] was given, in order. *)
Definition textsShown (l : list event) : list jsstring := flat_map shownTextOf l.

Definition tooLong (b64 : jsstring) : bool :=
  (FromOriginal.maxBytes <? FromOriginal.calcBytes b64)%N.

(** [ParsedText] of the first element of [ParsedResults], when the answer
    has one. *)
Definition firstParsedText (data : json) : value :=
  match data with
  | JObj members =>
      match lookup (js "ParsedResults") members with
      | Some results =>
          match index0 results with
          | Some (JObj first) => lookup (js "ParsedText") first
          | _ => None
          end
      | None => None
      end
  | _ => None
  end.

Definition isString (v : json) : bool :=
  match v with
  | JStr _ => true
  | _ => false
  end.

(** Neither starts nor ends with white space. *)
Definition trimmed (s : jsstring) : bool :=
  match s with
  | [] => true
  | c :: _ => negb (is_white_space c) && negb (is_white_space (last s c))
  end.

(** [low <= q <= high] *)
Definition inRange (low high q : float) : bool :=
  (low <=? q)%float && (q <=? high)%float.

End Inspecting.
Import Inspecting.

(* ------------------------------------------------------------------ *)
(** ** Concrete pickers used as examples *)

Module Captures.

Definition picked (u : uri) : ImagePickerResult :=
  {| canceled := false; assets := Some [{| asset_uri := u |}] |}.

Definition backedOut : ImagePickerResult :=
  {| canceled := true; assets := None |}.

(** Both permissions answer [status]; both pickers settle to [result]. *)
Definition pickerWith (status : jsstring) (result : exn + ImagePickerResult)
    : ImagePicker :=
  {| requestMediaLibraryPermissionsAsync := inr status;
     launchImageLibraryAsync := result;
     requestCameraPermissionsAsync := inr status;
     launchCameraAsync := result |}.

Definition pickerGranted : ImagePicker :=
  pickerWith (js "granted") (inr (picked photo)).

Definition pickerDenied : ImagePicker :=
  pickerWith (js "denied") (inr (picked photo)).

Definition pickerBackedOut : ImagePicker :=
  pickerWith (js "granted") (inr backedOut).

Definition pickerEmpty : ImagePicker :=
  pickerWith (js "granted") (inr {| canceled := false; assets := Some [] |}).

Definition pickerBroken : ImagePicker :=
  pickerWith (js "granted") (inl (Rejected (js "Camera not available"))).

(** No file can be read. *)
Definition envUnreadable : Env :=
  {| manipulateAsync := fun src _ _ => inr (nextFile src);
     readAsStringAsync := fun _ => inl (Rejected (js "File not found"));
     importImageManipulator := None;
     fetch := service (inr (answer 200 helloAnswer)) |}.

(** The analysis endpoint cannot be reached. *)
Definition envNoAnalysis : Env :=
  {| manipulateAsync := fun src _ _ => inr (nextFile src);
     readAsStringAsync := fun _ => inr smallBase64;
     importImageManipulator := None;
     fetch := fun req =>
       match req with
       | PostOcr _ => inr (answer 200 helloAnswer)
       | PostAnalyze _ => inl (Rejected (js "Network request failed"))
       end |}.

(** Two pages of text. *)
Definition twoPages : json :=
  JObj [(js "ParsedResults",
         JArr [JObj [(js "ParsedText", JStr (js " hello world "))];
               JObj [(js "ParsedText", JStr (js "second page"))]])].

(** A first result whose [ParsedText] is a number. *)
Definition numberAnswer : json :=
  JObj [(js "ParsedResults", JArr [JObj [(js "ParsedText", JNum 5)]])].

End Captures.
Import Captures.

(* ================================================================== *)
(** * Properties *)

(** ** The monad *)

Lemma bind_Normal {A B} ev lt (a : A) (k : A -> M B) :
  bind (mkM ev lt (Normal a)) k =
  mkM (ev ++ events (k a)) (lt ++ later (k a)) (completion_of (k a)).
Proof. reflexivity. Qed.

Lemma bind_Thrown {A B} ev lt e (k : A -> M B) :
  bind (mkM ev lt (Thrown e)) k = mkM ev lt (Thrown e).
Proof. reflexivity. Qed.

Lemma M_eta {A} (m : M A) :
  m = mkM (events m) (later m) (completion_of m).
Proof. destruct m; reflexivity. Qed.

Lemma awaitManipulate_ok env src actions opts r :
  manipulateAsync env src actions opts = inr r ->
  awaitManipulate env src actions opts =
  mkM [Manipulate src actions opts (inr r)] [] (Normal r).
Proof. intros H. unfold awaitManipulate. rewrite H. reflexivity. Qed.

Lemma awaitManipulate_err env src actions opts e :
  manipulateAsync env src actions opts = inl e ->
  awaitManipulate env src actions opts =
  mkM [Manipulate src actions opts (inl e)] [] (Thrown e).
Proof. intros H. unfold awaitManipulate. rewrite H. reflexivity. Qed.

Lemma getFileSize_throws fileUri :
  ResizeOnce.getFileSize fileUri = mkM [] [] (Thrown ReferenceError).
Proof. reflexivity. Qed.

Lemma awaitRead_ok env fileUri b64 :
  readAsStringAsync env fileUri = inr b64 ->
  awaitRead env fileUri = mkM [ReadAsString fileUri (inr b64)] [] (Normal b64).
Proof. intros H. unfold awaitRead. rewrite H. reflexivity. Qed.

Lemma awaitRead_err env fileUri e :
  readAsStringAsync env fileUri = inl e ->
  awaitRead env fileUri = mkM [ReadAsString fileUri (inl e)] [] (Thrown e).
Proof. intros H. unfold awaitRead. rewrite H. reflexivity. Qed.

Lemma awaitFetch_ok env req resp :
  fetch env req = inr resp ->
  awaitFetch env req =
  mkM [FetchSent req; FetchSettled (inr resp)] [] (Normal resp).
Proof. intros H. unfold awaitFetch. rewrite H. reflexivity. Qed.

Lemma awaitFetch_err env req e :
  fetch env req = inl e ->
  awaitFetch env req =
  mkM [FetchSent req; FetchSettled (inl e)] [] (Thrown e).
Proof. intros H. unfold awaitFetch. rewrite H. reflexivity. Qed.

Lemma last_cons_default {A} (a d : A) (l : list A) :
  last (a :: l) d = last l a.
Proof.
  revert a d. induction l as [|b l IH]; intros a d; [reflexivity|].
  change (last (a :: b :: l) d) with (last (b :: l) d).
  rewrite IH. symmetry. apply IH.
Qed.

Lemma nonIncreasing_cons a b l :
  nonIncreasing (a :: b :: l) = ((b <=? a)%N && nonIncreasing (b :: l)).
Proof. reflexivity. Qed.

(** ** The first revision: the resizing, then the measurement *)

Section Reduce.
Variable env : Env.

(** Steps 1 and 2 come to the resizing and a throw: what the encoder
    rejected with, or else the [ReferenceError] of the measurement.  The
    loop is never reached. *)
Lemma reduce_shape fuel u :
  ResizeOnce.reduce fuel env u =
  mkM [resizing env u] [] (Thrown (stoppedBy env u)).
Proof.
  unfold ResizeOnce.reduce, awaitManipulate, resizing, stoppedBy, resizeOptions.
  destruct (manipulateAsync env u [Resize 1280]
              {| compress := 0.7; want_base64 := false |}); reflexivity.
Qed.

Lemma prepare1_shape fuel u :
  ResizeOnce.prepare fuel env u =
  mkM [resizing env u] [] (Thrown (stoppedBy env u)).
Proof. unfold ResizeOnce.prepare. rewrite reduce_shape. reflexivity. Qed.

End Reduce.

(** ** The quality loop of the second revision *)

Section CompressLoop.
Import FromOriginal.
Variable env : Env.
Variable u : uri.

Lemma compressLoop_exit fuel q m :
  (0.1 <=? q)%float = false ->
  compressLoop fuel env u q m = ret (q, m).
Proof. intros H. destruct fuel; simpl; rewrite H; reflexivity. Qed.

Lemma compressLoop_step fuel q m :
  (0.1 <=? q)%float = true ->
  compressLoop (S fuel) env u q m =
  bind (awaitManipulate env u [] {| compress := q; want_base64 := true |})
       (fun result =>
          if nonEmpty (base64_of result) then
            match base64_of result with
            | Some b64 =>
                if (calcBytes b64 <=? maxBytes)%N
                then ret (q, Some b64)
                else compressLoop fuel env u (q - 0.15)%float (Some b64)
            | None => ret (q, m)
            end
          else ret (q, m)).
Proof. intros H. simpl. rewrite H. reflexivity. Qed.

Lemma variantOf_some src actions opts r b64 :
  base64_of r = Some b64 -> nonEmpty (Some b64) = true ->
  variantOf (Manipulate src actions opts (inr r)) = [b64].
Proof.
  intros Hb Hne. unfold variantOf. rewrite Hb.
  destruct b64; [discriminate|reflexivity].
Qed.

Lemma variantOf_none src actions opts r :
  nonEmpty (base64_of r) = false ->
  variantOf (Manipulate src actions opts (inr r)) = [].
Proof.
  intros Hne. unfold variantOf.
  destruct (base64_of r) as [[|c s]|]; [reflexivity|discriminate|reflexivity].
Qed.

Lemma latest_cons b vs m : latest (b :: vs) m = latest vs (Some b).
Proof.
  unfold latest. destruct vs as [|b' vs]; reflexivity.
Qed.

(** What a run of the loop looks like when the floor is at most [n]
    subtractions away.  If it ends normally, the text it holds is the newest
    variant, and it ended for one of three reasons: that text is within the
    limit, or the floor was passed after [k] oversized variants, or the
    encoder returned no text. *)
Lemma compressLoop_run n :
  forall q, floorWithin' n q = true ->
  forall fuel m, (n <= fuel)%nat ->
    compressLoop fuel env u q m = compressLoop n env u q m
    /\ completion_of (compressLoop n env u q m) <> OutOfFuel
    /\ later (compressLoop n env u q m) = []
    /\ (forall e, completion_of (compressLoop n env u q m) = Thrown e ->
         existsb isFailedEncoding (events (compressLoop n env u q m)) = true)
    /\ exists k, (k <= n)%nat
        /\ qualitiesUsed (events (compressLoop n env u q m)) = descending 0.15 k q
        /\ forall q' m',
             completion_of (compressLoop n env u q m) = Normal (q', m') ->
             existsb isFailedEncoding (events (compressLoop n env u q m)) = false
             /\ m' = latest (variants (events (compressLoop n env u q m))) m
             /\ ((exists b, m' = Some b /\ (calcBytes b <= maxBytes)%N
                             /\ variants (events (compressLoop n env u q m)) <> [])
                 \/ ((0.1 <=? q')%float = false /\ q' = lowered 0.15 k q
                     /\ List.length (variants (events (compressLoop n env u q m))) = k
                     /\ Forall (fun b => (maxBytes < calcBytes b)%N)
                               (variants (events (compressLoop n env u q m))))
                 \/ existsb returnedNothing (events (compressLoop n env u q m)) = true).
Proof.
  induction n as [|n IH]; intros q Hq fuel m Hfuel.
  - assert (G : (0.1 <=? q)%float = false).
    { simpl in Hq. destruct (0.1 <=? q)%float; [discriminate|reflexivity]. }
    rewrite !compressLoop_exit by exact G.
    split; [reflexivity|]. split; [discriminate|]. split; [reflexivity|].
    split; [discriminate|].
    exists 0%nat. split; [lia|]. split; [reflexivity|].
    intros q' m' H. injection H as <- <-.
    split; [reflexivity|]. split; [reflexivity|].
    right. left. simpl. auto.
  - destruct (0.1 <=? q)%float eqn:G.
    + destruct fuel as [|fuel]; [lia|].
      rewrite !compressLoop_step by exact G.
      simpl in Hq. rewrite G in Hq.
      apply andb_true_iff in Hq. destruct Hq as [_ Hq].
      set (opts := {| compress := q; want_base64 := true |}).
      destruct (manipulateAsync env u [] opts) as [e|r] eqn:Hm.
      * rewrite (awaitManipulate_err _ _ _ _ _ Hm), !bind_Thrown. simpl.
        split; [reflexivity|]. split; [discriminate|]. split; [reflexivity|].
        split; [reflexivity|].
        exists 1%nat. split; [lia|]. split; [reflexivity|]. discriminate.
      * rewrite (awaitManipulate_ok _ _ _ _ _ Hm), !bind_Normal.
        destruct (nonEmpty (base64_of r)) eqn:Hne.
        -- destruct (base64_of r) as [b64|] eqn:Hb; [|discriminate].
           pose proof (variantOf_some u [] opts r b64 Hb Hne) as Hv.
           destruct (calcBytes b64 <=? maxBytes)%N eqn:Hfit.
           ++ (* within the limit: break *)
              cbn [events later completion_of app ret].
              split; [reflexivity|]. split; [discriminate|]. split; [reflexivity|].
              split; [discriminate|].
              exists 1%nat. split; [lia|]. split; [reflexivity|].
              intros q' m' H. injection H as <- <-.
              split; [reflexivity|].
              unfold variants. cbn [flat_map]. rewrite Hv. cbn [app].
              split; [reflexivity|].
              left. exists b64. split; [reflexivity|].
              split; [apply N.leb_le; exact Hfit|discriminate].
           ++ (* still too large: next turn *)
              destruct (IH (q - 0.15)%float Hq fuel (Some b64))
                as (Heq & Hend & Hlater & Hthrown & k & Hk & Hqs & Hpost); [lia|].
              rewrite Heq.
              set (rest := compressLoop n env u (q - 0.15)%float (Some b64)) in *.
              cbn [events later completion_of app].
              split; [reflexivity|]. split; [exact Hend|]. split; [exact Hlater|].
              split; [intros e He; simpl; exact (Hthrown e He)|].
              exists (S k). split; [lia|]. split.
              { unfold qualitiesUsed in *. simpl. rewrite Hqs. reflexivity. }
              intros q' m' H.
              destruct (Hpost q' m' H) as (Hnf & Hlatest & Hwhy).
              split; [simpl; exact Hnf|].
              unfold variants. cbn [flat_map]. rewrite Hv. cbn [app].
              change (flat_map variantOf (events rest)) with (variants (events rest)).
              split; [rewrite latest_cons; exact Hlatest|].
              destruct Hwhy as [(b & Hb' & Hle & Hvs)|[(Hfloor & Hq' & Hlen & Hall)|Hnothing]].
              ** left. exists b. split; [exact Hb'|]. split; [exact Hle|discriminate].
              ** right. left. split; [exact Hfloor|]. split; [exact Hq'|].
                 split; [simpl; rewrite Hlen; reflexivity|].
                 constructor; [apply N.leb_gt; exact Hfit|exact Hall].
              ** right. right. simpl. rewrite Hnothing. apply orb_true_r.
        -- (* no text came back: break *)
           pose proof (variantOf_none u [] opts r Hne) as Hv.
           cbn [events later completion_of app ret].
           split; [reflexivity|]. split; [discriminate|]. split; [reflexivity|].
           split; [discriminate|].
           exists 1%nat. split; [lia|]. split; [reflexivity|].
           intros q' m' H. injection H as <- <-.
           split; [reflexivity|].
           unfold variants. cbn [flat_map]. rewrite Hv. cbn [app].
           split; [reflexivity|].
           right. right. simpl. rewrite Hne. reflexivity.
    + rewrite !compressLoop_exit by exact G.
      split; [reflexivity|]. split; [discriminate|]. split; [reflexivity|].
      split; [discriminate|].
      exists 0%nat. split; [lia|]. split; [reflexivity|].
      intros q' m' H. injection H as <- <-.
      split; [reflexivity|]. split; [reflexivity|].
      right. left. simpl. auto.
Qed.

Lemma nonIncreasing_tail a l : nonIncreasing (a :: l) = true -> nonIncreasing l = true.
Proof.
  destruct l as [|b l]; [reflexivity|].
  rewrite nonIncreasing_cons. intros H. apply andb_true_iff in H. tauto.
Qed.

(** With an encoder that returns no more one turn further down, the sizes
    of the variants never rise, and start at or under any bound on what the
    encoder returns at the first quality. *)
Lemma compressLoop_sizes n :
  forall q, floorWithin' n q = true ->
  (forall k, (S k < n)%nat -> noLongerBelow env u (lowered 0.15 k q)) ->
  forall m bound,
    (forall r b,
        manipulateAsync env u [] {| compress := q; want_base64 := true |} = inr r ->
        base64_of r = Some b -> (calcBytes b <= bound)%N) ->
    nonIncreasing
      (bound :: map calcBytes (variants (events (compressLoop n env u q m)))) = true.
Proof.
  induction n as [|n IH]; intros q Hq Hmono m bound Hbound.
  - simpl. destruct (0.1 <=? q)%float; reflexivity.
  - destruct (0.1 <=? q)%float eqn:G.
    + rewrite compressLoop_step by exact G.
      simpl in Hq. rewrite G in Hq.
      apply andb_true_iff in Hq. destruct Hq as [Hdown Hq].
      set (opts := {| compress := q; want_base64 := true |}) in *.
      destruct (manipulateAsync env u [] opts) as [e|r] eqn:Hm.
      * rewrite (awaitManipulate_err _ _ _ _ _ Hm), !bind_Thrown. reflexivity.
      * rewrite (awaitManipulate_ok _ _ _ _ _ Hm), !bind_Normal.
        destruct (nonEmpty (base64_of r)) eqn:Hne.
        -- destruct (base64_of r) as [b64|] eqn:Hb; [|discriminate].
           pose proof (variantOf_some u [] opts r b64 Hb Hne) as Hv.
           destruct (calcBytes b64 <=? maxBytes)%N eqn:Hfit.
           ++ cbn [events app ret]. unfold variants. cbn [flat_map].
              rewrite Hv. cbn [app map]. rewrite nonIncreasing_cons.
              rewrite andb_true_r. apply N.leb_le. exact (Hbound r b64 eq_refl Hb).
           ++ cbn [events app]. unfold variants. cbn [flat_map].
              rewrite Hv. cbn [app map].
              change (flat_map variantOf ?l) with (variants l).
              rewrite nonIncreasing_cons.
              apply andb_true_iff. split.
              { apply N.leb_le. exact (Hbound r b64 eq_refl Hb). }
              destruct n as [|n'].
              { simpl. destruct (0.1 <=? q - 0.15)%float; reflexivity. }
              apply IH; [exact Hq| |].
              { intros k Hk. apply (Hmono (S k)). lia. }
              intros r' b' Hm' Hb'.
              exact (Hmono 0%nat ltac:(lia) _ _ _ _ Hm Hm' Hb Hb').
        -- pose proof (variantOf_none u [] opts r Hne) as Hv.
           cbn [events app ret]. unfold variants. cbn [flat_map].
           rewrite Hv. reflexivity.
    + rewrite compressLoop_exit by exact G. reflexivity.
Qed.

Lemma compressLoop_sizes_from_top (Hmono : smallerDownTheLoop env u) m :
  nonIncreasing
    (map calcBytes (variants (events (compressLoop 6 env u 0.9%float m)))) = true.
Proof.
  assert (Hsteps : forall k, (S k < 6)%nat ->
                     noLongerBelow env u (lowered 0.15 k 0.9)).
  { intros k Hk. apply Hmono. lia. }
  destruct (manipulateAsync env u [] {| compress := 0.9; want_base64 := true |})
    as [e|r] eqn:Hm.
  - apply (nonIncreasing_tail 0%N).
    apply (compressLoop_sizes 6 0.9%float eq_refl Hsteps).
    intros r b H. rewrite Hm in H. discriminate.
  - destruct (base64_of r) as [b0|] eqn:Hb.
    + apply (nonIncreasing_tail (calcBytes b0)).
      apply (compressLoop_sizes 6 0.9%float eq_refl Hsteps).
      intros r' b' H Hb'. rewrite Hm in H. injection H as <-.
      rewrite Hb in Hb'. injection Hb' as <-. apply N.le_refl.
    + apply (nonIncreasing_tail 0%N).
      apply (compressLoop_sizes 6 0.9%float eq_refl Hsteps).
      intros r' b' H Hb'. rewrite Hm in H. injection H as <-.
      rewrite Hb in Hb'. discriminate.
Qed.

Lemma variants_nonEmpty l :
  Forall (fun b => nonEmpty (Some b) = true) (variants l).
Proof.
  induction l as [|e l IH]; [constructor|].
  unfold variants. cbn [flat_map]. apply Forall_app. split; [|exact IH].
  destruct e; try constructor.
  destruct settled as [|r]; [constructor|]. simpl.
  destruct (base64_of r) as [[|c s]|]; repeat constructor.
Qed.

Lemma latest_nonEmpty vs v :
  Forall (fun b => nonEmpty (Some b) = true) vs ->
  latest vs None = Some v -> nonEmpty (Some v) = true.
Proof.
  intros Hall H. destruct vs as [|b vs]; [discriminate|].
  injection H as <-.
  assert (Hin : In (last (b :: vs) []) (b :: vs)).
  { destruct (exists_last (l := b :: vs)) as (l' & a & E); [discriminate|].
    rewrite E, last_last. apply in_or_app. right. left. reflexivity. }
  rewrite Forall_forall in Hall. exact (Hall _ Hin).
Qed.

Lemma latest_default vs v d : latest vs None = Some v -> latest vs d = Some v.
Proof. destruct vs; [discriminate|exact (fun H => H)]. Qed.

Lemma descending_length step k q : List.length (descending step k q) = k.
Proof. revert q. induction k as [|k IH]; intros q; simpl; [|rewrite IH]; reflexivity. Qed.

(** Counting down from 0.9 by 0.15, the guard [quality >= 0.1] first fails
    after the sixth subtraction. *)
Lemma floor_after_six' k :
  (k <= 6)%nat -> (0.1 <=? lowered 0.15 k 0.9)%float = false -> k = 6%nat.
Proof.
  intros Hk H.
  do 6 (destruct k as [|k]; [discriminate H|]).
  destruct k; [reflexivity|lia].
Qed.

(** What the observations see of the events of the inner [try] block. *)
Lemma around_loop_qualities r ev lvl label :
  qualitiesUsed (ImportManipulator r :: ev ++ [Console lvl label]) = qualitiesUsed ev.
Proof.
  unfold qualitiesUsed. cbn [flat_map qualityOf app].
  rewrite flat_map_app. cbn. apply app_nil_r.
Qed.

Lemma around_loop_variants r ev lvl label :
  variants (ImportManipulator r :: ev ++ [Console lvl label]) = variants ev.
Proof.
  unfold variants. cbn [flat_map variantOf app].
  rewrite flat_map_app. cbn. apply app_nil_r.
Qed.

Lemma around_loop_failed ev lvl label :
  existsb isFailedEncoding (ImportManipulator None :: ev ++ [Console lvl label])
  = existsb isFailedEncoding ev.
Proof. cbn [existsb isFailedEncoding orb]. rewrite existsb_app. cbn. apply orb_false_r. Qed.

Lemma around_loop_nothing ev lvl label :
  existsb returnedNothing (ImportManipulator None :: ev ++ [Console lvl label])
  = existsb returnedNothing ev.
Proof. cbn [existsb returnedNothing orb]. rewrite existsb_app. cbn. apply orb_false_r. Qed.

(** The form the second revision posts, for any fuel of six or more: it is
    always produced, whatever the encoder does. *)
Lemma choosePayload_run fuel base64 :
  (6 <= fuel)%nat ->
  exists ev sent,
    choosePayload fuel env u base64 = mkM ev [] (Normal (formOf sent))
    /\ chosen base64 ev sent
    /\ (exists k, (k <= 6)%nat /\ qualitiesUsed ev = descending 0.15 k 0.9)
    /\ (smallerDownTheLoop env u ->
        nonIncreasing (map calcBytes (variants ev)) = true).
Proof.
  intros Hfuel. unfold choosePayload.
  destruct (maxBytes <? calcBytes base64)%N eqn:Hbig.
  2:{ apply N.ltb_ge in Hbig.
      exists [], base64. split; [reflexivity|]. split; [|split].
      - apply chosen_untouched; auto.
      - exists 0%nat. split; [lia|reflexivity].
      - reflexivity. }
  apply N.ltb_lt in Hbig.
  destruct (importImageManipulator env) as [e|] eqn:Himp.
  { eexists _, base64. split; [reflexivity|]. split; [|split].
    - apply chosen_threw; auto.
    - exists 0%nat. split; [lia|reflexivity].
    - reflexivity. }
  destruct (compressLoop_run 6 0.9%float eq_refl fuel None Hfuel)
    as (Heq & Hend & Hlater & Hthrown & k & Hk & Hqs & Hpost).
  rewrite Heq.
  set (loop := compressLoop 6 env u 0.9%float None) in *.
  assert (Hsizes : forall lvl label,
             smallerDownTheLoop env u ->
             nonIncreasing
               (map calcBytes
                  (variants (ImportManipulator None :: events loop
                             ++ [Console lvl label]))) = true).
  { intros lvl label Hmono. rewrite around_loop_variants.
    exact (compressLoop_sizes_from_top Hmono None). }
  destruct (completion_of loop) as [[q' m']| e |] eqn:Hc; [| |congruence].
  - (* the loop ended normally *)
    destruct (Hpost q' m' eq_refl) as (Hnf & Hlatest & Hwhy).
    rewrite (M_eta loop), Hc, Hlater.
    destruct m' as [[|c s]|].
    + (* an empty text is never kept *)
      symmetry in Hlatest.
      pose proof (latest_nonEmpty _ _ (variants_nonEmpty (events loop)) Hlatest).
      discriminate.
    + set (sent := c :: s) in *.
      exists (ImportManipulator None :: events loop
              ++ [Console LogLevel (js "Compressed image to bytes:")]), sent.
      split; [cbn; rewrite ?app_nil_r; reflexivity|].
      rewrite around_loop_qualities.
      split; [|split; [exists k; auto|apply Hsizes]].
      destruct Hwhy as [(b & Hb & Hle & _)|[(Hfloor & Hq' & Hlen & Hall)|Hnothing]].
      * injection Hb as <-.
        apply chosen_fits; rewrite ?around_loop_variants, ?around_loop_failed; auto.
      * subst q'. pose proof (floor_after_six' k Hk Hfloor) as ->.
        apply chosen_at_floor;
          unfold encodings;
          rewrite ?around_loop_qualities, ?around_loop_variants, ?around_loop_failed;
          auto.
        rewrite Hqs. apply descending_length.
      * apply chosen_no_text;
          rewrite ?around_loop_variants, ?around_loop_failed, ?around_loop_nothing;
          auto.
        apply latest_default. auto.
    + exists (ImportManipulator None :: events loop
              ++ [Console WarnLevel
                    (js "Could not compress image via ImageManipulator; sending original (may be large).")]),
             base64.
      split; [cbn; rewrite ?app_nil_r; reflexivity|].
      rewrite around_loop_qualities.
      split; [|split; [exists k; auto|apply Hsizes]].
      assert (Hvs : variants (events loop) = []).
      { destruct (variants (events loop)); [reflexivity|discriminate]. }
      destruct Hwhy as [(b & Hb & _)|[(Hfloor & Hq' & Hlen & Hall)|Hnothing]].
      * discriminate.
      * subst q'. pose proof (floor_after_six' k Hk Hfloor) as ->.
        rewrite Hvs in Hlen. discriminate.
      * apply chosen_no_text;
          rewrite ?around_loop_variants, ?around_loop_failed, ?around_loop_nothing;
          auto.
        rewrite Hvs. reflexivity.
  - (* the loop threw: the inner catch keeps the original *)
    rewrite (M_eta loop), Hc, Hlater.
    exists (ImportManipulator None :: events loop
            ++ [Console WarnLevel
                  (js "Image compression step failed, continuing with original image:")]),
           base64.
    split; [cbn; rewrite ?app_nil_r; reflexivity|].
    rewrite around_loop_qualities.
    split; [|split; [exists k; auto|apply Hsizes]].
    apply chosen_threw; auto.
    right. rewrite around_loop_failed. exact (Hthrown e eq_refl).
Qed.

End CompressLoop.

(** ** The stages both revisions share *)

Section Stages.
Variable env : Env.

(** [analyzeWithAI] always ends normally, with the flag cleared last. *)
Lemma analyzeWithAI_shape text :
  analyzeWithAI env text =
  mkM ([SetLoading true; FetchSent (PostAnalyze text);
        FetchSettled (fetch env (PostAnalyze text))]
       ++ explainedEvents (explanation env text) ++ [SetLoading false])
      [] (Normal tt).
Proof.
  unfold analyzeWithAI, explanation.
  destruct (fetch env (PostAnalyze text)) as [e|resp] eqn:Hf.
  - rewrite (awaitFetch_err _ _ _ Hf). reflexivity.
  - rewrite (awaitFetch_ok _ _ _ Hf).
    destruct (json_body resp) as [e|data] eqn:Hj.
    + cbn. rewrite Hj. reflexivity.
    + cbn. rewrite Hj. cbn. destruct (resultOrFallback data); reflexivity.
Qed.

(** Not awaited, it sets the flag and issues its request inside the caller;
    everything else comes after the caller is through. *)
Lemma detached_analyzeWithAI text :
  detached (analyzeWithAI env text) =
  mkM [SetLoading true; FetchSent (PostAnalyze text)]
      (FetchSettled (fetch env (PostAnalyze text))
       :: explainedEvents (explanation env text) ++ [SetLoading false])
      (Normal tt).
Proof. rewrite analyzeWithAI_shape. cbn. rewrite app_nil_r. reflexivity. Qed.

Lemma readAnswer_throws data e :
  parsedText data = inl e ->
  readAnswer env data =
  mkM [Console LogLevel (js "OCR Response:")] [] (Thrown e).
Proof. intros H. unfold readAnswer. rewrite H. reflexivity. Qed.

Lemma readAnswer_no_text data :
  parsedText data = inr [] ->
  readAnswer env data =
  mkM [Console LogLevel (js "OCR Response:"); SetExtractedText [];
       Console LogLevel (js "Extracted Text:"); noTextAlert]
      [] (Normal tt).
Proof. intros H. unfold readAnswer. rewrite H. reflexivity. Qed.

Lemma readAnswer_text data c s :
  parsedText data = inr (c :: s) ->
  readAnswer env data =
  mkM [Console LogLevel (js "OCR Response:"); SetExtractedText (c :: s);
       Console LogLevel (js "Extracted Text:");
       SetLoading true; FetchSent (PostAnalyze (c :: s))]
      (FetchSettled (fetch env (PostAnalyze (c :: s)))
       :: explainedEvents (explanation env (c :: s)) ++ [SetLoading false])
      (Normal tt).
Proof.
  intros H. unfold readAnswer. rewrite H. unfold emit, settle, ret.
  rewrite !bind_Normal. cbn [truthy]. rewrite detached_analyzeWithAI.
  reflexivity.
Qed.

Lemma submit_rejected payload e :
  fetch env (PostOcr payload) = inl e ->
  submit env payload =
  mkM [FetchSent (PostOcr payload); FetchSettled (inl e)] [] (Thrown e).
Proof. intros H. unfold submit. rewrite (awaitFetch_err _ _ _ H). reflexivity. Qed.

Lemma submit_malformed payload resp e :
  fetch env (PostOcr payload) = inr resp ->
  json_body resp = inl e ->
  submit env payload =
  mkM [FetchSent (PostOcr payload); FetchSettled (inr resp)] [] (Thrown e).
Proof.
  intros H Hj. unfold submit. rewrite (awaitFetch_ok _ _ _ H).
  rewrite bind_Normal, Hj. reflexivity.
Qed.

Lemma submit_parsed payload resp data :
  fetch env (PostOcr payload) = inr resp ->
  json_body resp = inr data ->
  submit env payload =
  mkM ([FetchSent (PostOcr payload); FetchSettled (inr resp)]
       ++ events (readAnswer env data))
      (later (readAnswer env data))
      (completion_of (readAnswer env data)).
Proof.
  intros H Hj. unfold submit. rewrite (awaitFetch_ok _ _ _ H).
  rewrite bind_Normal, Hj. reflexivity.
Qed.

(** The OCR stage by what it yields. *)
Lemma submit_fails payload e :
  ocrResult env payload = inl e ->
  exists ev,
    submit env payload =
    mkM (FetchSent (PostOcr payload)
         :: FetchSettled (fetch env (PostOcr payload)) :: ev) [] (Thrown e)
    /\ existsb isRequest ev = false
    /\ existsb isErrorAlert ev = false.
Proof.
  unfold ocrResult. intros H.
  destruct (fetch env (PostOcr payload)) as [e'|resp] eqn:Hf.
  - injection H as <-. exists []. rewrite (submit_rejected _ _ Hf). auto.
  - destruct (json_body resp) as [e'|data] eqn:Hj.
    + injection H as <-. exists []. rewrite (submit_malformed _ _ _ Hf Hj). auto.
    + exists [Console LogLevel (js "OCR Response:")].
      rewrite (submit_parsed _ _ _ Hf Hj), (readAnswer_throws _ _ H). auto.
Qed.

Lemma submit_no_text payload :
  ocrResult env payload = inr [] ->
  submit env payload =
  mkM [FetchSent (PostOcr payload); FetchSettled (fetch env (PostOcr payload));
       Console LogLevel (js "OCR Response:"); SetExtractedText [];
       Console LogLevel (js "Extracted Text:"); noTextAlert]
      [] (Normal tt).
Proof.
  unfold ocrResult. intros H.
  destruct (fetch env (PostOcr payload)) as [e'|resp] eqn:Hf; [discriminate|].
  destruct (json_body resp) as [e'|data] eqn:Hj; [discriminate|].
  rewrite (submit_parsed _ _ _ Hf Hj), (readAnswer_no_text _ H). reflexivity.
Qed.

Lemma submit_text payload c s :
  ocrResult env payload = inr (c :: s) ->
  submit env payload =
  mkM [FetchSent (PostOcr payload); FetchSettled (fetch env (PostOcr payload));
       Console LogLevel (js "OCR Response:"); SetExtractedText (c :: s);
       Console LogLevel (js "Extracted Text:");
       SetLoading true; FetchSent (PostAnalyze (c :: s))]
      (FetchSettled (fetch env (PostAnalyze (c :: s)))
       :: explainedEvents (explanation env (c :: s)) ++ [SetLoading false])
      (Normal tt).
Proof.
  unfold ocrResult. intros H.
  destruct (fetch env (PostOcr payload)) as [e'|resp] eqn:Hf; [discriminate|].
  destruct (json_body resp) as [e'|data] eqn:Hj; [discriminate|].
  rewrite (submit_parsed _ _ _ Hf Hj), (readAnswer_text _ _ _ H). reflexivity.
Qed.

(** The frame around a [try] block that ends normally, or by a throw. *)
Lemma extractTextWith_thrown prepare e :
  completion_of prepare = Thrown e ->
  extractTextWith prepare env =
  mkM (resets ++ events prepare ++ failureEvents e ++ [SetLoading false])
      (later prepare) (Normal tt).
Proof.
  intros H. unfold extractTextWith.
  rewrite (M_eta prepare), H. cbn. rewrite ?app_nil_r, <- ?app_assoc.
  reflexivity.
Qed.

Lemma extractTextWith_submit_thrown prepare payload ev e :
  completion_of prepare = Normal payload ->
  later prepare = [] ->
  submit env payload = mkM ev [] (Thrown e) ->
  extractTextWith prepare env =
  mkM (resets ++ events prepare ++ ev ++ failureEvents e ++ [SetLoading false])
      [] (Normal tt).
Proof.
  intros H Hl Hs. unfold extractTextWith.
  rewrite (M_eta prepare), H, Hl. cbn. rewrite Hs. cbn.
  rewrite ?app_nil_r, <- ?app_assoc. reflexivity.
Qed.

Lemma extractTextWith_submit_normal prepare payload ev lt :
  completion_of prepare = Normal payload ->
  later prepare = [] ->
  submit env payload = mkM ev lt (Normal tt) ->
  extractTextWith prepare env =
  mkM (resets ++ events prepare ++ ev ++ [SetLoading false]) lt (Normal tt).
Proof.
  intros H Hl Hs. unfold extractTextWith.
  rewrite (M_eta prepare), H, Hl. cbn. rewrite Hs. cbn.
  rewrite ?app_nil_r, <- ?app_assoc. reflexivity.
Qed.

End Stages.

(** ** The steps that prepare the form *)

Section Prepare.
Variable env : Env.

Lemma prepare1_run fuel u :
  (6 <= fuel)%nat ->
  ResizeOnce.prepare fuel env u = ResizeOnce.prepare 6 env u
  /\ completion_of (ResizeOnce.prepare 6 env u) <> OutOfFuel
  /\ later (ResizeOnce.prepare 6 env u) = []
  /\ forallb isLocal (events (ResizeOnce.prepare 6 env u)) = true
  /\ forall payload,
       completion_of (ResizeOnce.prepare 6 env u) = Normal payload ->
       existsb isFailedEncoding (events (ResizeOnce.prepare 6 env u)) = false.
Proof.
  intros _. rewrite !prepare1_shape. cbn [events later completion_of].
  repeat split; discriminate.
Qed.

Lemma compressLoop_local u fuel :
  forall q m,
    forallb isLocal (events (FromOriginal.compressLoop fuel env u q m)) = true.
Proof.
  induction fuel as [|fuel IH]; intros q m.
  - simpl. destruct (0.1 <=? q)%float; reflexivity.
  - destruct (0.1 <=? q)%float eqn:G.
    + rewrite compressLoop_step by exact G.
      destruct (manipulateAsync env u [] {| compress := q; want_base64 := true |})
        as [e|r] eqn:Hm.
      * rewrite (awaitManipulate_err _ _ _ _ _ Hm), bind_Thrown. reflexivity.
      * rewrite (awaitManipulate_ok _ _ _ _ _ Hm), bind_Normal.
        destruct (FromOriginal.nonEmpty (base64_of r)); [|reflexivity].
        destruct (base64_of r) as [b64|]; [|reflexivity].
        destruct (FromOriginal.calcBytes b64 <=? FromOriginal.maxBytes)%N;
          [reflexivity|]. cbn. apply IH.
    + rewrite compressLoop_exit by exact G. reflexivity.
Qed.

Lemma choosePayload_local u fuel base64 :
  forallb isLocal (events (FromOriginal.choosePayload fuel env u base64)) = true.
Proof.
  unfold FromOriginal.choosePayload.
  destruct (_ <? _)%N; [|reflexivity].
  destruct (importImageManipulator env) as [e|]; [reflexivity|].
  pose proof (compressLoop_local u fuel 0.9%float None) as Hlocal.
  destruct (FromOriginal.compressLoop fuel env u 0.9%float None)
    as [ev lt [[q' m']|e|]]; cbn in Hlocal |- *.
  - destruct m' as [[|c s]|]; cbn; rewrite forallb_app, Hlocal; reflexivity.
  - rewrite forallb_app, Hlocal. reflexivity.
  - exact Hlocal.
Qed.

(** The second revision's preparation: it fails only if the original cannot
    be read; otherwise a form is always produced. *)
Lemma prepare2_unreadable fuel u e :
  readAsStringAsync env u = inl e ->
  FromOriginal.prepare fuel env u = mkM [ReadAsString u (inl e)] [] (Thrown e).
Proof.
  intros H. unfold FromOriginal.prepare. rewrite (awaitRead_err _ _ _ H).
  reflexivity.
Qed.

Lemma prepare2_read fuel u base64 :
  (6 <= fuel)%nat ->
  readAsStringAsync env u = inr base64 ->
  exists ev sent,
    FromOriginal.prepare fuel env u =
      mkM (ReadAsString u (inr base64) :: ev) [] (Normal (formOf sent))
    /\ FromOriginal.choosePayload fuel env u base64 = mkM ev [] (Normal (formOf sent))
    /\ chosen base64 ev sent
    /\ exists k, (k <= 6)%nat /\ qualitiesUsed ev = descending 0.15 k 0.9.
Proof.
  intros Hfuel H.
  destruct (choosePayload_run env u fuel base64 Hfuel) as (ev & sent & Heq & Hch & Hk & _).
  exists ev, sent. split; [|auto].
  unfold FromOriginal.prepare. rewrite (awaitRead_ok _ _ _ H), bind_Normal, Heq.
  reflexivity.
Qed.

Lemma prepare2_run fuel u :
  (6 <= fuel)%nat ->
  FromOriginal.prepare fuel env u = FromOriginal.prepare 6 env u
  /\ completion_of (FromOriginal.prepare 6 env u) <> OutOfFuel
  /\ later (FromOriginal.prepare 6 env u) = []
  /\ forallb isLocal (events (FromOriginal.prepare 6 env u)) = true.
Proof.
  intros Hfuel.
  destruct (readAsStringAsync env u) as [e|base64] eqn:Hr.
  - rewrite !(prepare2_unreadable _ _ _ Hr).
    split; [reflexivity|]. split; [discriminate|]. auto.
  - destruct (prepare2_read fuel u base64 Hfuel Hr) as (ev & sent & Heq & Hc & _).
    destruct (prepare2_read 6 u base64 (le_n 6) Hr) as (ev6 & sent6 & Heq6 & Hc6 & _).
    assert (E : FromOriginal.choosePayload fuel env u base64
                = FromOriginal.choosePayload 6 env u base64).
    { unfold FromOriginal.choosePayload.
      destruct (_ <? _)%N; [|reflexivity].
      destruct (importImageManipulator env); [reflexivity|].
      destruct (compressLoop_run env u 6 0.9%float eq_refl fuel None Hfuel) as (-> & _).
      reflexivity. }
    assert (E' : FromOriginal.prepare fuel env u = FromOriginal.prepare 6 env u).
    { rewrite Heq, Heq6. rewrite E, Hc6 in Hc. congruence. }
    rewrite E'. split; [reflexivity|]. rewrite Heq6.
    split; [discriminate|]. split; [reflexivity|].
    pose proof (choosePayload_local u 6 base64) as Hl. rewrite Hc6 in Hl.
    exact Hl.
Qed.

End Prepare.

(** ** A run as a whole *)

Section Runs.
Variable env : Env.

(** The OCR stage and the frame, from a preparation that ended. *)
Lemma timeline_extractTextWith prepare :
  completion_of prepare <> OutOfFuel ->
  later prepare = [] ->
  timeline (extractTextWith prepare env)
  = runEvents env (events prepare) (completion_of prepare)
  /\ completion_of (extractTextWith prepare env) = Normal tt.
Proof.
  intros Hend Hlater. unfold runEvents, timeline.
  destruct (completion_of prepare) as [payload|e|] eqn:Hc; [| |congruence].
  - unfold answerEvents.
    destruct (fetch env (PostOcr payload)) as [e|resp] eqn:Hf.
    { rewrite (extractTextWith_submit_thrown env prepare payload _ e Hc Hlater
                 (submit_rejected env payload e Hf)).
      cbn [events later completion_of]. split; [|reflexivity].
      rewrite ?app_nil_r, <- ?app_assoc. reflexivity. }
    destruct (json_body resp) as [e|data] eqn:Hj.
    { rewrite (extractTextWith_submit_thrown env prepare payload _ e Hc Hlater
                 (submit_malformed env payload resp e Hf Hj)).
      cbn [events later completion_of]. split; [|reflexivity].
      rewrite ?app_nil_r, <- ?app_assoc. reflexivity. }
    pose proof (submit_parsed env payload resp data Hf Hj) as Hs.
    destruct (parsedText data) as [e|[|c s]] eqn:Hp.
    + rewrite (readAnswer_throws env data e Hp) in Hs.
      rewrite (extractTextWith_submit_thrown env prepare payload _ e Hc Hlater Hs).
      cbn [events later completion_of]. split; [|reflexivity].
      rewrite ?app_nil_r, <- ?app_assoc. reflexivity.
    + rewrite (readAnswer_no_text env data Hp) in Hs.
      rewrite (extractTextWith_submit_normal env prepare payload _ _ Hc Hlater Hs).
      cbn [events later completion_of]. split; [|reflexivity].
      rewrite ?app_nil_r, <- ?app_assoc. reflexivity.
    + rewrite (readAnswer_text env data c s Hp) in Hs.
      rewrite (extractTextWith_submit_normal env prepare payload _ _ Hc Hlater Hs).
      cbn [events later completion_of]. split; [|reflexivity].
      rewrite ?app_nil_r, <- ?app_assoc. reflexivity.
  - rewrite (extractTextWith_thrown env prepare e Hc), Hlater.
    cbn [events later completion_of]. split; [|reflexivity].
    rewrite ?app_nil_r, <- ?app_assoc. reflexivity.
Qed.

End Runs.

(** ** Reading runs: flag, requests, alerts *)

Lemma loadingAfter_app b l1 l2 :
  loadingAfter b (l1 ++ l2) = loadingAfter (loadingAfter b l1) l2.
Proof.
  revert b. induction l1 as [|e l1 IH]; intros b; [reflexivity|].
  destruct e; simpl; apply IH.
Qed.

Lemma local_loading l b : forallb isLocal l = true -> loadingAfter b l = b.
Proof.
  induction l as [|e l IH]; [reflexivity|].
  simpl. intros H. apply andb_true_iff in H. destruct H as [He Hl].
  destruct e; try discriminate; simpl; exact (IH Hl).
Qed.

Lemma local_none (f : event -> bool) l :
  (forall e, isLocal e = true -> f e = false) ->
  forallb isLocal l = true -> existsb f l = false.
Proof.
  intros Hf. induction l as [|e l IH]; [reflexivity|].
  simpl. intros H. apply andb_true_iff in H. destruct H as [He Hl].
  rewrite (Hf e He), (IH Hl). reflexivity.
Qed.

Lemma local_no_request l : forallb isLocal l = true -> existsb isRequest l = false.
Proof. apply local_none. intros []; simpl; congruence. Qed.

Lemma local_no_ocr_request l :
  forallb isLocal l = true -> existsb isOcrRequest l = false.
Proof. apply local_none. intros []; simpl; congruence. Qed.

Lemma local_no_analyze_request l :
  forallb isLocal l = true -> existsb isAnalyzeRequest l = false.
Proof. apply local_none. intros []; simpl; congruence. Qed.

Lemma local_no_error_alert l :
  forallb isLocal l = true -> existsb isErrorAlert l = false.
Proof. apply local_none. intros []; simpl; congruence. Qed.

(** However the part of a run after the preparation goes, it leaves the
    flag cleared. *)
Lemma answerEvents_clear env payload b :
  loadingAfter b (answerEvents env payload) = false.
Proof.
  unfold answerEvents.
  destruct (fetch env (PostOcr payload)) as [e|resp]; [reflexivity|].
  destruct (json_body resp) as [e|data]; [reflexivity|].
  destruct (parsedText data) as [e|[|c s]]; [reflexivity|reflexivity|].
  cbn [loadingAfter app]. rewrite loadingAfter_app.
  destruct (explanation env (c :: s)); reflexivity.
Qed.

Lemma runEvents_clear env prepared c :
  c <> OutOfFuel -> busy (runEvents env prepared c) = false.
Proof.
  intros Hc. unfold busy, runEvents. rewrite !loadingAfter_app.
  destruct c as [payload|e|]; [apply answerEvents_clear|reflexivity|congruence].
Qed.

Lemma runEvents_nonempty env prepared c : runEvents env prepared c <> [].
Proof. discriminate. Qed.

(** With the flag cleared at the end of a timeline, the flag is set only in
    one of the three working states. *)
Lemma busy_only_while_working tl n :
  busy tl = false ->
  busy (firstn n tl) = true ->
  stateAt tl n = Reducing \/ stateAt tl n = ExtractingText
  \/ stateAt tl n = Explaining.
Proof.
  intros Hclear Hbusy. unfold stateAt.
  destruct n as [|n]; [discriminate|].
  destruct (Nat.leb (List.length tl) (S n)) eqn:Hn.
  - apply Nat.leb_le in Hn. rewrite firstn_all2 in Hbusy by exact Hn. congruence.
  - destruct (existsb isAnalyzeRequest _); [auto|].
    destruct (existsb isOcrRequest _); auto.
Qed.

Lemma finalState_cases tl :
  tl <> [] ->
  finalState tl = (if existsb isErrorAlert tl then Failed else Done).
Proof.
  intros H. unfold finalState, stateAt.
  destruct tl as [|e tl]; [congruence|].
  cbn [List.length]. rewrite Nat.leb_refl. reflexivity.
Qed.

(** ** Trimming *)

Lemma trimStart_spec s :
  exists pre,
    s = pre ++ trimStart s
    /\ forallb is_white_space pre = true
    /\ forall c rest, trimStart s = c :: rest -> is_white_space c = false.
Proof.
  induction s as [|c s (pre & Heq & Hpre & Hhead)].
  - exists []. repeat split. discriminate.
  - simpl. destruct (is_white_space c) eqn:Hc.
    + exists (c :: pre). simpl. rewrite Hc, Hpre. split; [congruence|].
      split; [reflexivity|exact Hhead].
    + exists []. split; [reflexivity|]. split; [reflexivity|].
      intros c' rest H. injection H as <- _. exact Hc.
Qed.

Lemma forallb_rev {A} (f : A -> bool) l :
  forallb f l = true -> forallb f (rev l) = true.
Proof.
  rewrite !forallb_forall. intros H x Hx. apply H. apply in_rev. exact Hx.
Qed.

(** [trim] removes a run of white space from each end, and nothing else;
    what is left neither starts nor ends with white space. *)
Lemma trim_spec s :
  exists pre post,
    s = pre ++ trim s ++ post
    /\ forallb is_white_space pre = true
    /\ forallb is_white_space post = true
    /\ (forall c rest, trim s = c :: rest -> is_white_space c = false)
    /\ (forall init c, trim s = init ++ [c] -> is_white_space c = false).
Proof.
  unfold trim, trimEnd.
  destruct (trimStart_spec s) as (pre & Hs & Hpre & Hhead).
  destruct (trimStart_spec (rev (trimStart s))) as (erp & Hr & Herp & Hlast).
  set (t := trimStart s) in *.
  set (r := trimStart (rev t)) in *.
  assert (Ht : t = rev r ++ rev erp).
  { rewrite <- rev_app_distr, <- Hr. symmetry. apply rev_involutive. }
  exists pre, (rev erp). split; [rewrite <- Ht; exact Hs|].
  split; [exact Hpre|]. split; [apply forallb_rev; exact Herp|]. split.
  - intros c rest H. rewrite H in Ht. simpl in Ht. exact (Hhead c _ Ht).
  - intros init c H.
    assert (Hr' : r = c :: rev init).
    { rewrite <- (rev_involutive r), H, rev_app_distr. reflexivity. }
    exact (Hlast c _ Hr').
Qed.

Lemma trim_empty_iff s : trim s = [] <-> forallb is_white_space s = true.
Proof.
  destruct (trim_spec s) as (pre & post & Hs & Hpre & Hpost & Hhead & _).
  split.
  - intros H. rewrite H in Hs. rewrite Hs. simpl.
    rewrite forallb_app, Hpre, Hpost. reflexivity.
  - intros H. destruct (trim s) as [|c rest] eqn:Ht; [reflexivity|].
    pose proof (Hhead c rest eq_refl) as Hc.
    rewrite Hs, !forallb_app in H. simpl in H. rewrite Hc in H.
    rewrite andb_false_r in H. discriminate.
Qed.

(* ================================================================== *)
(** * The claims *)

(** ** Reading the OCR answer *)

(** The spec's own example: [{ParsedResults:[{ParsedText:" hello world "}]}]
    yields ["hello world"]. *)
Example parsedText_hello : parsedText helloAnswer = inr (js "hello world").
Proof. reflexivity. Qed.

Example parsedText_blank : parsedText blankAnswer = inr [].
Proof. reflexivity. Qed.

(** A [ParsedText] that is not a string makes [.trim()] throw. *)
Example parsedText_number :
  parsedText (JObj [(js "ParsedResults",
                     JArr [JObj [(js "ParsedText", JNum 5)]])])
  = inl TypeError.
Proof. reflexivity. Qed.

(** An answer that is not an object has no [ParsedResults] to offer; the
    text is empty.  An answer that is [null] cannot be read at all. *)
Lemma parsedText_not_an_object data :
  data <> JNull -> (forall members, data <> JObj members) ->
  parsedText data = inr [].
Proof.
  intros Hnull Hobj. destruct data; try reflexivity; [congruence|].
  exfalso. exact (Hobj _ eq_refl).
Qed.

Example parsedText_null : parsedText JNull = inl TypeError.
Proof. reflexivity. Qed.

(** C6. For every parsed OCR answer, the text is [ParsedResults[0].ParsedText]
    with the white space at both ends removed; when [ParsedResults] is
    missing, or is an empty array, or its first element has no [ParsedText],
    or the trimmed text is empty, the text is the empty string, and in none
    of these cases does reading the answer throw. *)
Theorem C6_parsed_text_trimmed_or_empty (members : list (jsstring * json)) :
  (forall first rest s,
      lookup (js "ParsedResults") members = Some (JArr (JObj first :: rest)) ->
      lookup (js "ParsedText") first = Some (JStr s) ->
      parsedText (JObj members) = inr (trim s)
      /\ (forallb is_white_space s = true -> parsedText (JObj members) = inr [])
      /\ exists pre post,
           s = pre ++ trim s ++ post
           /\ forallb is_white_space pre = true
           /\ forallb is_white_space post = true
           /\ (forall c tl, trim s = c :: tl -> is_white_space c = false)
           /\ (forall init c, trim s = init ++ [c] -> is_white_space c = false))
  /\ (lookup (js "ParsedResults") members = None ->
      parsedText (JObj members) = inr [])
  /\ (lookup (js "ParsedResults") members = Some (JArr []) ->
      parsedText (JObj members) = inr [])
  /\ (forall first rest,
        lookup (js "ParsedResults") members = Some (JArr (JObj first :: rest)) ->
        lookup (js "ParsedText") first = None ->
        parsedText (JObj members) = inr []).
Proof.
  unfold parsedText, optional, get. repeat split.
  - rewrite H. cbn [nullish index0 nth_error]. rewrite H0.
    cbn [nullish callTrim]. unfold orEmpty. cbn [truthy].
    destruct (trim s); reflexivity.
  - intros Hws. rewrite H. cbn [nullish index0 nth_error]. rewrite H0.
    cbn [nullish callTrim]. apply trim_empty_iff in Hws. rewrite Hws.
    reflexivity.
  - exact (trim_spec s).
  - intros H. rewrite H. reflexivity.
  - intros H. rewrite H. reflexivity.
  - intros first rest H H0. rewrite H. cbn [nullish index0 nth_error].
    rewrite H0. reflexivity.
Qed.

Lemma C6_witness :
  parsedText helloAnswer = inr (js "hello world")
  /\ parsedText blankAnswer = inr [].
Proof.
  split.
  - exact (proj1 (proj1 (C6_parsed_text_trimmed_or_empty
                           [(js "ParsedResults",
                             JArr [JObj [(js "ParsedText", JStr (js " hello world "))]])])
                        [(js "ParsedText", JStr (js " hello world "))] []
                        (js " hello world ") eq_refl eq_refl)).
  - exact (proj1 (proj2 (proj2 (C6_parsed_text_trimmed_or_empty
                                  [(js "ParsedResults", JArr [])])))
                 eq_refl).
Defined.

(** ** The analysis answer *)

(** C7. When the analysis answer is an object without a [result] member,
    [analyzeWithAI] shows exactly "No result from AI." and ends normally:
    no error is logged and no alert is raised. *)
Theorem C7_absent_result_gives_fallback env text resp members :
  fetch env (PostAnalyze text) = inr resp ->
  json_body resp = inr (JObj members) ->
  lookup (js "result") members = None ->
  analyzeWithAI env text =
  mkM [SetLoading true; FetchSent (PostAnalyze text); FetchSettled (inr resp);
       SetAiResult (JStr (js "No result from AI.")); SetLoading false]
      [] (Normal tt).
Proof.
  intros Hf Hj Hl. rewrite analyzeWithAI_shape. unfold explanation.
  rewrite Hf, Hj. unfold resultOrFallback. cbn [get]. rewrite Hl. reflexivity.
Qed.

Lemma C7_witness :
  analyzeWithAI (envAnalysis (JObj [])) (js "hello world") =
  mkM [SetLoading true; FetchSent (PostAnalyze (js "hello world"));
       FetchSettled (inr (answer 200 (JObj [])));
       SetAiResult (JStr (js "No result from AI.")); SetLoading false]
      [] (Normal tt).
Proof.
  exact (C7_absent_result_gives_fallback (envAnalysis (JObj [])) (js "hello world")
           (answer 200 (JObj [])) [] eq_refl eq_refl eq_refl).
Defined.

(** C10. When the analysis answer has a [result] member that is the empty
    string, [analyzeWithAI] shows "No result from AI." as well: what it does
    is what it does for an answer without the member. *)
Theorem C10_empty_result_gives_fallback env text resp members :
  fetch env (PostAnalyze text) = inr resp ->
  json_body resp = inr (JObj members) ->
  lookup (js "result") members = Some (JStr []) ->
  analyzeWithAI env text =
  mkM [SetLoading true; FetchSent (PostAnalyze text); FetchSettled (inr resp);
       SetAiResult (JStr (js "No result from AI.")); SetLoading false]
      [] (Normal tt)
  /\ forall members',
       lookup (js "result") members' = None ->
       resultOrFallback (JObj members) = resultOrFallback (JObj members').
Proof.
  intros Hf Hj Hl. split.
  - rewrite analyzeWithAI_shape. unfold explanation.
    rewrite Hf, Hj. unfold resultOrFallback. cbn [get]. rewrite Hl. reflexivity.
  - intros members' Hl'. unfold resultOrFallback. cbn [get].
    rewrite Hl, Hl'. reflexivity.
Qed.

Lemma C10_witness :
  analyzeWithAI (envAnalysis (JObj [(js "result", JStr [])])) (js "hello world") =
  mkM [SetLoading true; FetchSent (PostAnalyze (js "hello world"));
       FetchSettled (inr (answer 200 (JObj [(js "result", JStr [])])));
       SetAiResult (JStr (js "No result from AI.")); SetLoading false]
      [] (Normal tt).
Proof.
  exact (proj1 (C10_empty_result_gives_fallback
                  (envAnalysis (JObj [(js "result", JStr [])])) (js "hello world")
                  (answer 200 (JObj [(js "result", JStr [])]))
                  [(js "result", JStr [])] eq_refl eq_refl eq_refl)).
Defined.

(** ** Size reduction *)

(** C9. When the first candidate is at or under the limit, no quality
    reduction takes place and that candidate is what is used.  The second
    revision does so: nothing is encoded and the form carries the original
    text.  The first revision never gets that far: once the picture is
    resized, the measurement reads [FileSystem], which is bound nowhere, and
    throws; whatever its size, the resized file is not returned, the failure
    is alerted, nothing is read and nothing is sent. *)
Theorem C9_candidate_lost_at_the_measurement fuel env u :
  (forall c,
      manipulateAsync env u [Resize 1280]
        {| compress := 0.7; want_base64 := false |} = inr c ->
      ResizeOnce.reduce fuel env u =
      mkM [Manipulate u [Resize 1280]
             {| compress := 0.7; want_base64 := false |} (inr c)]
          [] (Thrown ReferenceError)
      /\ timeline (ResizeOnce.extractText fuel env u) =
         [SetLoading true; SetExtractedText []; SetAiResult (JStr []);
          Manipulate u [Resize 1280]
            {| compress := 0.7; want_base64 := false |} (inr c);
          ConsoleError ReferenceError;
          Alert (js "Error") (js "Failed to extract text.");
          SetLoading false])
  /\ (forall base64,
        (FromOriginal.calcBytes base64 <= FromOriginal.maxBytes)%N ->
        FromOriginal.choosePayload fuel env u base64 =
        mkM [] [] (Normal (formOf base64))).
Proof.
  split.
  - intros c Hm.
    assert (Hr : ResizeOnce.reduce fuel env u =
                 mkM [Manipulate u [Resize 1280]
                        {| compress := 0.7; want_base64 := false |} (inr c)]
                     [] (Thrown ReferenceError)).
    { unfold ResizeOnce.reduce.
      rewrite (awaitManipulate_ok _ _ _ _ _ Hm), bind_Normal.
      rewrite getFileSize_throws. reflexivity. }
    split; [exact Hr|].
    unfold ResizeOnce.extractText, ResizeOnce.prepare. rewrite Hr. reflexivity.
  - intros base64 Hle. unfold FromOriginal.choosePayload.
    apply N.ltb_ge in Hle. rewrite Hle. reflexivity.
Qed.

(** A photo whose resized file would be well under the limit: the first
    revision fails on it, the second posts it as it is. *)
Lemma C9_witness :
  timeline (ResizeOnce.extractText 6 envHello photo) =
  [SetLoading true; SetExtractedText []; SetAiResult (JStr []);
   Manipulate photo [Resize 1280] {| compress := 0.7; want_base64 := false |}
     (inr (nextFile photo));
   ConsoleError ReferenceError;
   Alert (js "Error") (js "Failed to extract text.");
   SetLoading false]
  /\ FromOriginal.choosePayload 6 envHello photo smallBase64 =
     mkM [] [] (Normal (formOf smallBase64)).
Proof.
  split.
  - exact (proj2 (proj1 (C9_candidate_lost_at_the_measurement 6 envHello photo)
                    (nextFile photo) eq_refl)).
  - apply (proj2 (C9_candidate_lost_at_the_measurement 6 envHello photo)
             smallBase64).
    vm_compute. discriminate.
Defined.

(** ** Three runs, event by event *)

(** A small photo with the text " hello world " on it, in the second
    revision: the original is read and posted as it is, the analysis is
    started without being awaited, the flag is cleared, and then the
    explanation comes. *)
Example run_hello :
  timeline (FromOriginal.extractText 6 envHello photo) =
  [SetLoading true; SetExtractedText []; SetAiResult (JStr []);
   ReadAsString photo (inr smallBase64);
   FetchSent (PostOcr (formOf smallBase64));
   FetchSettled (inr (answer 200 helloAnswer));
   Console LogLevel (js "OCR Response:");
   SetExtractedText (js "hello world");
   Console LogLevel (js "Extracted Text:");
   SetLoading true;
   FetchSent (PostAnalyze (js "hello world"));
   SetLoading false;
   FetchSettled (inr (answer 200 analysisAnswer));
   SetAiResult (JStr (js "A greeting."));
   SetLoading false].
Proof. reflexivity. Qed.

(** The same photo with the network down: the request is rejected, the
    failure is alerted, the flag is cleared, and nothing is sent to the
    analysis endpoint. *)
Example run_offline :
  timeline (FromOriginal.extractText 6 envOffline photo) =
  [SetLoading true; SetExtractedText []; SetAiResult (JStr []);
   ReadAsString photo (inr smallBase64);
   FetchSent (PostOcr (formOf smallBase64));
   FetchSettled (inl (Rejected (js "Network request failed")));
   ConsoleError (Rejected (js "Network request failed"));
   Alert (js "Error") (js "Failed to extract text.");
   SetLoading false].
Proof. reflexivity. Qed.

(** The first revision with an encoder that rejects the picture: the
    resizing fails, and the run stops there with the same alert. *)
Example run_first_revision_rejected :
  timeline (ResizeOnce.extractText 6 envCorrupt photo) =
  [SetLoading true; SetExtractedText []; SetAiResult (JStr []);
   Manipulate photo [Resize 1280] {| compress := 0.7; want_base64 := false |}
     (inl (Rejected (js "Could not decode image")));
   ConsoleError (Rejected (js "Could not decode image"));
   Alert (js "Error") (js "Failed to extract text.");
   SetLoading false].
Proof. reflexivity. Qed.

(** ** Runs as a whole *)

(** What every run of the first revision is, for any fuel of six or more. *)
Lemma run_resizing fuel env u :
  (6 <= fuel)%nat ->
  completion_of (ResizeOnce.prepare fuel env u) <> OutOfFuel
  /\ forallb isLocal (events (ResizeOnce.prepare fuel env u)) = true
  /\ completion_of (ResizeOnce.extractText fuel env u) = Normal tt
  /\ timeline (ResizeOnce.extractText fuel env u)
     = runEvents env (events (ResizeOnce.prepare fuel env u))
                 (completion_of (ResizeOnce.prepare fuel env u)).
Proof.
  intros Hfuel.
  destruct (prepare1_run env fuel u Hfuel) as (Heq & Hend & Hlater & Hlocal & _).
  unfold ResizeOnce.extractText. rewrite Heq.
  destruct (timeline_extractTextWith env _ Hend Hlater) as (Ht & Hc). auto.
Qed.

(** ... and of the second. *)
Lemma run_reencoding fuel env u :
  (6 <= fuel)%nat ->
  completion_of (FromOriginal.prepare fuel env u) <> OutOfFuel
  /\ forallb isLocal (events (FromOriginal.prepare fuel env u)) = true
  /\ completion_of (FromOriginal.extractText fuel env u) = Normal tt
  /\ timeline (FromOriginal.extractText fuel env u)
     = runEvents env (events (FromOriginal.prepare fuel env u))
                 (completion_of (FromOriginal.prepare fuel env u)).
Proof.
  intros Hfuel.
  destruct (prepare2_run env fuel u Hfuel) as (Heq & Hend & Hlater & Hlocal).
  unfold FromOriginal.extractText. rewrite Heq.
  destruct (timeline_extractTextWith env _ Hend Hlater) as (Ht & Hc). auto.
Qed.

(** ... and of either. *)
Lemma run_facts rev fuel env u :
  (6 <= fuel)%nat ->
  completion_of (prepareOf rev fuel env u) <> OutOfFuel
  /\ forallb isLocal (events (prepareOf rev fuel env u)) = true
  /\ completion_of (extractTextOf rev fuel env u) = Normal tt
  /\ timeline (extractTextOf rev fuel env u)
     = runEvents env (events (prepareOf rev fuel env u))
                 (completion_of (prepareOf rev fuel env u)).
Proof.
  destruct rev; [exact (run_resizing fuel env u)|exact (run_reencoding fuel env u)].
Qed.

Lemma answerEvents_no_text env payload :
  ocrResult env payload = inr [] ->
  answerEvents env payload =
  [FetchSent (PostOcr payload); FetchSettled (fetch env (PostOcr payload));
   Console LogLevel (js "OCR Response:"); SetExtractedText [];
   Console LogLevel (js "Extracted Text:"); noTextAlert; SetLoading false].
Proof.
  unfold ocrResult, answerEvents. intros H.
  destruct (fetch env (PostOcr payload)) as [e|resp]; [discriminate|].
  destruct (json_body resp) as [e|data]; [discriminate|].
  rewrite H. reflexivity.
Qed.

Lemma answerEvents_text env payload c s :
  ocrResult env payload = inr (c :: s) ->
  answerEvents env payload =
  [FetchSent (PostOcr payload); FetchSettled (fetch env (PostOcr payload));
   Console LogLevel (js "OCR Response:"); SetExtractedText (c :: s);
   Console LogLevel (js "Extracted Text:");
   SetLoading true; FetchSent (PostAnalyze (c :: s)); SetLoading false]
  ++ FetchSettled (fetch env (PostAnalyze (c :: s)))
     :: explainedEvents (explanation env (c :: s)) ++ [SetLoading false].
Proof.
  unfold ocrResult, answerEvents. intros H.
  destruct (fetch env (PostOcr payload)) as [e|resp]; [discriminate|].
  destruct (json_body resp) as [e|data]; [discriminate|].
  rewrite H. reflexivity.
Qed.

Lemma answerEvents_failure env payload e :
  ocrResult env payload = inl e ->
  exists ev,
    answerEvents env payload =
    FetchSent (PostOcr payload) :: FetchSettled (fetch env (PostOcr payload))
    :: ev ++ failureEvents e ++ [SetLoading false]
    /\ (ev = [] \/ ev = [Console LogLevel (js "OCR Response:")]).
Proof.
  unfold ocrResult, answerEvents. intros H.
  destruct (fetch env (PostOcr payload)) as [e'|resp].
  { injection H as <-. exists []. auto. }
  destruct (json_body resp) as [e'|data].
  { injection H as <-. exists []. auto. }
  rewrite H. exists [Console LogLevel (js "OCR Response:")]. auto.
Qed.

(** C5. In every run whose OCR stage yields the empty string, no request
    goes to the analysis endpoint and the explanation is only ever reset;
    the run ends in Done, not Failed, having raised the alert
    "No text detected". *)
Theorem C5_no_text_stops_before_analysis rev fuel env u payload :
  (6 <= fuel)%nat ->
  completion_of (prepareOf rev fuel env u) = Normal payload ->
  ocrResult env payload = inr [] ->
  existsb isAnalyzeRequest (timeline (extractTextOf rev fuel env u)) = false
  /\ (forall v, In (SetAiResult v) (timeline (extractTextOf rev fuel env u)) ->
      v = JStr [])
  /\ finalState (timeline (extractTextOf rev fuel env u)) = Done
  /\ In (Alert (js "No text detected") (js "Try another image with clearer text."))
        (timeline (extractTextOf rev fuel env u))
  /\ completion_of (extractTextOf rev fuel env u) = Normal tt.
Proof.
  intros Hfuel Hp Hocr.
  destruct (run_facts rev fuel env u Hfuel) as (_ & Hlocal & Hc & Ht).
  rewrite Ht, Hp. unfold runEvents. rewrite (answerEvents_no_text _ _ Hocr).
  set (prepared := events (prepareOf rev fuel env u)) in *.
  split; [|split; [|split; [|split]]].
  - rewrite !existsb_app, (local_no_analyze_request _ Hlocal). reflexivity.
  - intros v Hin. apply in_app_or in Hin. destruct Hin as [Hin|Hin].
    + cbn in Hin. destruct Hin as [H|[H|[H|[]]]]; congruence.
    + apply in_app_or in Hin. destruct Hin as [Hin|Hin].
      * rewrite forallb_forall in Hlocal. specialize (Hlocal _ Hin). discriminate.
      * cbn in Hin. repeat (destruct Hin as [Hin|Hin]; [discriminate|]). destruct Hin.
  - rewrite finalState_cases by discriminate.
    rewrite !existsb_app, (local_no_error_alert _ Hlocal). reflexivity.
  - apply in_or_app. right. apply in_or_app. right. cbn. tauto.
  - exact Hc.
Qed.

Lemma C5_witness :
  existsb isAnalyzeRequest (timeline (extractTextOf Reencoding 6 envBlank photo)) = false
  /\ finalState (timeline (extractTextOf Reencoding 6 envBlank photo)) = Done.
Proof.
  destruct (C5_no_text_stops_before_analysis Reencoding 6 envBlank photo
              (formOf smallBase64) (le_n 6) eq_refl eq_refl)
    as (H1 & _ & H2 & _).
  split; [exact H1|exact H2].
Defined.

Lemma firstn_no_clear l m :
  existsb clears l = false -> existsb clears (firstn m l) = false.
Proof.
  revert m. induction l as [|e l IH]; intros m H; [destruct m; reflexivity|].
  destruct m as [|m]; [reflexivity|].
  cbn in H |- *. apply orb_false_iff in H. destruct H as [He Hl].
  rewrite He. exact (IH m Hl).
Qed.

Lemma stays_set l : existsb clears l = false -> loadingAfter true l = true.
Proof.
  induction l as [|e l IH]; [reflexivity|].
  cbn [existsb]. intros H. apply orb_false_iff in H. destruct H as [He Hl].
  destruct e as [[|]| | | | | | | | | | |]; try discriminate; cbn; exact (IH Hl).
Qed.

(** After the preparation, the flag is not cleared before the analysis
    request has gone out, or else before the last event of the run. *)
Lemma tail_no_early_clear env (c : completion FormData) m :
  c <> OutOfFuel ->
  let tail := match c with
              | Normal payload => answerEvents env payload
              | Thrown e => failureEvents e ++ [SetLoading false]
              | OutOfFuel => []
              end in
  (m < List.length tail)%nat ->
  existsb isAnalyzeRequest (firstn m tail) = false ->
  existsb clears (firstn m tail) = false.
Proof.
  intros Hc. destruct c as [payload|e|]; [| |congruence]; cbn zeta.
  - unfold answerEvents.
    destruct (fetch env (PostOcr payload)) as [e|resp].
    { intros Hlt _. cbn in Hlt.
      do 5 (destruct m as [|m]; [reflexivity|]). lia. }
    destruct (json_body resp) as [e|data].
    { intros Hlt _. cbn in Hlt.
      do 5 (destruct m as [|m]; [reflexivity|]). lia. }
    destruct (parsedText data) as [e|[|ch s]].
    + intros Hlt _. cbn in Hlt.
      do 6 (destruct m as [|m]; [reflexivity|]). lia.
    + intros Hlt _. cbn in Hlt.
      do 7 (destruct m as [|m]; [reflexivity|]). lia.
    + intros _ Hreq.
      do 7 (destruct m as [|m]; [reflexivity|]).
      cbn in Hreq. discriminate Hreq.
  - intros Hlt _. cbn in Hlt.
    do 3 (destruct m as [|m]; [reflexivity|]). lia.
Qed.

(** Throughout Reducing and ExtractingText the flag is set. *)
Lemma busy_while_reducing_and_extracting rev fuel env u n :
  (6 <= fuel)%nat ->
  stateAt (timeline (extractTextOf rev fuel env u)) n = Reducing
  \/ stateAt (timeline (extractTextOf rev fuel env u)) n = ExtractingText ->
  busy (firstn n (timeline (extractTextOf rev fuel env u))) = true.
Proof.
  intros Hfuel Hstate.
  destruct (run_facts rev fuel env u Hfuel) as (Hend & Hlocal & _ & Ht).
  rewrite Ht in *. unfold runEvents in *.
  set (prepared := events (prepareOf rev fuel env u)) in *.
  set (c := completion_of (prepareOf rev fuel env u)) in *.
  set (tail := match c with
               | Normal payload => answerEvents env payload
               | Thrown e => failureEvents e ++ [SetLoading false]
               | OutOfFuel => []
               end) in *.
  unfold stateAt in Hstate.
  destruct n as [|n]; [destruct Hstate; discriminate|].
  destruct (Nat.leb _ _) eqn:Hlen in Hstate.
  { destruct (existsb isErrorAlert _) in Hstate; destruct Hstate; discriminate. }
  destruct (existsb isAnalyzeRequest _) eqn:Hreq in Hstate;
    [destruct Hstate; discriminate|].
  clear Hstate. apply Nat.leb_gt in Hlen.
  change (resets ++ prepared ++ tail)
    with (SetLoading true
          :: ([SetExtractedText []; SetAiResult (JStr [])] ++ prepared) ++ tail)
    in Hlen, Hreq |- *.
  set (front := [SetExtractedText []; SetAiResult (JStr [])] ++ prepared) in *.
  cbn [firstn] in Hreq |- *. cbn [List.length] in Hlen.
  unfold busy. cbn [loadingAfter].
  apply stays_set.
  cbn [existsb isAnalyzeRequest orb] in Hreq.
  rewrite firstn_app, existsb_app in Hreq |- *.
  apply orb_false_iff in Hreq. destruct Hreq as [_ Hreq].
  apply orb_false_iff. split.
  - apply firstn_no_clear. unfold front. rewrite existsb_app.
    apply orb_false_iff. split; [reflexivity|].
    apply local_none; [|exact Hlocal]. intros []; simpl; congruence.
  - apply (tail_no_early_clear env c); [exact Hend| |exact Hreq].
    fold tail. rewrite length_app in Hlen.
    assert (0 < List.length tail)%nat.
    { unfold tail. destruct c; [unfold answerEvents; cbn; lia
                               |cbn; lia|congruence]. }
    lia.
Qed.

(** A run begins by setting the flag. *)
Lemma run_sets_the_flag_first rev fuel env u :
  (6 <= fuel)%nat ->
  exists rest, timeline (extractTextOf rev fuel env u) = SetLoading true :: rest.
Proof.
  intros Hfuel. destruct (run_facts rev fuel env u Hfuel) as (_ & _ & _ & Ht).
  rewrite Ht. unfold runEvents, resets. eexists. reflexivity.
Qed.

(** So, from its first step on, the flag no longer depends on what it was
    before the run. *)
Lemma flag_whatever_it_was rest b n :
  (0 < n)%nat ->
  loadingAfter b (firstn n (SetLoading true :: rest))
  = busy (firstn n (SetLoading true :: rest)).
Proof. destruct n as [|n]; [lia|reflexivity]. Qed.

(** C8. Every run of either revision ends, whatever the surroundings do,
    and ends with the busy flag cleared, in Done or in Failed: the run sets
    the flag with its first step and has cleared it by its last, whatever
    the flag was before.  At any point of the run at which the flag is set,
    the run is in one of the states Reducing, ExtractingText and Explaining;
    it is never set in Idle, Done or Failed.  (It is set throughout
    Reducing and ExtractingText; in Explaining it is set only until the
    [finally] of [extractText] has run, see
    [busy_cleared_while_explaining].) *)
Theorem C8_busy_flag_cleared rev fuel env u :
  (6 <= fuel)%nat ->
  completion_of (extractTextOf rev fuel env u) = Normal tt
  /\ (forall b,
        loadingAfter b (firstn 1 (timeline (extractTextOf rev fuel env u))) = true)
  /\ (forall b,
        loadingAfter b (timeline (extractTextOf rev fuel env u)) = false)
  /\ (finalState (timeline (extractTextOf rev fuel env u)) = Done
      \/ finalState (timeline (extractTextOf rev fuel env u)) = Failed)
  /\ (forall n,
        busy (firstn n (timeline (extractTextOf rev fuel env u))) = true ->
        stateAt (timeline (extractTextOf rev fuel env u)) n = Reducing
        \/ stateAt (timeline (extractTextOf rev fuel env u)) n = ExtractingText
        \/ stateAt (timeline (extractTextOf rev fuel env u)) n = Explaining)
  /\ (forall n,
        stateAt (timeline (extractTextOf rev fuel env u)) n = Idle
        \/ stateAt (timeline (extractTextOf rev fuel env u)) n = Done
        \/ stateAt (timeline (extractTextOf rev fuel env u)) n = Failed ->
        busy (firstn n (timeline (extractTextOf rev fuel env u))) = false)
  /\ (forall b n,
        stateAt (timeline (extractTextOf rev fuel env u)) n = Reducing
        \/ stateAt (timeline (extractTextOf rev fuel env u)) n = ExtractingText ->
        loadingAfter b (firstn n (timeline (extractTextOf rev fuel env u))) = true).
Proof.
  intros Hfuel.
  pose proof (busy_while_reducing_and_extracting rev fuel env u) as Hset.
  destruct (run_sets_the_flag_first rev fuel env u Hfuel) as (rest & Hfirst).
  destruct (run_facts rev fuel env u Hfuel) as (Hend & _ & Hc & Ht).
  set (tl := timeline (extractTextOf rev fuel env u)) in *.
  assert (Hclear : busy tl = false).
  { rewrite Ht. apply runEvents_clear. exact Hend. }
  split; [exact Hc|]. split; [|split; [|split; [|split; [|split]]]].
  - intros b. rewrite Hfirst. reflexivity.
  - intros b. rewrite Hfirst in Hclear |- *. exact Hclear.
  - rewrite finalState_cases by (rewrite Ht; discriminate).
    destruct (existsb isErrorAlert tl); auto.
  - intros n. apply busy_only_while_working. exact Hclear.
  - intros n Hstate.
    destruct (busy (firstn n tl)) eqn:Hb; [|reflexivity].
    destruct (busy_only_while_working tl n Hclear Hb) as [H|[H|H]];
      rewrite H in Hstate; destruct Hstate as [?|[?|?]]; discriminate.
  - intros b n Hstate.
    assert (Hn : (0 < n)%nat).
    { destruct n; [destruct Hstate; discriminate|lia]. }
    rewrite Hfirst, (flag_whatever_it_was rest b n Hn), <- Hfirst.
    exact (Hset n Hfuel Hstate).
Qed.

(** A run of the second revision that ends with an explanation, started
    with the flag set or not. *)
Lemma C8_witness :
  (forall b,
      loadingAfter b (timeline (extractTextOf Reencoding 6 envHello photo)) = false)
  /\ (forall b,
        loadingAfter b
          (firstn 1 (timeline (extractTextOf Reencoding 6 envHello photo))) = true)
  /\ finalState (timeline (extractTextOf Reencoding 6 envHello photo)) = Done.
Proof.
  destruct (C8_busy_flag_cleared Reencoding 6 envHello photo (le_n 6))
    as (_ & Hset & Hclear & _).
  split; [exact Hclear|]. split; [exact Hset|]. reflexivity.
Defined.

(** While the analysis request is in flight the flag is already cleared:
    [analyzeWithAI] is not awaited, so the [finally] of [extractText] runs
    right after the request has gone out.  So the flag is not set
    throughout Explaining. *)
Lemma busy_cleared_while_explaining rev fuel env u payload c s :
  (6 <= fuel)%nat ->
  completion_of (prepareOf rev fuel env u) = Normal payload ->
  ocrResult env payload = inr (c :: s) ->
  exists n,
    (n < List.length (timeline (extractTextOf rev fuel env u)))%nat
    /\ nth_error (timeline (extractTextOf rev fuel env u)) n
       = Some (FetchSettled (fetch env (PostAnalyze (c :: s))))
    /\ stateAt (timeline (extractTextOf rev fuel env u)) n = Explaining
    /\ busy (firstn n (timeline (extractTextOf rev fuel env u))) = false.
Proof.
  intros Hfuel Hp Hocr.
  destruct (run_facts rev fuel env u Hfuel) as (_ & Hlocal & Hc & Ht).
  rewrite Ht, Hp. unfold runEvents. rewrite (answerEvents_text _ _ _ _ Hocr).
  set (prepared := events (prepareOf rev fuel env u)) in *.
  set (tail := FetchSettled (fetch env (PostAnalyze (c :: s)))
               :: explainedEvents (explanation env (c :: s)) ++ [SetLoading false]).
  set (head := [FetchSent (PostOcr payload); FetchSettled (fetch env (PostOcr payload));
                Console LogLevel (js "OCR Response:"); SetExtractedText (c :: s);
                Console LogLevel (js "Extracted Text:");
                SetLoading true; FetchSent (PostAnalyze (c :: s)); SetLoading false]).
  assert (E : resets ++ prepared ++ head ++ tail
              = (resets ++ prepared ++ head) ++ tail).
  { rewrite <- !app_assoc. reflexivity. }
  rewrite E.
  set (before := resets ++ prepared ++ head).
  assert (Hfirst : firstn (List.length before) (before ++ tail) = before).
  { rewrite <- (Nat.add_0_r (List.length before)), firstn_app_2.
    apply app_nil_r. }
  assert (Hlen : (List.length before < List.length (before ++ tail))%nat).
  { rewrite length_app. unfold tail. simpl. lia. }
  exists (List.length before). split; [exact Hlen|]. split; [|split].
  - rewrite nth_error_app2 by lia. rewrite Nat.sub_diag. reflexivity.
  - unfold stateAt.
    destruct (List.length before) as [|n] eqn:Hn; [discriminate|].
    apply Nat.leb_gt in Hlen. rewrite Hlen, Hfirst.
    unfold before. rewrite !existsb_app.
    replace (existsb isAnalyzeRequest head) with true by reflexivity.
    rewrite !orb_true_r. reflexivity.
  - rewrite Hfirst. unfold before, busy. rewrite !loadingAfter_app. reflexivity.
Qed.

(** ** Failures of the OCR stage *)

Lemma filter_local_requests l :
  forallb isLocal l = true -> filter isRequest l = [].
Proof.
  induction l as [|e l IH]; [reflexivity|].
  simpl. intros H. apply andb_true_iff in H. destruct H as [He Hl].
  destruct e; try discriminate; simpl; exact (IH Hl).
Qed.

(** C3 (as the code has it). In every run that reaches the OCR stage, a
    rejected request and an answer whose body is not JSON both end the run
    in Failed with the alert "Failed to extract text.", after exactly one
    request and none to the analysis endpoint.  The status of the answer is
    never looked at: when the body parses, what follows the answer is
    [readAnswer] of the parsed body, whatever the status. *)
Theorem C3_ocr_failures_fail_the_run rev fuel env u payload :
  (6 <= fuel)%nat ->
  completion_of (prepareOf rev fuel env u) = Normal payload ->
  (forall e,
      fetch env (PostOcr payload) = inl e
      \/ (exists resp, fetch env (PostOcr payload) = inr resp
                       /\ json_body resp = inl e) ->
      timeline (extractTextOf rev fuel env u)
      = resets ++ events (prepareOf rev fuel env u)
        ++ [FetchSent (PostOcr payload);
            FetchSettled (fetch env (PostOcr payload));
            ConsoleError e;
            Alert (js "Error") (js "Failed to extract text.");
            SetLoading false]
      /\ finalState (timeline (extractTextOf rev fuel env u)) = Failed
      /\ filter isRequest (timeline (extractTextOf rev fuel env u))
         = [FetchSent (PostOcr payload)])
  /\ (forall resp data,
        fetch env (PostOcr payload) = inr resp ->
        json_body resp = inr data ->
        submit env payload =
        mkM ([FetchSent (PostOcr payload); FetchSettled (inr resp)]
             ++ events (readAnswer env data))
            (later (readAnswer env data))
            (completion_of (readAnswer env data))).
Proof.
  intros Hfuel Hp. split; [|exact (submit_parsed env payload)].
  intros e He.
  destruct (run_facts rev fuel env u Hfuel) as (_ & Hlocal & Hc & Ht).
  rewrite Ht, Hp. unfold runEvents.
  set (prepared := events (prepareOf rev fuel env u)) in *.
  assert (Ha : answerEvents env payload
               = [FetchSent (PostOcr payload);
                  FetchSettled (fetch env (PostOcr payload));
                  ConsoleError e;
                  Alert (js "Error") (js "Failed to extract text.");
                  SetLoading false]).
  { unfold answerEvents.
    destruct He as [Hf|(resp & Hf & Hj)]; rewrite Hf; [reflexivity|].
    rewrite Hj. reflexivity. }
  rewrite Ha. split; [reflexivity|]. split.
  - rewrite finalState_cases by discriminate.
    rewrite !existsb_app. cbn. rewrite !orb_true_r. reflexivity.
  - rewrite !filter_app, (filter_local_requests _ Hlocal). reflexivity.
Qed.

Lemma C3_witness :
  finalState (timeline (extractTextOf Reencoding 6 envOffline photo)) = Failed
  /\ filter isRequest (timeline (extractTextOf Reencoding 6 envOffline photo))
     = [FetchSent (PostOcr (formOf smallBase64))].
Proof.
  destruct (proj1 (C3_ocr_failures_fail_the_run Reencoding 6 envOffline photo
                     (formOf smallBase64) (le_n 6) eq_refl)
                  (Rejected (js "Network request failed"))
                  (or_introl eq_refl))
    as (_ & H1 & H2).
  split; [exact H1|exact H2].
Defined.

(** Against C3 as stated: an answer with status 500 whose body is JSON does
    not fail the run.  The body has no [ParsedResults], so the run ends in
    Done with the alert "No text detected" and without any error alert. *)
Lemma C3_counterexample :
  fetch envServerError (PostOcr (formOf smallBase64))
  = inr {| status := 500; json_body := inr errorAnswer |}
  /\ completion_of (prepareOf Reencoding 6 envServerError photo)
     = Normal (formOf smallBase64)
  /\ finalState (timeline (extractTextOf Reencoding 6 envServerError photo)) = Done
  /\ existsb isErrorAlert (timeline (extractTextOf Reencoding 6 envServerError photo))
     = false
  /\ In (Alert (js "No text detected") (js "Try another image with clearer text."))
        (timeline (extractTextOf Reencoding 6 envServerError photo)).
Proof.
  split; [reflexivity|]. split; [reflexivity|]. split; [reflexivity|].
  split; [reflexivity|].
  vm_compute. do 9 right. left. reflexivity.
Qed.

(** ** Failures of the encoder *)

Lemma answerEvents_no_encoding env payload :
  existsb isFailedEncoding (answerEvents env payload) = false.
Proof.
  unfold answerEvents.
  destruct (fetch env (PostOcr payload)) as [e|resp]; [reflexivity|].
  destruct (json_body resp) as [e|data]; [reflexivity|].
  destruct (parsedText data) as [e|[|c s]]; [reflexivity|reflexivity|].
  cbn [existsb app isFailedEncoding orb]. rewrite existsb_app.
  destruct (explanation env (c :: s)); reflexivity.
Qed.

Lemma answerEvents_head env payload :
  In (FetchSent (PostOcr payload)) (answerEvents env payload).
Proof. left. reflexivity. Qed.

Lemma bigBase64_bytes :
  FromOriginal.calcBytes bigBase64 = 1048578%N.
Proof.
  unfold FromOriginal.calcBytes, bigBase64.
  rewrite repeat_length, N2Nat.id. reflexivity.
Qed.

Lemma bigBase64_over : (FromOriginal.maxBytes < FromOriginal.calcBytes bigBase64)%N.
Proof. rewrite bigBase64_bytes. reflexivity. Qed.

(** The second revision on an original over the limit whose first encoding
    fails: the inner [catch] keeps the original form. *)
Lemma choosePayload_first_encoding_fails fuel env u base64 e :
  (FromOriginal.maxBytes < FromOriginal.calcBytes base64)%N ->
  importImageManipulator env = None ->
  manipulateAsync env u [] {| compress := 0.9; want_base64 := true |} = inl e ->
  FromOriginal.choosePayload (S fuel) env u base64 =
  mkM [ImportManipulator None;
       Manipulate u [] {| compress := 0.9; want_base64 := true |} (inl e);
       Console WarnLevel
         (js "Image compression step failed, continuing with original image:")]
      [] (Normal (formOf base64)).
Proof.
  intros Hbig Himp Hm. unfold FromOriginal.choosePayload.
  apply N.ltb_lt in Hbig. rewrite Hbig, Himp.
  rewrite compressLoop_step by reflexivity.
  rewrite (awaitManipulate_err _ _ _ _ _ Hm). reflexivity.
Qed.


(** A run of the second revision whose form was chosen with the events
    [ev]. *)
Lemma timeline_reencoding fuel env u base64 ev sent :
  (6 <= fuel)%nat ->
  readAsStringAsync env u = inr base64 ->
  FromOriginal.choosePayload fuel env u base64 = mkM ev [] (Normal (formOf sent)) ->
  timeline (FromOriginal.extractText fuel env u)
  = resets ++ (ReadAsString u (inr base64) :: ev) ++ answerEvents env (formOf sent).
Proof.
  intros Hfuel Hr Hch.
  destruct (run_reencoding fuel env u Hfuel) as (_ & _ & _ & Ht).
  rewrite Ht. unfold FromOriginal.prepare.
  rewrite (awaitRead_ok _ _ _ Hr), bind_Normal, Hch. reflexivity.
Qed.

Lemma prepare1_no_failure fuel env u payload :
  completion_of (ResizeOnce.prepare fuel env u) = Normal payload ->
  existsb isFailedEncoding (events (ResizeOnce.prepare fuel env u)) = false.
Proof.
  rewrite prepare1_shape. discriminate.
Qed.

(** The first revision: a failed encoder call anywhere in the run means the
    run failed before any request. *)
Lemma resizing_encoding_failure fuel env u :
  (6 <= fuel)%nat ->
  existsb isFailedEncoding (timeline (ResizeOnce.extractText fuel env u)) = true ->
  exists e,
    completion_of (ResizeOnce.prepare fuel env u) = Thrown e
    /\ timeline (ResizeOnce.extractText fuel env u)
       = resets ++ events (ResizeOnce.prepare fuel env u)
         ++ failureEvents e ++ [SetLoading false].
Proof.
  intros Hfuel Hfailed.
  destruct (run_resizing fuel env u Hfuel) as (Hend & _ & _ & Ht).
  pose proof (prepare1_no_failure fuel env u) as Hnf.
  rewrite Ht in Hfailed. rewrite Ht.
  destruct (completion_of (ResizeOnce.prepare fuel env u)) as [payload|e|];
    [|exists e; split; reflexivity|congruence].
  unfold runEvents in Hfailed.
  rewrite !existsb_app, (Hnf payload eq_refl), answerEvents_no_encoding in Hfailed.
  discriminate.
Qed.

(** The second revision: a failed encoder call means the original was read,
    the inner [catch] kept the original form, and that form was posted. *)
Lemma reencoding_encoding_failure fuel env u :
  (6 <= fuel)%nat ->
  existsb isFailedEncoding (timeline (FromOriginal.extractText fuel env u)) = true ->
  exists base64 ev,
    readAsStringAsync env u = inr base64
    /\ FromOriginal.choosePayload fuel env u base64
       = mkM ev [] (Normal (formOf base64))
    /\ timeline (FromOriginal.extractText fuel env u)
       = resets ++ (ReadAsString u (inr base64) :: ev)
         ++ answerEvents env (formOf base64).
Proof.
  intros Hfuel Hfailed.
  destruct (readAsStringAsync env u) as [e|base64] eqn:Hr.
  - destruct (run_reencoding fuel env u Hfuel) as (_ & _ & _ & Ht).
    rewrite Ht in Hfailed.
    rewrite (prepare2_unreadable env fuel u e Hr) in Hfailed. discriminate.
  - destruct (prepare2_read env fuel u base64 Hfuel Hr)
      as (ev & sent & _ & Hch & Hchosen & _).
    pose proof (timeline_reencoding fuel env u base64 ev sent Hfuel Hr Hch) as Ht.
    rewrite Ht in Hfailed.
    assert (Hev : existsb isFailedEncoding ev = true).
    { rewrite !existsb_app, answerEvents_no_encoding in Hfailed.
      cbn in Hfailed. rewrite orb_false_r in Hfailed. exact Hfailed. }
    assert (Hsent : sent = base64).
    { destruct Hchosen as [_ _ ->|_ _ _ H|_ _ _ _ _ H|_ _ _ H|_ _ H];
        try congruence. discriminate. }
    subst sent. exists base64, ev. auto.
Qed.

(** C4 (as the code has it). In the first revision a failed encoding ends
    the run in Failed with the alert "Failed to extract text." and no
    request is ever sent.  In the second revision a failed encoding is
    caught inside the compression step: the form with the original text is
    kept and posted to the OCR endpoint, and the run goes on from there. *)
Theorem C4_encoding_failure fuel env u :
  (6 <= fuel)%nat ->
  (existsb isFailedEncoding (timeline (ResizeOnce.extractText fuel env u)) = true ->
   finalState (timeline (ResizeOnce.extractText fuel env u)) = Failed
   /\ existsb isRequest (timeline (ResizeOnce.extractText fuel env u)) = false
   /\ In (Alert (js "Error") (js "Failed to extract text."))
         (timeline (ResizeOnce.extractText fuel env u)))
  /\ (existsb isFailedEncoding (timeline (FromOriginal.extractText fuel env u)) = true ->
      exists base64 ev,
        readAsStringAsync env u = inr base64
        /\ FromOriginal.choosePayload fuel env u base64
           = mkM ev [] (Normal (formOf base64))
        /\ timeline (FromOriginal.extractText fuel env u)
           = resets ++ (ReadAsString u (inr base64) :: ev)
             ++ answerEvents env (formOf base64)
        /\ In (FetchSent (PostOcr (formOf base64)))
              (timeline (FromOriginal.extractText fuel env u))).
Proof.
  intros Hfuel. split.
  - intros Hfailed.
    destruct (resizing_encoding_failure fuel env u Hfuel Hfailed) as (e & Hc & Ht).
    destruct (run_resizing fuel env u Hfuel) as (_ & Hlocal & _ & _).
    rewrite Ht. split; [|split].
    + rewrite finalState_cases by discriminate.
      rewrite !existsb_app. cbn. rewrite !orb_true_r. reflexivity.
    + rewrite !existsb_app, (local_no_request _ Hlocal). reflexivity.
    + apply in_or_app. right. apply in_or_app. right. cbn. tauto.
  - intros Hfailed.
    destruct (reencoding_encoding_failure fuel env u Hfuel Hfailed)
      as (base64 & ev & Hr & Hch & Ht).
    exists base64, ev. split; [exact Hr|]. split; [exact Hch|].
    split; [exact Ht|].
    rewrite Ht. apply in_or_app. right. apply in_or_app. right.
    apply answerEvents_head.
Qed.

(** The encoder of [envCorrupt] rejects every picture. *)
Lemma envCorrupt_timeline :
  timeline (FromOriginal.extractText 6 envCorrupt photo)
  = resets
    ++ [ReadAsString photo (inr bigBase64);
        ImportManipulator None;
        Manipulate photo [] {| compress := 0.9; want_base64 := true |}
          (inl (Rejected (js "Could not decode image")));
        Console WarnLevel
          (js "Image compression step failed, continuing with original image:")]
    ++ answerEvents envCorrupt (formOf bigBase64).
Proof.
  apply timeline_reencoding; [lia|reflexivity|].
  apply choosePayload_first_encoding_fails;
    [exact bigBase64_over|reflexivity|reflexivity].
Qed.

Lemma C4_witness :
  exists ev,
    FromOriginal.choosePayload 6 envCorrupt photo bigBase64
    = mkM ev [] (Normal (formOf bigBase64))
    /\ In (FetchSent (PostOcr (formOf bigBase64)))
          (timeline (FromOriginal.extractText 6 envCorrupt photo)).
Proof.
  assert (Hfailed : existsb isFailedEncoding
                      (timeline (FromOriginal.extractText 6 envCorrupt photo)) = true).
  { rewrite envCorrupt_timeline, !existsb_app. reflexivity. }
  destruct (proj2 (C4_encoding_failure 6 envCorrupt photo (le_n 6)) Hfailed)
    as (base64 & ev & Hr & Hch & _ & Hin).
  injection Hr as <-. exists ev. split; [exact Hch|exact Hin].
Defined.

(** Against C4 as stated: in the second revision the encoder rejects the
    picture, and the OCR endpoint is called all the same, with the original
    text; the run ends in Done, with no error alert. *)
Lemma C4_counterexample :
  existsb isFailedEncoding (timeline (FromOriginal.extractText 6 envCorrupt photo))
  = true
  /\ In (FetchSent (PostOcr (formOf bigBase64)))
        (timeline (FromOriginal.extractText 6 envCorrupt photo))
  /\ existsb isErrorAlert (timeline (FromOriginal.extractText 6 envCorrupt photo))
     = false
  /\ finalState (timeline (FromOriginal.extractText 6 envCorrupt photo)) = Done.
Proof.
  rewrite envCorrupt_timeline. split; [|split; [|split]].
  - rewrite !existsb_app. reflexivity.
  - apply in_or_app. right. apply in_or_app. right. apply answerEvents_head.
  - rewrite !existsb_app. reflexivity.
  - rewrite finalState_cases by discriminate. rewrite !existsb_app. reflexivity.
Qed.

(** ** The quality loop: bound, step, sizes *)

Lemma falls_second k :
  (k <= 6)%nat ->
  fallsBy 0.15 (descending 0.15 k 0.9) = true
  /\ (floatOfNat k <=? iterationBound 0.9 0.1 0.15)%float = true.
Proof.
  intros Hk.
  do 7 (destruct k as [|k]; [split; reflexivity|]). lia.
Qed.




(** One turn of the loop whose variant is over the limit: the loop goes
    on, one step lower, holding that variant. *)
Lemma compressLoop_oversized fuel env u q m r b :
  (0.1 <=? q)%float = true ->
  manipulateAsync env u [] {| compress := q; want_base64 := true |} = inr r ->
  base64_of r = Some b ->
  FromOriginal.nonEmpty (Some b) = true ->
  (FromOriginal.maxBytes < FromOriginal.calcBytes b)%N ->
  FromOriginal.compressLoop (S fuel) env u q m =
  (emit (Manipulate u [] {| compress := q; want_base64 := true |} (inr r)) ;;;
   FromOriginal.compressLoop fuel env u (q - 0.15)%float (Some b)).
Proof.
  intros G Hm Hb Hne Hover. rewrite compressLoop_step by exact G.
  rewrite (awaitManipulate_ok _ _ _ _ _ Hm), bind_Normal, Hb, Hne.
  apply N.leb_gt in Hover. rewrite Hover. reflexivity.
Qed.

(** One turn of the loop whose variant is within the limit: the loop ends
    with it. *)
Lemma compressLoop_fits fuel env u q m r b :
  (0.1 <=? q)%float = true ->
  manipulateAsync env u [] {| compress := q; want_base64 := true |} = inr r ->
  base64_of r = Some b ->
  FromOriginal.nonEmpty (Some b) = true ->
  (FromOriginal.calcBytes b <= FromOriginal.maxBytes)%N ->
  FromOriginal.compressLoop (S fuel) env u q m =
  mkM [Manipulate u [] {| compress := q; want_base64 := true |} (inr r)] []
      (Normal (q, Some b)).
Proof.
  intros G Hm Hb Hne Hfit. rewrite compressLoop_step by exact G.
  rewrite (awaitManipulate_ok _ _ _ _ _ Hm), bind_Normal, Hb, Hne.
  apply N.leb_le in Hfit. rewrite Hfit. reflexivity.
Qed.

(** What the compression step does with a loop that ended holding a
    variant. *)
Lemma choosePayload_compressed fuel env u base64 ev q b :
  (FromOriginal.maxBytes < FromOriginal.calcBytes base64)%N ->
  importImageManipulator env = None ->
  FromOriginal.compressLoop fuel env u 0.9%float None
  = mkM ev [] (Normal (q, Some b)) ->
  FromOriginal.nonEmpty (Some b) = true ->
  FromOriginal.choosePayload fuel env u base64 =
  mkM (ImportManipulator None :: ev
       ++ [Console LogLevel (js "Compressed image to bytes:")])
      [] (Normal (formOf b)).
Proof.
  intros Hbig Himp Hloop Hne. unfold FromOriginal.choosePayload.
  apply N.ltb_lt in Hbig. rewrite Hbig, Himp, Hloop.
  unfold tryCatch, bind, emit.
  cbn [completion_of events later snd app]. rewrite Hne. reflexivity.
Qed.

Lemma bigBase64_nonEmpty : FromOriginal.nonEmpty (Some bigBase64) = true.
Proof.
  unfold bigBase64. destruct (N.to_nat 1398104) eqn:E; [lia|reflexivity].
Qed.

Lemma biggerBase64_nonEmpty : FromOriginal.nonEmpty (Some biggerBase64) = true.
Proof.
  unfold biggerBase64. destruct (N.to_nat 1398108) eqn:E; [lia|reflexivity].
Qed.

Lemma biggerBase64_bytes : FromOriginal.calcBytes biggerBase64 = 1048581%N.
Proof.
  unfold FromOriginal.calcBytes, biggerBase64.
  rewrite repeat_length, N2Nat.id. reflexivity.
Qed.

Lemma biggerBase64_over :
  (FromOriginal.maxBytes < FromOriginal.calcBytes biggerBase64)%N.
Proof. rewrite biggerBase64_bytes. reflexivity. Qed.

Lemma smallBase64_fits :
  (FromOriginal.calcBytes smallBase64 <= FromOriginal.maxBytes)%N.
Proof. vm_compute. discriminate. Qed.

(** An encoder call of the second revision's loop, with the text it
    returned. *)
Lemma variants_cons u q uri' b rest :
  FromOriginal.nonEmpty (Some b) = true ->
  variants (Manipulate u [] {| compress := q; want_base64 := true |}
              (inr {| uri_of := uri'; base64_of := Some b |}) :: rest)
  = b :: variants rest.
Proof.
  intros Hne. unfold variants. cbn [flat_map].
  rewrite (variantOf_some u [] _ {| uri_of := uri'; base64_of := Some b |} b
             eq_refl Hne).
  reflexivity.
Qed.

(** What the encoders of [envStepping] and [envSwelling] return. *)
Lemma byQuality_encodes encoder src actions q b :
  encoder q = b ->
  manipulateAsync (envByQuality encoder) src actions
    {| compress := q; want_base64 := true |}
  = inr {| uri_of := js "file:///out.jpg"; base64_of := Some b |}.
Proof. intros <-. reflexivity. Qed.

Lemma stepping_high q :
  (0.7 <? q)%float = true ->
  manipulateAsync envStepping photo [] {| compress := q; want_base64 := true |}
  = inr {| uri_of := js "file:///out.jpg"; base64_of := Some bigBase64 |}.
Proof. intros H. apply byQuality_encodes. rewrite H. reflexivity. Qed.

Lemma stepping_low q :
  (0.7 <? q)%float = false ->
  manipulateAsync envStepping photo [] {| compress := q; want_base64 := true |}
  = inr {| uri_of := js "file:///out.jpg"; base64_of := Some smallBase64 |}.
Proof. intros H. apply byQuality_encodes. rewrite H. reflexivity. Qed.

Lemma swelling_high q :
  (0.8 <? q)%float = true ->
  manipulateAsync envSwelling photo [] {| compress := q; want_base64 := true |}
  = inr {| uri_of := js "file:///out.jpg"; base64_of := Some bigBase64 |}.
Proof. intros H. apply byQuality_encodes. rewrite H. reflexivity. Qed.

Lemma swelling_low q :
  (0.8 <? q)%float = false ->
  manipulateAsync envSwelling photo [] {| compress := q; want_base64 := true |}
  = inr {| uri_of := js "file:///out.jpg"; base64_of := Some biggerBase64 |}.
Proof. intros H. apply byQuality_encodes. rewrite H. reflexivity. Qed.

Lemma envStepping_loop :
  FromOriginal.compressLoop 6 envStepping photo 0.9%float None
  = mkM [Manipulate photo [] {| compress := 0.9; want_base64 := true |}
           (inr {| uri_of := js "file:///out.jpg"; base64_of := Some bigBase64 |});
         Manipulate photo [] {| compress := 0.9 - 0.15; want_base64 := true |}
           (inr {| uri_of := js "file:///out.jpg"; base64_of := Some bigBase64 |});
         Manipulate photo [] {| compress := 0.9 - 0.15 - 0.15; want_base64 := true |}
           (inr {| uri_of := js "file:///out.jpg"; base64_of := Some smallBase64 |})]
        [] (Normal ((0.9 - 0.15 - 0.15)%float, Some smallBase64)).
Proof.
  rewrite (compressLoop_oversized 5 envStepping photo 0.9%float None
             {| uri_of := js "file:///out.jpg"; base64_of := Some bigBase64 |}
             bigBase64 eq_refl (stepping_high 0.9%float eq_refl) eq_refl
             bigBase64_nonEmpty bigBase64_over).
  rewrite (compressLoop_oversized 4 envStepping photo (0.9 - 0.15)%float (Some bigBase64)
             {| uri_of := js "file:///out.jpg"; base64_of := Some bigBase64 |}
             bigBase64 eq_refl (stepping_high (0.9 - 0.15)%float eq_refl) eq_refl
             bigBase64_nonEmpty bigBase64_over).
  rewrite (compressLoop_fits 3 envStepping photo (0.9 - 0.15 - 0.15)%float (Some bigBase64)
             {| uri_of := js "file:///out.jpg"; base64_of := Some smallBase64 |}
             smallBase64 eq_refl (stepping_low (0.9 - 0.15 - 0.15)%float eq_refl) eq_refl
             eq_refl smallBase64_fits).
  reflexivity.
Qed.

(** The encoder of [envStepping]: two variants over the limit, then one of
    three bytes, which is sent. *)
Lemma envStepping_choice :
  FromOriginal.choosePayload 6 envStepping photo bigBase64
  = mkM [ImportManipulator None;
         Manipulate photo [] {| compress := 0.9; want_base64 := true |}
           (inr {| uri_of := js "file:///out.jpg"; base64_of := Some bigBase64 |});
         Manipulate photo [] {| compress := 0.9 - 0.15; want_base64 := true |}
           (inr {| uri_of := js "file:///out.jpg"; base64_of := Some bigBase64 |});
         Manipulate photo [] {| compress := 0.9 - 0.15 - 0.15; want_base64 := true |}
           (inr {| uri_of := js "file:///out.jpg"; base64_of := Some smallBase64 |});
         Console LogLevel (js "Compressed image to bytes:")]
        [] (Normal (formOf smallBase64)).
Proof.
  rewrite (choosePayload_compressed 6 envStepping photo bigBase64 _ _ _
             bigBase64_over eq_refl envStepping_loop eq_refl).
  reflexivity.
Qed.

Lemma envStepping_sizes :
  map FromOriginal.calcBytes
    (variants (events (FromOriginal.choosePayload 6 envStepping photo bigBase64)))
  = [1048578; 1048578; 3]%N.
Proof.
  rewrite envStepping_choice. cbn [events].
  change (variants (ImportManipulator None :: ?l)) with (variants l).
  rewrite !(variants_cons _ _ _ bigBase64 _ bigBase64_nonEmpty).
  rewrite (variants_cons _ _ _ smallBase64 _ eq_refl).
  cbn [map variants flat_map variantOf app]. rewrite !bigBase64_bytes. reflexivity.
Qed.

(** One turn further down, the encoder of [envStepping] never returns
    more. *)
Lemma smallerDownTheLoop_envStepping : smallerDownTheLoop envStepping photo.
Proof.
  intros n Hn r1 r2 b1 b2 H1 H2 Hb1 Hb2.
  injection H1 as <-. injection H2 as <-.
  cbn [base64_of compress] in Hb1, Hb2.
  injection Hb1 as <-. injection Hb2 as <-.
  do 5 (destruct n as [|n];
        [cbn [lowered];
         repeat match goal with
                | |- context [(0.7 <? ?q)%float] =>
                    let c := eval vm_compute in (0.7 <? q)%float in
                    change (0.7 <? q)%float with c
                end;
         cbn iota; rewrite ?bigBase64_bytes;
         solve [apply N.le_refl | vm_compute; discriminate]|]).
  lia.
Qed.

Lemma envSwelling_loop :
  FromOriginal.compressLoop 6 envSwelling photo 0.9%float None
  = mkM [Manipulate photo [] {| compress := 0.9; want_base64 := true |}
           (inr {| uri_of := js "file:///out.jpg"; base64_of := Some bigBase64 |});
         Manipulate photo [] {| compress := lowered 0.15 1 0.9; want_base64 := true |}
           (inr {| uri_of := js "file:///out.jpg"; base64_of := Some biggerBase64 |});
         Manipulate photo [] {| compress := lowered 0.15 2 0.9; want_base64 := true |}
           (inr {| uri_of := js "file:///out.jpg"; base64_of := Some biggerBase64 |});
         Manipulate photo [] {| compress := lowered 0.15 3 0.9; want_base64 := true |}
           (inr {| uri_of := js "file:///out.jpg"; base64_of := Some biggerBase64 |});
         Manipulate photo [] {| compress := lowered 0.15 4 0.9; want_base64 := true |}
           (inr {| uri_of := js "file:///out.jpg"; base64_of := Some biggerBase64 |});
         Manipulate photo [] {| compress := lowered 0.15 5 0.9; want_base64 := true |}
           (inr {| uri_of := js "file:///out.jpg"; base64_of := Some biggerBase64 |})]
        [] (Normal (lowered 0.15 6 0.9, Some biggerBase64)).
Proof.
  cbn [lowered].
  rewrite (compressLoop_oversized 5 envSwelling photo 0.9%float None
             {| uri_of := js "file:///out.jpg"; base64_of := Some bigBase64 |}
             bigBase64 eq_refl (swelling_high 0.9%float eq_refl) eq_refl
             bigBase64_nonEmpty bigBase64_over).
  rewrite (compressLoop_oversized 4 envSwelling photo (0.9 - 0.15)%float (Some bigBase64)
             {| uri_of := js "file:///out.jpg"; base64_of := Some biggerBase64 |}
             biggerBase64 eq_refl (swelling_low (0.9 - 0.15)%float eq_refl) eq_refl
             biggerBase64_nonEmpty biggerBase64_over).
  rewrite (compressLoop_oversized 3 envSwelling photo (0.9 - 0.15 - 0.15)%float (Some biggerBase64)
             {| uri_of := js "file:///out.jpg"; base64_of := Some biggerBase64 |}
             biggerBase64 eq_refl (swelling_low (0.9 - 0.15 - 0.15)%float eq_refl) eq_refl
             biggerBase64_nonEmpty biggerBase64_over).
  rewrite (compressLoop_oversized 2 envSwelling photo (0.9 - 0.15 - 0.15 - 0.15)%float (Some biggerBase64)
             {| uri_of := js "file:///out.jpg"; base64_of := Some biggerBase64 |}
             biggerBase64 eq_refl (swelling_low (0.9 - 0.15 - 0.15 - 0.15)%float eq_refl) eq_refl
             biggerBase64_nonEmpty biggerBase64_over).
  rewrite (compressLoop_oversized 1 envSwelling photo (0.9 - 0.15 - 0.15 - 0.15 - 0.15)%float (Some biggerBase64)
             {| uri_of := js "file:///out.jpg"; base64_of := Some biggerBase64 |}
             biggerBase64 eq_refl (swelling_low (0.9 - 0.15 - 0.15 - 0.15 - 0.15)%float eq_refl) eq_refl
             biggerBase64_nonEmpty biggerBase64_over).
  rewrite (compressLoop_oversized 0 envSwelling photo (0.9 - 0.15 - 0.15 - 0.15 - 0.15 - 0.15)%float (Some biggerBase64)
             {| uri_of := js "file:///out.jpg"; base64_of := Some biggerBase64 |}
             biggerBase64 eq_refl (swelling_low (0.9 - 0.15 - 0.15 - 0.15 - 0.15 - 0.15)%float eq_refl) eq_refl
             biggerBase64_nonEmpty biggerBase64_over).
  rewrite (compressLoop_exit envSwelling photo 0 (0.9 - 0.15 - 0.15 - 0.15 - 0.15 - 0.15 - 0.15)%float (Some biggerBase64)
             eq_refl).
  reflexivity.
Qed.

(** The encoder of [envSwelling]: six variants, all over the limit, the
    first of 1,048,578 bytes and the others of 1,048,581; the floor is
    passed and the last one is sent. *)
Lemma envSwelling_choice :
  FromOriginal.choosePayload 6 envSwelling photo bigBase64
  = mkM [ImportManipulator None;
         Manipulate photo [] {| compress := 0.9; want_base64 := true |}
           (inr {| uri_of := js "file:///out.jpg"; base64_of := Some bigBase64 |});
         Manipulate photo [] {| compress := lowered 0.15 1 0.9; want_base64 := true |}
           (inr {| uri_of := js "file:///out.jpg"; base64_of := Some biggerBase64 |});
         Manipulate photo [] {| compress := lowered 0.15 2 0.9; want_base64 := true |}
           (inr {| uri_of := js "file:///out.jpg"; base64_of := Some biggerBase64 |});
         Manipulate photo [] {| compress := lowered 0.15 3 0.9; want_base64 := true |}
           (inr {| uri_of := js "file:///out.jpg"; base64_of := Some biggerBase64 |});
         Manipulate photo [] {| compress := lowered 0.15 4 0.9; want_base64 := true |}
           (inr {| uri_of := js "file:///out.jpg"; base64_of := Some biggerBase64 |});
         Manipulate photo [] {| compress := lowered 0.15 5 0.9; want_base64 := true |}
           (inr {| uri_of := js "file:///out.jpg"; base64_of := Some biggerBase64 |});
         Console LogLevel (js "Compressed image to bytes:")]
        [] (Normal (formOf biggerBase64)).
Proof.
  rewrite (choosePayload_compressed 6 envSwelling photo bigBase64 _ _ _
             bigBase64_over eq_refl envSwelling_loop biggerBase64_nonEmpty).
  reflexivity.
Qed.

Lemma envSwelling_variants :
  variants (events (FromOriginal.choosePayload 6 envSwelling photo bigBase64))
  = [bigBase64; biggerBase64; biggerBase64; biggerBase64; biggerBase64;
     biggerBase64].
Proof.
  rewrite envSwelling_choice. cbn [events].
  change (variants (ImportManipulator None :: ?l)) with (variants l).
  rewrite (variants_cons _ _ _ bigBase64 _ bigBase64_nonEmpty).
  rewrite !(variants_cons _ _ _ biggerBase64 _ biggerBase64_nonEmpty).
  reflexivity.
Qed.

(** The form that was chosen is the one that is posted, and no other. *)
Lemma ocr_requests_answerEvents env payload :
  filter isOcrRequest (answerEvents env payload) = [FetchSent (PostOcr payload)].
Proof.
  unfold answerEvents. cbn [filter isOcrRequest].
  destruct (fetch env (PostOcr payload)) as [e|resp]; [reflexivity|].
  destruct (json_body resp) as [e|data]; [reflexivity|].
  destruct (parsedText data) as [e|[|c s]]; [reflexivity|reflexivity|].
  cbn [filter isOcrRequest app]. rewrite filter_app.
  destruct (explanation env (c :: s)); reflexivity.
Qed.


(** C2 (as the code has it). In the revision that re-encodes the original,
    the quality loop ends, after at most six iterations, which is within
    (startQuality - qualityFloor) / qualityStep + 1 for its start, floor
    and step (0.9, 0.1, 0.15); every iteration encodes at the quality of
    the one before minus the step, which is lower.  The sizes of the
    variants never rise provided the encoder returns no more one step
    further down; nothing in the loop keeps them from rising otherwise. *)
Theorem C2_quality_loop_bounded fuel env u base64 :
  (6 <= fuel)%nat ->
  exists ev sent k,
    FromOriginal.choosePayload fuel env u base64
    = mkM ev [] (Normal (formOf sent))
    /\ (k <= 6)%nat
    /\ (floatOfNat k <=? iterationBound 0.9 0.1 0.15)%float = true
    /\ qualitiesUsed ev = descending 0.15 k 0.9
    /\ fallsBy 0.15 (descending 0.15 k 0.9) = true
    /\ (smallerDownTheLoop env u ->
        nonIncreasing (map FromOriginal.calcBytes (variants ev)) = true).
Proof.
  intros Hfuel.
  destruct (choosePayload_run env u fuel base64 Hfuel)
    as (ev & sent & Heq & _ & (k & Hk & Hqs) & Hsizes).
  destruct (falls_second k Hk) as (Hfalls & Hbound).
  exists ev, sent, k. auto 10.
Qed.

(** An encoder whose output falls under the limit at the third quality:
    three iterations, at 0.9, 0.75 and 0.6, with variants of 1,048,578,
    1,048,578 and 3 bytes. *)
Lemma C2_witness :
  map FromOriginal.calcBytes
    (variants (events (FromOriginal.choosePayload 6 envStepping photo bigBase64)))
  = [1048578; 1048578; 3]%N
  /\ qualitiesUsed
       (events (FromOriginal.choosePayload 6 envStepping photo bigBase64))
     = descending 0.15 3 0.9
  /\ nonIncreasing
       (map FromOriginal.calcBytes
          (variants
             (events (FromOriginal.choosePayload 6 envStepping photo bigBase64))))
     = true.
Proof.
  split; [exact envStepping_sizes|].
  split; [rewrite envStepping_choice; reflexivity|].
  destruct (C2_quality_loop_bounded 6 envStepping photo bigBase64 (le_n 6))
    as (ev & sent & k & Heq & _ & _ & _ & _ & Hsizes).
  rewrite Heq. exact (Hsizes smallerDownTheLoop_envStepping).
Defined.

(** Against C2 as stated: in the second revision, with an encoder whose
    output is larger below quality 0.8 than above, the sizes across the six
    iterations rise from 1,048,578 to 1,048,581 bytes, and the variant
    posted is one of the largest. *)
Lemma C2_counterexample :
  qualitiesUsed (events (FromOriginal.choosePayload 6 envSwelling photo bigBase64))
  = descending 0.15 6 0.9
  /\ map FromOriginal.calcBytes
       (variants (events (FromOriginal.choosePayload 6 envSwelling photo bigBase64)))
     = [1048578; 1048581; 1048581; 1048581; 1048581; 1048581]%N
  /\ nonIncreasing
       (map FromOriginal.calcBytes
          (variants
             (events (FromOriginal.choosePayload 6 envSwelling photo bigBase64))))
     = false
  /\ completion_of (FromOriginal.choosePayload 6 envSwelling photo bigBase64)
     = Normal (formOf biggerBase64)
  /\ filter isOcrRequest (timeline (FromOriginal.extractText 6 envSwelling photo))
     = [FetchSent (PostOcr (formOf biggerBase64))].
Proof.
  assert (Hsizes :
            map FromOriginal.calcBytes
              (variants
                 (events (FromOriginal.choosePayload 6 envSwelling photo bigBase64)))
            = [1048578; 1048581; 1048581; 1048581; 1048581; 1048581]%N).
  { rewrite envSwelling_variants. cbn [map].
    rewrite bigBase64_bytes, biggerBase64_bytes. reflexivity. }
  split; [rewrite envSwelling_choice; reflexivity|].
  split; [exact Hsizes|]. split; [rewrite Hsizes; reflexivity|].
  split; [rewrite envSwelling_choice; reflexivity|].
  rewrite (timeline_reencoding 6 envSwelling photo bigBase64 _ biggerBase64
             (le_n 6) eq_refl envSwelling_choice).
  rewrite !filter_app, ocr_requests_answerEvents. reflexivity.
Qed.

(** ** What is posted, and how large *)





(* ================================================================== *)
(** * The component, and more about the pipeline *)

(** ** The two handlers *)

Lemma jsstring_eqb_refl s : jsstring_eqb s s = true.
Proof. unfold jsstring_eqb. destruct (list_eq_dec N.eq_dec s s); congruence. Qed.

Lemma jsstring_eqb_eq a b : jsstring_eqb a b = true <-> a = b.
Proof.
  unfold jsstring_eqb. destruct (list_eq_dec N.eq_dec a b); split; congruence.
Qed.

Lemma jsstring_eqb_neq a b : a <> b -> jsstring_eqb a b = false.
Proof.
  intros H. destruct (jsstring_eqb a b) eqn:E; [|reflexivity].
  apply jsstring_eqb_eq in E. contradiction.
Qed.

Lemma untilFirstAwait_app l :
  fst (untilFirstAwait l) ++ snd (untilFirstAwait l) = l.
Proof.
  induction l as [|e l IH]; [reflexivity|].
  simpl. destruct (resumes e); [reflexivity|].
  destruct (untilFirstAwait l) as [before rest]. simpl in *. congruence.
Qed.

Lemma detached_completion m : completion_of (detached m) = Normal tt.
Proof. unfold detached. destruct (untilFirstAwait (events m)); reflexivity. Qed.

(** Not awaiting a call changes when its steps happen, not which steps nor
    their order. *)
Lemma timeline_detached m : timeline (detached m) = timeline m.
Proof.
  unfold detached, timeline.
  pose proof (untilFirstAwait_app (events m)) as H.
  destruct (untilFirstAwait (events m)) as [before rest]. simpl in *.
  rewrite app_assoc, H. reflexivity.
Qed.

Lemma tbind_Normal {A B} ev lt (a : A) (k : A -> Task B) :
  tbind (mkTask ev lt (Normal a)) k =
  mkTask (ev ++ steps (k a)) (lt ++ afterwards (k a)) (outcome (k a)).
Proof. reflexivity. Qed.

Ltac task_step :=
  unfold temit, tsettle, tret, lift, emit;
  cbn [steps afterwards outcome events later completion_of app map negb];
  repeat (rewrite tbind_Normal;
          cbn [steps afterwards outcome events later completion_of app map negb]).

(** [pickImage], branch by branch. *)
Lemma pickImage_cases extractText picker :
  pickImage extractText picker =
  match requestMediaLibraryPermissionsAsync picker with
  | inl e => mkTask [MediaLibraryPermission (inl e)] [] (Thrown e)
  | inr status =>
      if jsstring_eqb status (js "granted") then
        match launchImageLibraryAsync picker with
        | inl e =>
            mkTask [MediaLibraryPermission (inr status);
                    LaunchImageLibrary (inl e)] [] (Thrown e)
        | inr result =>
            if canceled result then
              mkTask [MediaLibraryPermission (inr status);
                      LaunchImageLibrary (inr result)] [] (Normal tt)
            else
              match firstAssetUri result with
              | inl e =>
                  mkTask [MediaLibraryPermission (inr status);
                          LaunchImageLibrary (inr result)] [] (Thrown e)
              | inr u =>
                  mkTask ([MediaLibraryPermission (inr status);
                           LaunchImageLibrary (inr result); SetImageUri u]
                          ++ map Did (events (detached (extractText u))))
                         (map Did (later (detached (extractText u))))
                         (Normal tt)
              end
        end
      else
        mkTask [MediaLibraryPermission (inr status);
                Did (Alert (js "Permission required")
                           (js "Please grant access to your media library."))]
               [] (Normal tt)
  end.
Proof.
  unfold pickImage.
  destruct (requestMediaLibraryPermissionsAsync picker) as [e|status];
    [reflexivity|].
  task_step.
  destruct (jsstring_eqb status (js "granted")); [|reflexivity].
  destruct (launchImageLibraryAsync picker) as [e|result]; [reflexivity|].
  task_step.
  destruct (canceled result); [reflexivity|].
  destruct (firstAssetUri result) as [e|u]; [reflexivity|].
  task_step. rewrite detached_completion, ?app_nil_r. reflexivity.
Qed.

Lemma takePhoto_cases extractText picker :
  takePhoto extractText picker =
  match requestCameraPermissionsAsync picker with
  | inl e => mkTask [CameraPermission (inl e)] [] (Thrown e)
  | inr status =>
      if jsstring_eqb status (js "granted") then
        match launchCameraAsync picker with
        | inl e =>
            mkTask [CameraPermission (inr status); LaunchCamera (inl e)]
                   [] (Thrown e)
        | inr result =>
            if canceled result then
              mkTask [CameraPermission (inr status); LaunchCamera (inr result)]
                     [] (Normal tt)
            else
              match firstAssetUri result with
              | inl e =>
                  mkTask [CameraPermission (inr status);
                          LaunchCamera (inr result)] [] (Thrown e)
              | inr u =>
                  mkTask ([CameraPermission (inr status);
                           LaunchCamera (inr result); SetImageUri u]
                          ++ map Did (events (detached (extractText u))))
                         (map Did (later (detached (extractText u))))
                         (Normal tt)
              end
        end
      else
        mkTask [CameraPermission (inr status);
                Did (Alert (js "Permission required")
                           (js "Please grant camera permissions."))]
               [] (Normal tt)
  end.
Proof.
  unfold takePhoto.
  destruct (requestCameraPermissionsAsync picker) as [e|status];
    [reflexivity|].
  task_step.
  destruct (jsstring_eqb status (js "granted")); [|reflexivity].
  destruct (launchCameraAsync picker) as [e|result]; [reflexivity|].
  task_step.
  destruct (canceled result); [reflexivity|].
  destruct (firstAssetUri result) as [e|u]; [reflexivity|].
  task_step. rewrite detached_completion, ?app_nil_r. reflexivity.
Qed.

(** Either handler: the two functions differ in the calls they make and in
    the text of the alert, and in nothing else. *)
Lemma press_cases h extractText picker :
  press h extractText picker =
  match permissionOf h picker with
  | inl e => mkTask [asked h (inl e)] [] (Thrown e)
  | inr status =>
      if jsstring_eqb status (js "granted") then
        match launchOf h picker with
        | inl e =>
            mkTask [asked h (inr status); launched h (inl e)] [] (Thrown e)
        | inr result =>
            if canceled result then
              mkTask [asked h (inr status); launched h (inr result)]
                     [] (Normal tt)
            else
              match firstAssetUri result with
              | inl e =>
                  mkTask [asked h (inr status); launched h (inr result)]
                         [] (Thrown e)
              | inr u =>
                  mkTask ([asked h (inr status); launched h (inr result);
                           SetImageUri u]
                          ++ map Did (events (detached (extractText u))))
                         (map Did (later (detached (extractText u))))
                         (Normal tt)
              end
        end
      else mkTask [asked h (inr status); Did (refusal h)] [] (Normal tt)
  end.
Proof.
  destruct h; [apply takePhoto_cases|apply pickImage_cases].
Qed.

Lemma asked_not_Did h settled e : asked h settled <> Did e.
Proof. destruct h; discriminate. Qed.

Lemma launched_not_Did h settled e : launched h settled <> Did e.
Proof. destruct h; discriminate. Qed.

Lemma after_app s l1 l2 : after s (l1 ++ l2) = after (after s l1) l2.
Proof. apply fold_left_app. Qed.

Lemma after_asked s h settled l : after s (asked h settled :: l) = after s l.
Proof. destruct h; reflexivity. Qed.

Lemma after_launched s h settled l : after s (launched h settled :: l) = after s l.
Proof. destruct h; reflexivity. Qed.

(** X1. A press changes something on the screen, or starts a run, only if
    the permission status is "granted" and the picker returns a result that
    is not cancelled and has a first asset.  In every other case the state
    of the component is what it was, whatever it was, and the only step of
    the pipeline's kind that happens is the handler's own permission
    alert. *)
Theorem press_without_a_picture_changes_nothing h extractText picker :
  (exists result u,
      permissionOf h picker = inr (js "granted")
      /\ launchOf h picker = inr result
      /\ canceled result = false
      /\ firstAssetUri result = inr u)
  \/ ((forall s, after s (course (press h extractText picker)) = s)
      /\ (forall u, ~ In (SetImageUri u) (course (press h extractText picker)))
      /\ (forall e, In (Did e) (course (press h extractText picker)) ->
            e = refusal h)).
Proof.
  rewrite press_cases.
  destruct (permissionOf h picker) as [e|status] eqn:Hp.
  { right. unfold course. cbn [steps afterwards app]. split; [|split].
    - intros s. apply after_asked.
    - intros u [H|[]]. destruct h; discriminate.
    - intros ev [H|[]]. destruct (asked_not_Did _ _ _ H). }
  destruct (jsstring_eqb status (js "granted")) eqn:Hs.
  2:{ right. unfold course. cbn [steps afterwards app]. split; [|split].
      - intros s. rewrite after_asked. reflexivity.
      - intros u [H|[H|[]]]; [destruct h|]; discriminate.
      - intros ev [H|[H|[]]]; [destruct (asked_not_Did _ _ _ H)|congruence]. }
  apply jsstring_eqb_eq in Hs. subst status.
  destruct (launchOf h picker) as [e|result] eqn:Hl.
  { right. unfold course. cbn [steps afterwards app]. split; [|split].
    - intros s. rewrite after_asked, after_launched. reflexivity.
    - intros u [H|[H|[]]]; destruct h; discriminate.
    - intros ev [H|[H|[]]];
        [destruct (asked_not_Did _ _ _ H)|destruct (launched_not_Did _ _ _ H)]. }
  destruct (canceled result) eqn:Hc.
  { right. unfold course. cbn [steps afterwards app]. split; [|split].
    - intros s. rewrite after_asked, after_launched. reflexivity.
    - intros u [H|[H|[]]]; destruct h; discriminate.
    - intros ev [H|[H|[]]];
        [destruct (asked_not_Did _ _ _ H)|destruct (launched_not_Did _ _ _ H)]. }
  destruct (firstAssetUri result) as [e|u] eqn:Hu.
  { right. unfold course. cbn [steps afterwards app]. split; [|split].
    - intros s. rewrite after_asked, after_launched. reflexivity.
    - intros u [H|[H|[]]]; destruct h; discriminate.
    - intros ev [H|[H|[]]];
        [destruct (asked_not_Did _ _ _ H)|destruct (launched_not_Did _ _ _ H)]. }
  left. exists result, u. auto.
Qed.

(** X2. When the permission call resolves with any status other than
    "granted", the handler raises the alert "Permission required" with its
    own message and is done: the picker is not launched.  When the user
    backs out of the picker, the handler is done without a word.  In both
    cases the handler's promise is fulfilled. *)
Theorem press_refused_or_backed_out extractText picker :
  (forall status,
      requestMediaLibraryPermissionsAsync picker = inr status ->
      status <> js "granted" ->
      pickImage extractText picker =
      mkTask [MediaLibraryPermission (inr status);
              Did (Alert (js "Permission required")
                         (js "Please grant access to your media library."))]
             [] (Normal tt))
  /\ (forall status,
        requestCameraPermissionsAsync picker = inr status ->
        status <> js "granted" ->
        takePhoto extractText picker =
        mkTask [CameraPermission (inr status);
                Did (Alert (js "Permission required")
                           (js "Please grant camera permissions."))]
               [] (Normal tt))
  /\ (forall h result,
        permissionOf h picker = inr (js "granted") ->
        launchOf h picker = inr result ->
        canceled result = true ->
        press h extractText picker =
        mkTask [asked h (inr (js "granted")); launched h (inr result)]
               [] (Normal tt)).
Proof.
  split; [|split].
  - intros status Hp Hs. rewrite pickImage_cases, Hp.
    rewrite (jsstring_eqb_neq _ _ Hs). reflexivity.
  - intros status Hp Hs. rewrite takePhoto_cases, Hp.
    rewrite (jsstring_eqb_neq _ _ Hs). reflexivity.
  - intros h result Hp Hl Hc. rewrite press_cases, Hp, Hl, Hc.
    rewrite jsstring_eqb_refl. reflexivity.
Qed.

Lemma press_refused_or_backed_out_witness :
  pickImage (ResizeOnce.extractText 6 envHello) pickerDenied =
  mkTask [MediaLibraryPermission (inr (js "denied"));
          Did (Alert (js "Permission required")
                     (js "Please grant access to your media library."))]
         [] (Normal tt)
  /\ takePhoto (ResizeOnce.extractText 6 envHello) pickerBackedOut =
     mkTask [CameraPermission (inr (js "granted")); LaunchCamera (inr backedOut)]
            [] (Normal tt).
Proof.
  split.
  - apply (proj1 (press_refused_or_backed_out (ResizeOnce.extractText 6 envHello)
                    pickerDenied) (js "denied") eq_refl).
    discriminate.
  - exact (proj2 (proj2 (press_refused_or_backed_out
                           (ResizeOnce.extractText 6 envHello) pickerBackedOut))
                 TakePhoto backedOut eq_refl eq_refl eq_refl).
Defined.

(** X3. The handlers catch nothing.  A press is rejected exactly when its
    permission call rejects, or, with permission, its picker call rejects
    or returns a result that is not cancelled and has no first asset (a
    TypeError); and a press that is rejected has raised no alert and has
    left the state as it was. *)
Theorem press_rejects_with_the_picker h extractText picker e :
  (outcome (press h extractText picker) = Thrown e <->
   permissionOf h picker = inl e
   \/ (permissionOf h picker = inr (js "granted")
       /\ (launchOf h picker = inl e
           \/ exists result,
                launchOf h picker = inr result
                /\ canceled result = false
                /\ e = TypeError
                /\ (assets result = None \/ assets result = Some []))))
  /\ (outcome (press h extractText picker) = Thrown e ->
      (forall s, after s (course (press h extractText picker)) = s)
      /\ forall ev, ~ In (Did ev) (course (press h extractText picker))).
Proof.
  rewrite press_cases.
  destruct (permissionOf h picker) as [e'|status] eqn:Hp.
  { cbn [outcome]. split.
    - split; [intros H; left; congruence|].
      intros [H|[H _]]; congruence.
    - intros _. unfold course. cbn [steps afterwards app]. split.
      + intros s. apply after_asked.
      + intros ev [H|[]]. exact (asked_not_Did _ _ _ H). }
  destruct (jsstring_eqb status (js "granted")) eqn:Hs.
  2:{ cbn [outcome]. split; [|discriminate].
      split; [discriminate|].
      intros [H|[H _]]; [discriminate|].
      injection H as ->. rewrite jsstring_eqb_refl in Hs. discriminate. }
  apply jsstring_eqb_eq in Hs. subst status.
  destruct (launchOf h picker) as [e'|result] eqn:Hl.
  { cbn [outcome]. split.
    - split; [intros H; right; split; [reflexivity|left; congruence]|].
      intros [H|[_ [H|(result & H & _)]]]; congruence.
    - intros _. unfold course. cbn [steps afterwards app]. split.
      + intros s. rewrite after_asked, after_launched. reflexivity.
      + intros ev [H|[H|[]]];
          [exact (asked_not_Did _ _ _ H)|exact (launched_not_Did _ _ _ H)]. }
  destruct (canceled result) eqn:Hc.
  { cbn [outcome]. split; [|discriminate].
    split; [discriminate|].
    intros [H|[_ [H|(result' & H & Hc' & _)]]]; congruence. }
  unfold firstAssetUri.
  destruct (assets result) as [[|asset rest]|] eqn:Ha; cbn [outcome].
  - split.
    + split.
      * intros H. injection H as <-. right. split; [reflexivity|].
        right. exists result. auto.
      * intros [H|[_ [H|(result' & H & _ & -> & _)]]];
          try congruence; reflexivity.
    + intros _. unfold course. cbn [steps afterwards app]. split.
      * intros s. rewrite after_asked, after_launched. reflexivity.
      * intros ev [H|[H|[]]];
          [exact (asked_not_Did _ _ _ H)|exact (launched_not_Did _ _ _ H)].
  - split; [|discriminate].
    split; [discriminate|].
    intros [H|[_ [H|(result' & H & _ & _ & [Hn|Hn])]]]; congruence.
  - split.
    + split.
      * intros H. injection H as <-. right. split; [reflexivity|].
        right. exists result. auto.
      * intros [H|[_ [H|(result' & H & _ & -> & _)]]];
          try congruence; reflexivity.
    + intros _. unfold course. cbn [steps afterwards app]. split.
      * intros s. rewrite after_asked, after_launched. reflexivity.
      * intros ev [H|[H|[]]];
          [exact (asked_not_Did _ _ _ H)|exact (launched_not_Did _ _ _ H)].
Qed.

(** ** A run started by a press *)

Lemma events_bind_prefix {A B} (m : M A) (k : A -> M B) :
  exists rest, events (bind m k) = events m ++ rest.
Proof.
  unfold bind. destruct (completion_of m).
  - eexists. reflexivity.
  - exists []. symmetry. apply app_nil_r.
  - exists []. symmetry. apply app_nil_r.
Qed.

Lemma events_tryCatch_prefix {A} (body : M A) handler :
  exists rest, events (tryCatch body handler) = events body ++ rest.
Proof.
  unfold tryCatch. destruct (completion_of body).
  - exists []. symmetry. apply app_nil_r.
  - eexists. reflexivity.
  - exists []. symmetry. apply app_nil_r.
Qed.

Lemma events_tryFinally_prefix {A} (body : M A) finalizer :
  exists rest, events (tryFinally body finalizer) = events body ++ rest.
Proof.
  unfold tryFinally. destruct (completion_of body).
  - eexists. reflexivity.
  - eexists. reflexivity.
  - exists []. symmetry. apply app_nil_r.
Qed.

(** A run begins with the three resets, and then with what the preparation
    begins with. *)
Lemma events_extractTextWith prepare env :
  exists rest,
    events (extractTextWith prepare env) = resets ++ events prepare ++ rest.
Proof.
  unfold extractTextWith.
  destruct (events_tryFinally_prefix
              (tryCatch
                 (bind (emit (SetLoading true))
                    (fun _ => bind (emit (SetExtractedText []))
                       (fun _ => bind (emit (SetAiResult (JStr [])))
                          (fun _ => bind prepare (fun payload => submit env payload)))))
                 extractionFailed)
              (emit (SetLoading false))) as (r1 & ->).
  destruct (events_tryCatch_prefix
              (bind (emit (SetLoading true))
                 (fun _ => bind (emit (SetExtractedText []))
                    (fun _ => bind (emit (SetAiResult (JStr [])))
                       (fun _ => bind prepare (fun payload => submit env payload)))))
              extractionFailed) as (r2 & ->).
  unfold emit. rewrite !bind_Normal. cbn [events app].
  destruct (events_bind_prefix prepare (fun payload => submit env payload))
    as (r3 & ->).
  exists (r3 ++ r2 ++ r1). unfold resets. cbn [app].
  rewrite <- !app_assoc. reflexivity.
Qed.

Lemma awaitRead_events env fileUri :
  events (awaitRead env fileUri)
  = [ReadAsString fileUri (readAsStringAsync env fileUri)].
Proof.
  unfold awaitRead. destruct (readAsStringAsync env fileUri); reflexivity.
Qed.

(** Either preparation begins by awaiting a platform call. *)
Lemma prepareOf_begins rev fuel env u :
  exists e rest,
    events (prepareOf rev fuel env u) = e :: rest /\ resumes e = true.
Proof.
  destruct rev; cbn [prepareOf].
  - rewrite prepare1_shape. eexists _, _. split; reflexivity.
  - unfold FromOriginal.prepare.
    destruct (events_bind_prefix (awaitRead env u)
                (fun base64 => FromOriginal.choosePayload fuel env u base64))
      as (r1 & ->).
    rewrite awaitRead_events. eexists _, _. split; reflexivity.
Qed.

Lemma untilFirstAwait_resets e rest :
  resumes e = true ->
  untilFirstAwait (resets ++ e :: rest) = (resets, e :: rest).
Proof. intros H. cbn. rewrite H. reflexivity. Qed.

(** What a run that is not awaited does before its caller goes on: the
    three resets. *)
Lemma detached_extractTextOf rev fuel env u :
  events (detached (extractTextOf rev fuel env u)) = resets.
Proof.
  assert (E : extractTextOf rev fuel env u
              = extractTextWith (prepareOf rev fuel env u) env).
  { destruct rev; reflexivity. }
  rewrite E.
  destruct (events_extractTextWith (prepareOf rev fuel env u) env) as (r & Hev).
  destruct (prepareOf_begins rev fuel env u) as (e & rest & Hp & He).
  unfold detached. rewrite Hev, Hp. cbn [app].
  change (SetLoading true :: SetExtractedText [] :: SetAiResult (JStr [])
          :: e :: rest ++ r)
    with (resets ++ e :: (rest ++ r)).
  rewrite (untilFirstAwait_resets _ _ He). reflexivity.
Qed.

Lemma course_lift_detached m :
  map Did (events (detached m)) ++ map Did (later (detached m))
  = map Did (timeline m).
Proof.
  rewrite <- map_app. fold (timeline (detached m)).
  rewrite timeline_detached. reflexivity.
Qed.

(** A press that is granted permission and gets a picture, as a task. *)
Lemma press_picked h extractText picker result u :
  permissionOf h picker = inr (js "granted") ->
  launchOf h picker = inr result ->
  canceled result = false ->
  firstAssetUri result = inr u ->
  press h extractText picker
  = mkTask ([asked h (inr (js "granted")); launched h (inr result);
             SetImageUri u]
            ++ map Did (events (detached (extractText u))))
           (map Did (later (detached (extractText u))))
           (Normal tt).
Proof.
  intros Hp Hl Hc Hu.
  rewrite press_cases, Hp, Hl, Hc, Hu, jsstring_eqb_refl. reflexivity.
Qed.

(** X4. A press that is granted permission and gets a picture sets the
    preview to the uri of the first asset and calls [extractText] on that
    same uri without awaiting it.  By the time the handler returns, the run
    has done its three resets and nothing more; everything the run does
    follows in its own order; and the handler's promise is fulfilled
    whatever becomes of the run. *)
Theorem press_with_a_picture h rev fuel env picker result u :
  permissionOf h picker = inr (js "granted") ->
  launchOf h picker = inr result ->
  canceled result = false ->
  firstAssetUri result = inr u ->
  steps (press h (extractTextOf rev fuel env) picker)
  = [asked h (inr (js "granted")); launched h (inr result); SetImageUri u;
     Did (SetLoading true); Did (SetExtractedText []);
     Did (SetAiResult (JStr []))]
  /\ course (press h (extractTextOf rev fuel env) picker)
     = [asked h (inr (js "granted")); launched h (inr result); SetImageUri u]
       ++ map Did (timeline (extractTextOf rev fuel env u))
  /\ outcome (press h (extractTextOf rev fuel env) picker) = Normal tt.
Proof.
  intros Hp Hl Hc Hu.
  rewrite (press_picked h _ picker result u Hp Hl Hc Hu).
  unfold course. cbn [steps afterwards outcome].
  split; [|split; [|reflexivity]].
  - rewrite detached_extractTextOf. reflexivity.
  - rewrite <- app_assoc, course_lift_detached. reflexivity.
Qed.

Lemma press_with_a_picture_witness :
  course (press PickImage (extractTextOf Reencoding 6 envOffline) pickerGranted)
  = [MediaLibraryPermission (inr (js "granted"));
     LaunchImageLibrary (inr (picked photo)); SetImageUri photo]
    ++ map Did (timeline (extractTextOf Reencoding 6 envOffline photo))
  /\ outcome (press PickImage (extractTextOf Reencoding 6 envOffline) pickerGranted)
     = Normal tt.
Proof.
  exact (proj2 (press_with_a_picture PickImage Reencoding 6 envOffline
                  pickerGranted (picked photo) photo
                  eq_refl eq_refl eq_refl eq_refl)).
Defined.

(** ** What the screen shows *)

Lemma after_local s l : forallb isLocal l = true -> after s (map Did l) = s.
Proof.
  revert s. induction l as [|e l IH]; intros s; [reflexivity|].
  simpl. intros H. apply andb_true_iff in H. destruct H as [He Hl].
  destruct e; try discriminate; simpl; exact (IH s Hl).
Qed.

Lemma after_resets s :
  after s (map Did resets)
  = {| imageUri := imageUri s; extractedText := []; aiResult := JStr [];
       loading := true |}.
Proof. reflexivity. Qed.

(** What the analysis shows is never falsy. *)
Lemma resultOrFallback_truthy data shown :
  resultOrFallback data = inr shown -> truthy (Some shown) = true.
Proof.
  unfold resultOrFallback. destruct (get data (js "result")) as [e|r]; [discriminate|].
  intros H. injection H as <-.
  destruct (truthy r) eqn:Hr; [|reflexivity].
  destruct r as [v|]; [exact Hr|discriminate].
Qed.

Lemma explanation_truthy env text shown :
  explanation env text = inr shown -> truthy (Some shown) = true.
Proof.
  unfold explanation.
  destruct (fetch env (PostAnalyze text)) as [e|resp]; [discriminate|].
  destruct (json_body resp) as [e|data]; [discriminate|].
  apply resultOrFallback_truthy.
Qed.

(** The state after the part of a run that follows the preparation. *)
Lemma after_answerEvents s env payload :
  after s (map Did (answerEvents env payload))
  = {| imageUri := imageUri s;
       extractedText := match ocrResult env payload with
                        | inr text => text
                        | inl _ => extractedText s
                        end;
       aiResult := match ocrResult env payload with
                   | inr (c :: t) =>
                       match explanation env (c :: t) with
                       | inr shown => shown
                       | inl _ => aiResult s
                       end
                   | _ => aiResult s
                   end;
       loading := false |}.
Proof.
  unfold answerEvents, ocrResult.
  destruct (fetch env (PostOcr payload)) as [e|resp]; [reflexivity|].
  destruct (json_body resp) as [e|data]; [reflexivity|].
  destruct (parsedText data) as [e|[|c t]]; [reflexivity|reflexivity|].
  cbn [map app]. rewrite !map_app.
  change (map Did [SetLoading false]) with [Did (SetLoading false)].
  destruct (explanation env (c :: t)) as [e|shown]; reflexivity.
Qed.

(** The state at the end of a run, from any state: the preview is what it
    was, the busy flag is cleared, the text is the one the OCR stage
    yielded (none if the run failed before), and the explanation is the
    one the analysis showed (none if there was no text or the analysis
    failed). *)
Lemma after_run rev fuel env u s :
  (6 <= fuel)%nat ->
  after s (map Did (timeline (extractTextOf rev fuel env u)))
  = {| imageUri := imageUri s;
       extractedText :=
         match completion_of (prepareOf rev fuel env u) with
         | Normal payload =>
             match ocrResult env payload with
             | inr text => text
             | inl _ => []
             end
         | _ => []
         end;
       aiResult :=
         match completion_of (prepareOf rev fuel env u) with
         | Normal payload =>
             match ocrResult env payload with
             | inr (c :: t) =>
                 match explanation env (c :: t) with
                 | inr shown => shown
                 | inl _ => JStr []
                 end
             | _ => JStr []
             end
         | _ => JStr []
         end;
       loading := false |}.
Proof.
  intros Hfuel.
  destruct (run_facts rev fuel env u Hfuel) as (Hend & Hlocal & _ & Ht).
  rewrite Ht. unfold runEvents. rewrite !map_app, !after_app.
  rewrite after_resets, (after_local _ _ Hlocal).
  destruct (completion_of (prepareOf rev fuel env u)) as [payload|e|];
    [|reflexivity|congruence].
  rewrite after_answerEvents. reflexivity.
Qed.

Lemma after_press_with_a_picture h rev fuel env picker result u s :
  permissionOf h picker = inr (js "granted") ->
  launchOf h picker = inr result ->
  canceled result = false ->
  firstAssetUri result = inr u ->
  after s (course (press h (extractTextOf rev fuel env) picker))
  = after {| imageUri := Some u; extractedText := extractedText s;
             aiResult := aiResult s; loading := loading s |}
          (map Did (timeline (extractTextOf rev fuel env u))).
Proof.
  intros Hp Hl Hc Hu.
  rewrite (press_picked h _ picker result u Hp Hl Hc Hu).
  unfold course. cbn [steps afterwards].
  rewrite <- app_assoc, course_lift_detached, after_app. cbn [after fold_left].
  change (fold_left assign ?l ?s) with (after s l).
  destruct h; reflexivity.
Qed.

(** X5. A new run hides what the run before it left, at once: by the time
    the handler of the press returns, whatever the screen showed before,
    it shows the spinner and the new picture, and neither a text nor an
    explanation. *)
Theorem new_run_hides_old_results h rev fuel env picker result c t s :
  permissionOf h picker = inr (js "granted") ->
  launchOf h picker = inr result ->
  canceled result = false ->
  firstAssetUri result = inr (c :: t) ->
  HomeScreen (after s (steps (press h (extractTextOf rev fuel env) picker)))
  = ScrollView (heading ++ [ActivityIndicator; Image (c :: t); Skip; Skip]).
Proof.
  intros Hp Hl Hc Hu.
  rewrite (press_picked h _ picker result (c :: t) Hp Hl Hc Hu).
  cbn [steps]. rewrite detached_extractTextOf.
  destruct h; reflexivity.
Qed.

Lemma new_run_hides_old_results_witness :
  HomeScreen
    (after {| imageUri := Some (js "file:///old.jpg");
              extractedText := js "old text";
              aiResult := JStr (js "old explanation"); loading := false |}
       (steps (press TakePhoto (extractTextOf Resizing 6 envHello) pickerGranted)))
  = ScrollView (heading ++ [ActivityIndicator; Image photo; Skip; Skip]).
Proof.
  exact (new_run_hides_old_results TakePhoto Resizing 6 envHello pickerGranted
           (picked photo) 102%N (js "ile:///photo.jpg") _
           eq_refl eq_refl eq_refl eq_refl).
Defined.

(** *** Steps of other handlers in between *)

Lemma merged_alone {A} (a : list A) : merged a [] a.
Proof. induction a; constructor; assumption. Qed.

Lemma merged_other {A} (b : list A) : merged [] b b.
Proof. induction b; constructor; assumption. Qed.

(** The steps [b] come after all of [a]. *)
Lemma merged_then {A} (a b : list A) : merged a b (a ++ b).
Proof.
  induction a as [|x a IH]; cbn [app]; [apply merged_other|].
  apply merged_left. exact IH.
Qed.

(** The steps [b] fall between two parts of [a]. *)
Lemma merged_insert {A} (a1 a2 b : list A) :
  merged (a1 ++ a2) b (a1 ++ b ++ a2).
Proof.
  induction a1 as [|x a1 IH]; cbn [app].
  - induction b as [|y b IHb]; cbn [app].
    + apply merged_alone.
    + apply merged_right. exact IHb.
  - apply merged_left. exact IH.
Qed.

Lemma assign_sets_nothing s x : setsState x = false -> assign s x = s.
Proof.
  destruct s. destruct x as [| | | | |e]; try discriminate; try reflexivity.
  destruct e; try discriminate; reflexivity.
Qed.

(** Steps that call no setter leave the state where the others put it. *)
Lemma after_merged s a b l :
  merged a b l -> setsNothing b = true -> after s l = after s a.
Proof.
  intros Hm. revert s.
  induction Hm as [|x a b l Hm IH|x a b l Hm IH]; intros s Hb.
  - reflexivity.
  - cbn [after fold_left]. exact (IH (assign s x) Hb).
  - unfold setsNothing in Hb. cbn [forallb] in Hb.
    apply andb_true_iff in Hb. destruct Hb as [Hx Hb].
    apply negb_true_iff in Hx.
    cbn [after fold_left]. rewrite (assign_sets_nothing s x Hx).
    exact (IH s Hb).
Qed.

(** X6. When a run started by a press fails, at any stage before a text
    is found, or finds no text, and no other handler or run sets state
    while it is under way, the screen is left with the new picture and
    nothing else: no spinner, no text, no explanation, whatever it showed
    before the press and whatever else happened in between. *)
Theorem screen_after_a_run_without_text h rev fuel env picker result c t s
    others l :
  (6 <= fuel)%nat ->
  permissionOf h picker = inr (js "granted") ->
  launchOf h picker = inr result ->
  canceled result = false ->
  firstAssetUri result = inr (c :: t) ->
  (forall payload,
      completion_of (prepareOf rev fuel env (c :: t)) = Normal payload ->
      ocrResult env payload = inr []
      \/ exists e, ocrResult env payload = inl e) ->
  merged (course (press h (extractTextOf rev fuel env) picker)) others l ->
  setsNothing others = true ->
  after s l
  = {| imageUri := Some (c :: t); extractedText := []; aiResult := JStr [];
       loading := false |}
  /\ HomeScreen (after s l)
     = ScrollView (heading ++ [Skip; Image (c :: t); Skip; Skip]).
Proof.
  intros Hfuel Hp Hl Hc Hu Hnone Hm Hothers.
  assert (E : after s l
              = {| imageUri := Some (c :: t); extractedText := [];
                   aiResult := JStr []; loading := false |}).
  { rewrite (after_merged s _ _ _ Hm Hothers).
    rewrite (after_press_with_a_picture h rev fuel env picker result (c :: t) s
               Hp Hl Hc Hu).
    rewrite (after_run rev fuel env (c :: t) _ Hfuel). cbn [imageUri].
    destruct (completion_of (prepareOf rev fuel env (c :: t))) as [payload|e|];
      [|reflexivity|reflexivity].
    destruct (Hnone payload eq_refl) as [H|(e & H)]; rewrite H; reflexivity. }
  split; [exact E|]. rewrite E. reflexivity.
Qed.

(** The network is down; while the run is under way the other button is
    pressed and permission is refused. *)
Lemma screen_after_a_run_without_text_witness :
  HomeScreen
    (after {| imageUri := Some (js "file:///old.jpg");
              extractedText := js "old text";
              aiResult := JStr (js "old explanation"); loading := false |}
       ([MediaLibraryPermission (inr (js "granted"));
         LaunchImageLibrary (inr (picked photo)); SetImageUri photo;
         Did (SetLoading true); Did (SetExtractedText []);
         Did (SetAiResult (JStr []))]
        ++ course (press TakePhoto (extractTextOf Reencoding 6 envOffline)
                     pickerDenied)
        ++ map Did
             [ReadAsString photo (inr smallBase64);
              FetchSent (PostOcr (formOf smallBase64));
              FetchSettled (inl (Rejected (js "Network request failed")));
              ConsoleError (Rejected (js "Network request failed"));
              Alert (js "Error") (js "Failed to extract text.");
              SetLoading false]))
  = ScrollView (heading ++ [Skip; Image photo; Skip; Skip]).
Proof.
  refine (proj2 (screen_after_a_run_without_text PickImage Reencoding 6
                   envOffline pickerGranted (picked photo)
                   102%N (js "ile:///photo.jpg") _
                   (course (press TakePhoto (extractTextOf Reencoding 6 envOffline)
                              pickerDenied))
                   _
                   (le_n 6) eq_refl eq_refl eq_refl eq_refl _
                   (merged_insert
                      [MediaLibraryPermission (inr (js "granted"));
                       LaunchImageLibrary (inr (picked photo)); SetImageUri photo;
                       Did (SetLoading true); Did (SetExtractedText []);
                       Did (SetAiResult (JStr []))]
                      _ _)
                   eq_refl)).
  intros payload H. injection H as <-. right. eexists. reflexivity.
Defined.

(** X7. When a run started by a press finds a text, and no other handler
    or run sets state while it is under way, the screen is left with the
    new picture and the text; and with the explanation exactly when the
    analysis did not fail, for what the analysis shows is never falsy. *)
Theorem screen_after_a_run_with_text h rev fuel env picker result c t s
    payload c' t' others l :
  (6 <= fuel)%nat ->
  permissionOf h picker = inr (js "granted") ->
  launchOf h picker = inr result ->
  canceled result = false ->
  firstAssetUri result = inr (c :: t) ->
  completion_of (prepareOf rev fuel env (c :: t)) = Normal payload ->
  ocrResult env payload = inr (c' :: t') ->
  merged (course (press h (extractTextOf rev fuel env) picker)) others l ->
  setsNothing others = true ->
  HomeScreen (after s l)
  = ScrollView
      (heading
       ++ [Skip; Image (c :: t);
           View [Text (JStr ([55357; 56541]%N ++ js " Extracted Text:"));
                 Text (JStr (c' :: t'))];
           match explanation env (c' :: t') with
           | inr shown =>
               View [Text (JStr ([55358; 56598]%N ++ js " AI Explanation:"));
                     Text shown]
           | inl _ => Skip
           end]).
Proof.
  intros Hfuel Hp Hl Hc Hu Hprep Hocr Hm Hothers.
  rewrite (after_merged s _ _ _ Hm Hothers).
  rewrite (after_press_with_a_picture h rev fuel env picker result (c :: t) s
             Hp Hl Hc Hu).
  rewrite (after_run rev fuel env (c :: t) _ Hfuel). cbn [imageUri].
  rewrite Hprep, Hocr.
  unfold HomeScreen, spinner, preview, textBox, explanationBox.
  cbn [imageUri extractedText aiResult loading].
  destruct (explanation env (c' :: t')) as [e|shown] eqn:He.
  - reflexivity.
  - rewrite (explanation_truthy _ _ _ He). reflexivity.
Qed.

(** The analysis endpoint cannot be reached; after the run the other
    button is pressed and the user backs out of the picker. *)
Lemma screen_after_a_run_with_text_witness :
  HomeScreen
    (after initial
       (course (press TakePhoto (extractTextOf Reencoding 6 envNoAnalysis)
                  pickerGranted)
        ++ course (press PickImage (extractTextOf Reencoding 6 envNoAnalysis)
                     pickerBackedOut)))
  = ScrollView
      (heading
       ++ [Skip; Image photo;
           View [Text (JStr ([55357; 56541]%N ++ js " Extracted Text:"));
                 Text (JStr (js "hello world"))];
           Skip]).
Proof.
  refine (screen_after_a_run_with_text TakePhoto Reencoding 6 envNoAnalysis
            pickerGranted (picked photo) 102%N (js "ile:///photo.jpg") initial
            (formOf smallBase64) 104%N (js "ello world")
            (course (press PickImage (extractTextOf Reencoding 6 envNoAnalysis)
                       pickerBackedOut))
            _
            (le_n 6) eq_refl eq_refl eq_refl eq_refl eq_refl eq_refl _ eq_refl).
  apply merged_then.
Defined.

(** X8. What a run started by a press leaves on the screen does not
    depend on what was there before the press: the picture is replaced,
    the text and the explanation are reset first, and the flag is cleared
    last. *)
Theorem a_run_leaves_nothing_of_what_was_there h rev fuel env picker result u
    s s' :
  (6 <= fuel)%nat ->
  permissionOf h picker = inr (js "granted") ->
  launchOf h picker = inr result ->
  canceled result = false ->
  firstAssetUri result = inr u ->
  after s (course (press h (extractTextOf rev fuel env) picker))
  = after s' (course (press h (extractTextOf rev fuel env) picker)).
Proof.
  intros Hfuel Hp Hl Hc Hu.
  rewrite !(after_press_with_a_picture h rev fuel env picker result u _
              Hp Hl Hc Hu).
  rewrite !(after_run rev fuel env u _ Hfuel). reflexivity.
Qed.

Lemma a_run_leaves_nothing_of_what_was_there_witness :
  after {| imageUri := Some (js "file:///old.jpg");
           extractedText := js "old text";
           aiResult := JStr (js "old explanation"); loading := true |}
    (course (press PickImage (extractTextOf Reencoding 6 envHello) pickerGranted))
  = after initial
      (course (press PickImage (extractTextOf Reencoding 6 envHello) pickerGranted)).
Proof.
  exact (a_run_leaves_nothing_of_what_was_there PickImage Reencoding 6 envHello
           pickerGranted (picked photo) photo _ _
           (le_n 6) eq_refl eq_refl eq_refl eq_refl).
Defined.

(** X9. While the analysis request of a run is in flight the spinner is
    not shown, unless another handler or run has set state meanwhile.
    [analyzeWithAI] is called without being awaited, so the [finally] of
    [extractText] clears the flag as soon as the request has gone out:
    when the answer arrives, the screen shows the text without a spinner
    and without an explanation. *)
Theorem no_spinner_while_the_analysis_is_pending rev fuel env u payload c t :
  (6 <= fuel)%nat ->
  completion_of (prepareOf rev fuel env u) = Normal payload ->
  ocrResult env payload = inr (c :: t) ->
  exists before rest,
    timeline (extractTextOf rev fuel env u)
    = before ++ FetchSettled (fetch env (PostAnalyze (c :: t))) :: rest
    /\ In (FetchSent (PostAnalyze (c :: t))) before
    /\ existsb isAnalyzeRequest rest = false
    /\ forall s others l,
         merged (map Did before) others l ->
         setsNothing others = true ->
         HomeScreen (after s l)
         = ScrollView
             (heading
              ++ [Skip; preview s;
                  View [Text (JStr ([55357; 56541]%N ++ js " Extracted Text:"));
                        Text (JStr (c :: t))];
                  Skip]).
Proof.
  intros Hfuel Hprep Hocr.
  destruct (run_facts rev fuel env u Hfuel) as (_ & Hlocal & _ & Ht).
  rewrite Ht, Hprep. unfold runEvents. rewrite (answerEvents_text _ _ _ _ Hocr).
  set (prepared := events (prepareOf rev fuel env u)) in *.
  set (head := [FetchSent (PostOcr payload); FetchSettled (fetch env (PostOcr payload));
                Console LogLevel (js "OCR Response:"); SetExtractedText (c :: t);
                Console LogLevel (js "Extracted Text:");
                SetLoading true; FetchSent (PostAnalyze (c :: t)); SetLoading false]).
  exists (resets ++ prepared ++ head),
         (explainedEvents (explanation env (c :: t)) ++ [SetLoading false]).
  split; [rewrite <- !app_assoc; reflexivity|]. split; [|split].
  - apply in_or_app. right. apply in_or_app. right.
    unfold head. cbn. tauto.
  - rewrite existsb_app. destruct (explanation env (c :: t)); reflexivity.
  - intros s others l Hm Hothers.
    rewrite (after_merged s _ _ _ Hm Hothers).
    rewrite !map_app, !after_app, after_resets, (after_local _ _ Hlocal).
    reflexivity.
Qed.

(** A run of the second revision that finds "hello world"; meanwhile the
    other button is pressed and permission is refused. *)
Lemma no_spinner_while_the_analysis_is_pending_witness :
  exists before rest,
    timeline (extractTextOf Reencoding 6 envHello photo)
    = before
      ++ FetchSettled (fetch envHello (PostAnalyze (js "hello world"))) :: rest
    /\ HomeScreen
         (after initial
            (map Did before
             ++ course (press TakePhoto (extractTextOf Reencoding 6 envHello)
                          pickerDenied)))
       = ScrollView
           (heading
            ++ [Skip; Skip;
                View [Text (JStr ([55357; 56541]%N ++ js " Extracted Text:"));
                      Text (JStr (js "hello world"))];
                Skip]).
Proof.
  destruct (no_spinner_while_the_analysis_is_pending Reencoding 6 envHello photo
              (formOf smallBase64) 104%N (js "ello world")
              (le_n 6) eq_refl eq_refl)
    as (before & rest & Ht & _ & _ & Hs).
  exists before, rest. split; [exact Ht|].
  assert (Hm : merged (map Did before)
                 (course (press TakePhoto (extractTextOf Reencoding 6 envHello)
                            pickerDenied))
                 (map Did before
                  ++ course (press TakePhoto (extractTextOf Reencoding 6 envHello)
                               pickerDenied))).
  { apply merged_then. }
  exact (Hs initial _ _ Hm eq_refl).
Defined.

(** What the analysis of a run does once its answer has arrived. *)
Lemma late_steps rev fuel env u payload c t :
  (6 <= fuel)%nat ->
  completion_of (prepareOf rev fuel env u) = Normal payload ->
  ocrResult env payload = inr (c :: t) ->
  later (extractTextOf rev fuel env u)
  = FetchSettled (fetch env (PostAnalyze (c :: t)))
    :: explainedEvents (explanation env (c :: t)) ++ [SetLoading false].
Proof.
  intros Hfuel Hprep Hocr. destruct rev; cbn [prepareOf extractTextOf] in *.
  - rewrite prepare1_shape in Hprep. discriminate.
  - destruct (prepare2_run env fuel u Hfuel) as (Heq & _ & Hlater & _).
    unfold FromOriginal.extractText. rewrite Heq in Hprep |- *.
    rewrite (extractTextWith_submit_normal env _ payload _ _ Hprep Hlater
               (submit_text env payload c t Hocr)).
    reflexivity.
Qed.

(** X25. Nothing keeps the steps of two runs apart.  When the explanation
    of an earlier run arrives after a later press has done its resets, and
    the run of that press fails or finds no text, the screen is left with
    the new picture and the explanation of the earlier one. *)
Theorem a_late_explanation_outlives_a_failed_run h rev fuel env picker result
    c t s rev0 env0 u0 payload0 c0 t0 shown :
  (6 <= fuel)%nat ->
  permissionOf h picker = inr (js "granted") ->
  launchOf h picker = inr result ->
  canceled result = false ->
  firstAssetUri result = inr (c :: t) ->
  (forall payload,
      completion_of (prepareOf rev fuel env (c :: t)) = Normal payload ->
      ocrResult env payload = inr []
      \/ exists e, ocrResult env payload = inl e) ->
  completion_of (prepareOf rev0 fuel env0 u0) = Normal payload0 ->
  ocrResult env0 payload0 = inr (c0 :: t0) ->
  explanation env0 (c0 :: t0) = inr shown ->
  exists l,
    merged (course (press h (extractTextOf rev fuel env) picker))
           (map Did (later (extractTextOf rev0 fuel env0 u0))) l
    /\ l = steps (press h (extractTextOf rev fuel env) picker)
           ++ map Did (later (extractTextOf rev0 fuel env0 u0))
           ++ afterwards (press h (extractTextOf rev fuel env) picker)
    /\ after s l
       = {| imageUri := Some (c :: t); extractedText := []; aiResult := shown;
            loading := false |}
    /\ HomeScreen (after s l)
       = ScrollView
           (heading
            ++ [Skip; Image (c :: t); Skip;
                View [Text (JStr ([55358; 56598]%N ++ js " AI Explanation:"));
                      Text shown]]).
Proof.
  intros Hfuel Hp Hl Hc Hu Hnone Hprep0 Hocr0 Hshown.
  set (late := map Did (later (extractTextOf rev0 fuel env0 u0))).
  exists (steps (press h (extractTextOf rev fuel env) picker) ++ late
          ++ afterwards (press h (extractTextOf rev fuel env) picker)).
  split; [apply merged_insert|]. split; [reflexivity|].
  assert (E : after s (steps (press h (extractTextOf rev fuel env) picker) ++ late
                       ++ afterwards (press h (extractTextOf rev fuel env) picker))
              = {| imageUri := Some (c :: t); extractedText := [];
                   aiResult := shown; loading := false |}).
  { unfold late.
    rewrite (late_steps rev0 fuel env0 u0 payload0 c0 t0 Hfuel Hprep0 Hocr0), Hshown.
    rewrite (press_picked h _ picker result (c :: t) Hp Hl Hc Hu).
    cbn [steps afterwards]. rewrite detached_extractTextOf.
    assert (Hrest : map Did (later (detached (extractTextOf rev fuel env (c :: t))))
                    = map Did (skipn 3 (timeline (extractTextOf rev fuel env (c :: t))))).
    { f_equal. rewrite <- (timeline_detached (extractTextOf rev fuel env (c :: t))).
      unfold timeline at 1. rewrite detached_extractTextOf. reflexivity. }
    rewrite Hrest.
    destruct (run_facts rev fuel env (c :: t) Hfuel) as (Hend & Hlocal & _ & Ht).
    rewrite Ht. unfold runEvents. cbn [skipn resets app].
    rewrite after_asked, after_launched.
    change (after s (SetImageUri (c :: t) :: ?l))
      with (after (assign s (SetImageUri (c :: t))) l).
    rewrite !after_app, after_resets.
    cbn [map app explainedEvents after fold_left assign
         imageUri extractedText aiResult loading].
    change (fold_left assign ?l ?s) with (after s l).
    rewrite map_app, after_app, (after_local _ _ Hlocal).
    destruct (completion_of (prepareOf rev fuel env (c :: t))) as [payload|e|];
      [|destruct h; reflexivity|congruence].
    rewrite after_answerEvents.
    destruct (Hnone payload eq_refl) as [H|(e & H)]; rewrite H;
      destruct h; reflexivity. }
  split; [exact E|]. rewrite E.
  unfold HomeScreen, spinner, preview, textBox, explanationBox.
  cbn [imageUri extractedText aiResult loading].
  rewrite (explanation_truthy _ _ _ Hshown). reflexivity.
Qed.

(** A run that found "hello world" and whose explanation is late; a second
    press meanwhile, with the network down. *)
Lemma a_late_explanation_outlives_a_failed_run_witness :
  exists l,
    merged (course (press PickImage (extractTextOf Reencoding 6 envOffline)
                      pickerGranted))
           (map Did (later (extractTextOf Reencoding 6 envHello photo))) l
    /\ HomeScreen (after initial l)
       = ScrollView
           (heading
            ++ [Skip; Image photo; Skip;
                View [Text (JStr ([55358; 56598]%N ++ js " AI Explanation:"));
                      Text (JStr (js "A greeting."))]]).
Proof.
  destruct (a_late_explanation_outlives_a_failed_run PickImage Reencoding 6
              envOffline pickerGranted (picked photo)
              102%N (js "ile:///photo.jpg") initial
              Reencoding envHello photo (formOf smallBase64)
              104%N (js "ello world") (JStr (js "A greeting."))
              (le_n 6) eq_refl eq_refl eq_refl eq_refl)
    as (l & Hm & _ & _ & Hscreen);
    [intros payload H; injection H as <-; right; eexists; reflexivity
    |reflexivity|reflexivity|reflexivity|].
  exists l. split; [exact Hm|exact Hscreen].
Defined.

(** ** The size of a base64 text *)

Lemma three_quarters_up n q r :
  (n * 3 + 3 = 4 * q + r)%N -> (r < 4)%N ->
  (3 * n <= 4 * q < 3 * n + 4)%N
  /\ ((q <=? 1024 * 1024)%N = (n <=? 1398101)%N).
Proof.
  intros Hd Hr. split; [lia|].
  destruct (N.leb_spec q (1024 * 1024)); destruct (N.leb_spec n 1398101);
    try reflexivity; lia.
Qed.

(** X10. [calcBytes] is three quarters of the length of the text, rounded
    up; it grows with the length; and a text is within the limit of the
    second revision exactly when it has at most 1,398,101 characters. *)
Theorem calcBytes_is_the_ceiling b64 :
  (3 * N.of_nat (List.length b64) <= 4 * FromOriginal.calcBytes b64
   < 3 * N.of_nat (List.length b64) + 4)%N
  /\ (forall longer,
        (List.length b64 <= List.length longer)%nat ->
        (FromOriginal.calcBytes b64 <= FromOriginal.calcBytes longer)%N)
  /\ ((FromOriginal.calcBytes b64 <=? FromOriginal.maxBytes)%N
      = (N.of_nat (List.length b64) <=? 1398101)%N).
Proof.
  unfold FromOriginal.calcBytes, FromOriginal.maxBytes.
  destruct (three_quarters_up (N.of_nat (List.length b64))
              ((N.of_nat (List.length b64) * 3 + 3) / 4)
              ((N.of_nat (List.length b64) * 3 + 3) mod 4)
              (N.div_mod' _ _)
              (N.mod_lt (N.of_nat (List.length b64) * 3 + 3) 4 (N.neq_succ_0 3)))
    as (Hceil & Hlimit).
  split; [exact Hceil|]. split; [|exact Hlimit].
  intros longer Hlen. apply N.Div0.div_le_mono. lia.
Qed.

(** ** What the compression steps encode, and when they stop *)

Lemma flat_map_quiet {B} (f : event -> list B) l :
  (forall e, quiet e = true -> f e = []) ->
  forallb quiet l = true -> flat_map f l = [].
Proof.
  intros Hf. induction l as [|e l IH]; [reflexivity|].
  simpl. intros H. apply andb_true_iff in H. destruct H as [He Hl].
  rewrite (Hf e He), (IH Hl). reflexivity.
Qed.

Lemma flat_map_around {B} (f : event -> list B) pre l post :
  (forall e, quiet e = true -> f e = []) ->
  forallb quiet pre = true -> forallb quiet post = true ->
  flat_map f (pre ++ l ++ post) = flat_map f l.
Proof.
  intros Hf Hpre Hpost.
  rewrite !flat_map_app, (flat_map_quiet f pre Hf Hpre),
    (flat_map_quiet f post Hf Hpost).
  apply app_nil_r.
Qed.

(** The events of the inner [try] block are those of its loop, if it gets
    that far, between an import and a line on the console. *)
Lemma choosePayload_events fuel env u base64 :
  exists pre inner post,
    events (FromOriginal.choosePayload fuel env u base64) = pre ++ inner ++ post
    /\ forallb quiet pre = true
    /\ forallb quiet post = true
    /\ (inner = []
        \/ (tooLong base64 = true
            /\ importImageManipulator env = None
            /\ inner = events (FromOriginal.compressLoop fuel env u 0.9%float None))).
Proof.
  unfold FromOriginal.choosePayload, tooLong.
  destruct (FromOriginal.maxBytes <? FromOriginal.calcBytes base64)%N.
  2:{ exists [], [], []. auto. }
  destruct (importImageManipulator env) as [e|].
  { exists [ImportManipulator (Some e)], [],
      [Console WarnLevel
         (js "Image compression step failed, continuing with original image:")].
    auto. }
  destruct (FromOriginal.compressLoop fuel env u 0.9%float None)
    as [ev lt [[q' m']|e|]] eqn:Hloop; cbn [events].
  - destruct m' as [[|c s]|]; cbn;
      eexists [ImportManipulator None], ev, [_];
      (split; [reflexivity|]); (split; [reflexivity|]); (split; [reflexivity|]);
      right; auto.
  - cbn. eexists [ImportManipulator None], ev, [_].
    split; [reflexivity|]. split; [reflexivity|]. split; [reflexivity|].
    right; auto.
  - cbn. exists [ImportManipulator None], ev, []. rewrite ?app_nil_r.
    split; [reflexivity|]. split; [reflexivity|]. split; [reflexivity|].
    right; auto.
Qed.

Lemma variantOf_quiet e : quiet e = true -> variantOf e = [].
Proof. destruct e; try discriminate; reflexivity. Qed.

Lemma callOf_quiet e : quiet e = true -> callOf e = [].
Proof. destruct e; try discriminate; reflexivity. Qed.

Lemma readOf_quiet e : quiet e = true -> readOf e = [].
Proof. destruct e; try discriminate; reflexivity. Qed.

Lemma fits_not_tooLong b :
  (FromOriginal.calcBytes b <=? FromOriginal.maxBytes)%N = true ->
  tooLong b = false.
Proof. intros H. apply N.leb_le in H. apply N.ltb_ge. exact H. Qed.

Lemma oversized_tooLong b :
  (FromOriginal.calcBytes b <=? FromOriginal.maxBytes)%N = false ->
  tooLong b = true.
Proof. intros H. apply N.leb_gt in H. apply N.ltb_lt. exact H. Qed.

(** The loop of the second revision goes on past a variant only if the
    variant is over the limit, and ends at once with the variant that is
    not. *)
Lemma compressLoop_first_fit env u n :
  forall q m,
    forallb tooLong (variants (events (FromOriginal.compressLoop n env u q m))) = true
    \/ exists before b q',
         variants (events (FromOriginal.compressLoop n env u q m)) = before ++ [b]
         /\ forallb tooLong before = true
         /\ tooLong b = false
         /\ completion_of (FromOriginal.compressLoop n env u q m)
            = Normal (q', Some b).
Proof.
  induction n as [|n IH]; intros q m.
  - left. simpl. destruct (0.1 <=? q)%float; reflexivity.
  - destruct (0.1 <=? q)%float eqn:G.
    2:{ left. rewrite compressLoop_exit by exact G. reflexivity. }
    rewrite compressLoop_step by exact G.
    set (opts := {| compress := q; want_base64 := true |}).
    destruct (manipulateAsync env u [] opts) as [e|r] eqn:Hm.
    { left. rewrite (awaitManipulate_err _ _ _ _ _ Hm), bind_Thrown. reflexivity. }
    rewrite (awaitManipulate_ok _ _ _ _ _ Hm), bind_Normal.
    destruct (FromOriginal.nonEmpty (base64_of r)) eqn:Hne.
    2:{ left. cbn [events app ret]. unfold variants. cbn [flat_map].
        rewrite (variantOf_none u [] opts r Hne). reflexivity. }
    destruct (base64_of r) as [b64|] eqn:Hb; [|discriminate].
    pose proof (variantOf_some u [] opts r b64 Hb Hne) as Hv.
    destruct (FromOriginal.calcBytes b64 <=? FromOriginal.maxBytes)%N eqn:Hfit.
    + right. exists [], b64, q. cbn [events later completion_of app ret].
      unfold variants. cbn [flat_map]. rewrite Hv.
      split; [reflexivity|]. split; [reflexivity|].
      split; [exact (fits_not_tooLong _ Hfit)|reflexivity].
    + cbn [events later completion_of app]. unfold variants. cbn [flat_map].
      rewrite Hv. cbn [app].
      change (flat_map variantOf ?l) with (variants l).
      destruct (IH (q - 0.15)%float (Some b64))
        as [Hall|(before & b & q' & Hvs & Hall & Hb' & Hc)].
      * left. cbn [forallb]. rewrite Hall, (oversized_tooLong _ Hfit). reflexivity.
      * right. exists (b64 :: before), b, q'. rewrite Hvs.
        split; [reflexivity|]. split; [|auto].
        cbn [forallb]. rewrite Hall, (oversized_tooLong _ Hfit). reflexivity.
Qed.

Lemma only_the_last_fits {A} (f : A -> bool) before0 b0 before b rest :
  before0 ++ [b0] = before ++ b :: rest ->
  forallb f before0 = true -> f b = false ->
  rest = [] /\ b = b0 /\ before = before0.
Proof.
  revert before. induction before0 as [|a l IH]; intros before Heq Hall Hb.
  - destruct before as [|a' before'].
    + injection Heq as <- <-. auto.
    + injection Heq as _ Heq. destruct before'; discriminate.
  - cbn in Hall. apply andb_true_iff in Hall. destruct Hall as [Ha Hl].
    destruct before as [|a' before'].
    + injection Heq as <- _. congruence.
    + injection Heq as <- Heq.
      destruct (IH before' Heq Hl Hb) as (-> & -> & ->). auto.
Qed.

Lemma forallb_middle {A} (f : A -> bool) before b rest :
  forallb f (before ++ b :: rest) = true -> f b = true.
Proof.
  rewrite forallb_app. cbn. intros H.
  apply andb_true_iff in H. destruct H as [_ H].
  apply andb_true_iff in H. tauto.
Qed.

(** X11. In the second revision, a variant that is within the limit is the
    last one the encoder is asked for, every variant before it was over the
    limit, and it is the one that is posted.  So what is posted, when
    something fits, is the variant of the highest quality tried that
    fits. *)
Theorem the_first_variant_that_fits_is_sent fuel env u base64 before b rest :
  variants (events (FromOriginal.choosePayload fuel env u base64))
  = before ++ b :: rest ->
  tooLong b = false ->
  rest = []
  /\ forallb tooLong before = true
  /\ completion_of (FromOriginal.choosePayload fuel env u base64)
     = Normal (formOf b).
Proof.
  intros Hvs Hb.
  destruct (choosePayload_events fuel env u base64)
    as (pre & inner & post & Hev & Hpre & Hpost & Hinner).
  unfold variants in Hvs.
  rewrite Hev, (flat_map_around variantOf pre inner post variantOf_quiet Hpre Hpost)
    in Hvs.
  destruct Hinner as [->|(Hbig & Himp & ->)].
  { destruct before; discriminate. }
  fold (variants (events (FromOriginal.compressLoop fuel env u 0.9%float None))) in Hvs.
  destruct (compressLoop_first_fit env u fuel 0.9%float None)
    as [Hall|(before0 & b0 & q' & Hvs0 & Hall & Hb0 & Hc)].
  { rewrite Hvs in Hall. rewrite (forallb_middle _ _ _ _ Hall) in Hb. discriminate. }
  rewrite Hvs in Hvs0. symmetry in Hvs0.
  destruct (only_the_last_fits tooLong before0 b0 before b rest Hvs0 Hall Hb)
    as (-> & -> & ->).
  split; [reflexivity|]. split; [exact Hall|].
  assert (Hne : FromOriginal.nonEmpty (Some b0) = true).
  { pose proof (variants_nonEmpty
                  (events (FromOriginal.compressLoop fuel env u 0.9%float None)))
      as Hn.
    rewrite Hvs, Forall_app in Hn. destruct Hn as [_ Hn].
    inversion Hn; assumption. }
  unfold FromOriginal.choosePayload. unfold tooLong in Hbig. rewrite Hbig, Himp.
  destruct (FromOriginal.compressLoop fuel env u 0.9%float None)
    as [ev lt c]. cbn [completion_of] in Hc. subst c.
  destruct b0 as [|ch s]; [discriminate|]. reflexivity.
Qed.

(** The second revision on an original over the limit whose first encoding
    is within it. *)
Lemma choosePayload_first_encoding_fits fuel env u base64 r c s :
  (FromOriginal.maxBytes < FromOriginal.calcBytes base64)%N ->
  importImageManipulator env = None ->
  manipulateAsync env u [] {| compress := 0.9; want_base64 := true |} = inr r ->
  base64_of r = Some (c :: s) ->
  (FromOriginal.calcBytes (c :: s) <= FromOriginal.maxBytes)%N ->
  FromOriginal.choosePayload (S fuel) env u base64 =
  mkM [ImportManipulator None;
       Manipulate u [] {| compress := 0.9; want_base64 := true |} (inr r);
       Console LogLevel (js "Compressed image to bytes:")]
      [] (Normal (formOf (c :: s))).
Proof.
  intros Hbig Himp Hm Hb Hfit. unfold FromOriginal.choosePayload.
  apply N.ltb_lt in Hbig. rewrite Hbig, Himp.
  rewrite compressLoop_step by reflexivity.
  rewrite (awaitManipulate_ok _ _ _ _ _ Hm), bind_Normal, Hb.
  apply N.leb_le in Hfit. cbn [FromOriginal.nonEmpty]. rewrite Hfit. reflexivity.
Qed.

Lemma envHeavy_choice :
  FromOriginal.choosePayload 6 envHeavy photo bigBase64
  = mkM [ImportManipulator None;
         Manipulate photo [] {| compress := 0.9; want_base64 := true |}
           (inr {| uri_of := js "file:///out.jpg"; base64_of := Some smallBase64 |});
         Console LogLevel (js "Compressed image to bytes:")]
        [] (Normal (formOf smallBase64)).
Proof.
  apply (choosePayload_first_encoding_fits 5 envHeavy photo bigBase64 _ 81%N (js "UJD"));
    [exact bigBase64_over|reflexivity|reflexivity|reflexivity|].
  vm_compute. discriminate.
Qed.

Lemma the_first_variant_that_fits_is_sent_witness :
  completion_of (FromOriginal.choosePayload 6 envHeavy photo bigBase64)
  = Normal (formOf smallBase64).
Proof.
  refine (proj2 (proj2 (the_first_variant_that_fits_is_sent 6 envHeavy photo
                          bigBase64 [] smallBase64 [] _ eq_refl))).
  rewrite envHeavy_choice. reflexivity.
Defined.

(** X12. The first revision never gets past its first measurement.  It
    makes one encoder call, the resizing of the picture to a width of 1280
    at quality 0.7; then, unless that call was rejected, the measurement
    throws a [ReferenceError], for [FileSystem] is bound nowhere.  So no
    file is measured, re-encoded or read and nothing is posted: every run
    ends in Failed with the one alert "Failed to extract text." and the
    flag cleared, whatever the picture, the fuel and the services. *)
Theorem the_first_revision_stops_at_its_measurement fuel env u :
  encoderCalls (timeline (ResizeOnce.extractText fuel env u))
  = [(u, [Resize 1280], {| compress := 0.7; want_base64 := false |},
      manipulateAsync env u [Resize 1280]
        {| compress := 0.7; want_base64 := false |})]
  /\ sizesMeasured (timeline (ResizeOnce.extractText fuel env u)) = []
  /\ filesRead (timeline (ResizeOnce.extractText fuel env u)) = []
  /\ requests (timeline (ResizeOnce.extractText fuel env u)) = []
  /\ In (ConsoleError (stoppedBy env u))
        (timeline (ResizeOnce.extractText fuel env u))
  /\ alerts (timeline (ResizeOnce.extractText fuel env u))
     = [(js "Error", js "Failed to extract text.")]
  /\ finalState (timeline (ResizeOnce.extractText fuel env u)) = Failed
  /\ (forall b,
        loadingAfter b (timeline (ResizeOnce.extractText fuel env u)) = false)
  /\ completion_of (ResizeOnce.extractText fuel env u) = Normal tt.
Proof.
  unfold ResizeOnce.extractText. rewrite prepare1_shape.
  repeat split; try reflexivity.
  cbn. tauto.
Qed.

Example first_revision_on_a_small_photo :
  stoppedBy envHello photo = ReferenceError
  /\ requests (timeline (ResizeOnce.extractText 6 envHello photo)) = [].
Proof. split; reflexivity. Qed.

Lemma compressLoop_original env u n :
  forall q m,
    forallb (encodesOriginal u)
      (encoderCalls (events (FromOriginal.compressLoop n env u q m))) = true
    /\ filesRead (events (FromOriginal.compressLoop n env u q m)) = [].
Proof.
  induction n as [|n IH]; intros q m.
  - simpl. destruct (0.1 <=? q)%float; split; reflexivity.
  - destruct (0.1 <=? q)%float eqn:G.
    2:{ rewrite compressLoop_exit by exact G. split; reflexivity. }
    rewrite compressLoop_step by exact G.
    destruct (manipulateAsync env u [] {| compress := q; want_base64 := true |})
      as [e|r] eqn:Hm.
    { rewrite (awaitManipulate_err _ _ _ _ _ Hm), bind_Thrown.
      cbn. rewrite jsstring_eqb_refl. split; reflexivity. }
    rewrite (awaitManipulate_ok _ _ _ _ _ Hm), bind_Normal.
    destruct (FromOriginal.nonEmpty (base64_of r));
      [|cbn; rewrite jsstring_eqb_refl; split; reflexivity].
    destruct (base64_of r) as [b64|];
      [|cbn; rewrite jsstring_eqb_refl; split; reflexivity].
    destruct (FromOriginal.calcBytes b64 <=? FromOriginal.maxBytes)%N;
      [cbn; rewrite jsstring_eqb_refl; split; reflexivity|].
    cbn [events app]. unfold encoderCalls, filesRead.
    cbn [flat_map callOf readOf app forallb encodesOriginal noActions want_base64].
    rewrite jsstring_eqb_refl. exact (IH (q - 0.15)%float (Some b64)).
Qed.

(** X14. The second revision reads the original once, and whenever it
    calls the encoder it gives it the original itself, with no resizing,
    and asks for the base64 text of the result: no call works on a file
    that an earlier call produced. *)
Theorem every_encoding_is_of_the_original fuel env u :
  forallb (encodesOriginal u)
    (encoderCalls (events (FromOriginal.prepare fuel env u))) = true
  /\ filesRead (events (FromOriginal.prepare fuel env u)) = [u].
Proof.
  unfold FromOriginal.prepare.
  destruct (readAsStringAsync env u) as [e|base64] eqn:Hr.
  { rewrite (awaitRead_err _ _ _ Hr), bind_Thrown. split; reflexivity. }
  rewrite (awaitRead_ok _ _ _ Hr), bind_Normal.
  destruct (choosePayload_events fuel env u base64)
    as (pre & inner & post & Hev & Hpre & Hpost & Hinner).
  cbn [events app]. rewrite Hev.
  unfold encoderCalls, filesRead. cbn [flat_map callOf readOf app].
  rewrite (flat_map_around callOf pre inner post callOf_quiet Hpre Hpost).
  rewrite (flat_map_around readOf pre inner post readOf_quiet Hpre Hpost).
  destruct Hinner as [->|(_ & _ & ->)]; [split; reflexivity|].
  destruct (compressLoop_original env u fuel 0.9%float None) as (Hcalls & Hreads).
  split; [exact Hcalls|].
  change (flat_map readOf ?l) with (filesRead l). rewrite Hreads. reflexivity.
Qed.

(** ** The analysis stage *)

(** X15. [analyzeWithAI] never rejects.  When its request is rejected, or
    the body of the answer is not JSON, or the body is [null], it logs the
    error, raises the alert "Could not connect to AI service.", clears the
    flag and leaves the explanation alone; and it raises that alert in no
    other case. *)
Theorem analysis_failure_is_reported_not_thrown env text :
  completion_of (analyzeWithAI env text) = Normal tt
  /\ (forall e,
        fetch env (PostAnalyze text) = inl e
        \/ (exists resp,
              fetch env (PostAnalyze text) = inr resp
              /\ (json_body resp = inl e
                  \/ (json_body resp = inr JNull /\ e = TypeError))) ->
        analyzeWithAI env text =
        mkM [SetLoading true; FetchSent (PostAnalyze text);
             FetchSettled (fetch env (PostAnalyze text));
             ConsoleError e;
             Alert (js "Error") (js "Could not connect to AI service.");
             SetLoading false]
            [] (Normal tt))
  /\ (In (Alert (js "Error") (js "Could not connect to AI service."))
         (events (analyzeWithAI env text)) ->
      exists e,
        fetch env (PostAnalyze text) = inl e
        \/ (exists resp,
              fetch env (PostAnalyze text) = inr resp
              /\ (json_body resp = inl e
                  \/ (json_body resp = inr JNull /\ e = TypeError)))).
Proof.
  rewrite analyzeWithAI_shape. cbn [completion_of events].
  split; [reflexivity|]. split.
  - intros e He.
    assert (Hx : explanation env text = inl e).
    { unfold explanation.
      destruct He as [Hf|(resp & Hf & [Hj|(Hj & ->)])]; rewrite Hf;
        [reflexivity|rewrite Hj; reflexivity|rewrite Hj; reflexivity]. }
    rewrite Hx. reflexivity.
  - intros Hin.
    destruct (explanation env text) as [e|shown] eqn:Hx.
    + exists e. unfold explanation in Hx.
      destruct (fetch env (PostAnalyze text)) as [e'|resp];
        [left; congruence|right].
      exists resp. split; [reflexivity|].
      destruct (json_body resp) as [e'|data]; [left; congruence|right].
      unfold resultOrFallback in Hx.
      destruct data; try discriminate. cbn in Hx. split; congruence.
    + cbn in Hin.
      repeat (destruct Hin as [Hin|Hin]; [discriminate|]). destruct Hin.
Qed.

Example analysis_offline :
  analyzeWithAI envNoAnalysis (js "hello world") =
  mkM [SetLoading true; FetchSent (PostAnalyze (js "hello world"));
       FetchSettled (inl (Rejected (js "Network request failed")));
       ConsoleError (Rejected (js "Network request failed"));
       Alert (js "Error") (js "Could not connect to AI service.");
       SetLoading false]
      [] (Normal tt).
Proof. reflexivity. Qed.

(** X16. When the answer of the analysis service is an object with a
    [result], that result is what is shown, as it is and whatever its type,
    provided it is truthy; a [result] that is falsy in any way ([null],
    [false], [0], [NaN], the empty string) is replaced by
    "No result from AI.". *)
Theorem the_result_is_shown_as_it_is env text resp members v :
  fetch env (PostAnalyze text) = inr resp ->
  json_body resp = inr (JObj members) ->
  lookup (js "result") members = Some v ->
  analyzeWithAI env text =
  mkM [SetLoading true; FetchSent (PostAnalyze text); FetchSettled (inr resp);
       SetAiResult (if truthy (Some v) then v
                    else JStr (js "No result from AI."));
       SetLoading false]
      [] (Normal tt).
Proof.
  intros Hf Hj Hl. rewrite analyzeWithAI_shape. unfold explanation.
  rewrite Hf, Hj. unfold resultOrFallback. cbn [get]. rewrite Hl.
  destruct (truthy (Some v)); reflexivity.
Qed.

Lemma the_result_is_shown_as_it_is_witness :
  analyzeWithAI (envAnalysis (JObj [(js "result", JNum 42)])) (js "hello world") =
  mkM [SetLoading true; FetchSent (PostAnalyze (js "hello world"));
       FetchSettled (inr (answer 200 (JObj [(js "result", JNum 42)])));
       SetAiResult (JNum 42); SetLoading false]
      [] (Normal tt)
  /\ analyzeWithAI (envAnalysis (JObj [(js "result", JNum 0)])) (js "hello world") =
     mkM [SetLoading true; FetchSent (PostAnalyze (js "hello world"));
          FetchSettled (inr (answer 200 (JObj [(js "result", JNum 0)])));
          SetAiResult (JStr (js "No result from AI.")); SetLoading false]
         [] (Normal tt).
Proof.
  split.
  - exact (the_result_is_shown_as_it_is
             (envAnalysis (JObj [(js "result", JNum 42)])) (js "hello world")
             (answer 200 (JObj [(js "result", JNum 42)]))
             [(js "result", JNum 42)] (JNum 42) eq_refl eq_refl eq_refl).
  - exact (the_result_is_shown_as_it_is
             (envAnalysis (JObj [(js "result", JNum 0)])) (js "hello world")
             (answer 200 (JObj [(js "result", JNum 0)]))
             [(js "result", JNum 0)] (JNum 0) eq_refl eq_refl eq_refl).
Defined.

(** ** Reading the OCR answer, further *)

(** X17. Of the answer of the OCR service only the first element of
    [ParsedResults] is read: two answers that agree on it yield the same
    text, or the same error, whatever else they hold, further pages of
    text included. *)
Theorem only_the_first_result_is_read members members' first rest rest' :
  lookup (js "ParsedResults") members = Some (JArr (first :: rest)) ->
  lookup (js "ParsedResults") members' = Some (JArr (first :: rest')) ->
  parsedText (JObj members) = parsedText (JObj members').
Proof.
  intros H H'. unfold parsedText, get. rewrite H, H'. reflexivity.
Qed.

Lemma only_the_first_result_is_read_witness :
  parsedText twoPages = parsedText helloAnswer.
Proof.
  exact (only_the_first_result_is_read
           [(js "ParsedResults",
             JArr [JObj [(js "ParsedText", JStr (js " hello world "))];
                   JObj [(js "ParsedText", JStr (js "second page"))]])]
           [(js "ParsedResults",
             JArr [JObj [(js "ParsedText", JStr (js " hello world "))]])]
           (JObj [(js "ParsedText", JStr (js " hello world "))])
           [JObj [(js "ParsedText", JStr (js "second page"))]] []
           eq_refl eq_refl).
Defined.

Example text_of_two_pages : parsedText twoPages = inr (js "hello world").
Proof. reflexivity. Qed.

(** X18. Reading the answer of the OCR service throws in two cases only,
    and then a TypeError: the answer is [null]; or the first element of
    [ParsedResults] has a [ParsedText] that is neither a string nor
    [null]. *)
Theorem reading_the_answer_throws_only_for data e :
  parsedText data = inl e <->
  e = TypeError
  /\ (data = JNull
      \/ exists v,
           firstParsedText data = Some v /\ v <> JNull /\ isString v = false).
Proof.
  unfold parsedText, firstParsedText, optional, get.
  destruct data as [|b|x|s|items|members];
    try (split; [discriminate|intros (_ & [H|(v & H & _)]); discriminate]).
  { split; [intros H; injection H as <-; auto|intros (-> & _); reflexivity]. }
  destruct (lookup (js "ParsedResults") members) as [results|];
    [|split; [discriminate|intros (_ & [H|(v & H & _)]); discriminate]].
  destruct (nullish (Some results)) eqn:Hn.
  { destruct results; try discriminate Hn.
    split; [discriminate|intros (_ & [H|(v & H & _)]); discriminate]. }
  destruct (index0 results) as [first|];
    [|split; [discriminate|intros (_ & [H|(v & H & _)]); discriminate]].
  destruct first as [|b|x|s|items|fields];
    try (cbn; split; [discriminate|intros (_ & [H|(v & H & _)]); discriminate]).
  cbn [nullish].
  destruct (lookup (js "ParsedText") fields) as [v|];
    [|cbn; split; [discriminate|intros (_ & [H|(v & H & _)]); discriminate]].
  destruct v as [|b|x|s|items|fields']; cbn.
  - split; [discriminate|].
    intros (_ & [H|(v & H & Hv & _)]); [discriminate|congruence].
  - split.
    + intros H. injection H as <-. split; [reflexivity|right].
      eexists. split; [reflexivity|]. split; [discriminate|reflexivity].
    + intros (-> & _). reflexivity.
  - split.
    + intros H. injection H as <-. split; [reflexivity|right].
      eexists. split; [reflexivity|]. split; [discriminate|reflexivity].
    + intros (-> & _). reflexivity.
  - split; [discriminate|].
    intros (_ & [H|(v & H & _ & Hs)]); [discriminate|].
    injection H as <-. discriminate.
  - split.
    + intros H. injection H as <-. split; [reflexivity|right].
      eexists. split; [reflexivity|]. split; [discriminate|reflexivity].
    + intros (-> & _). reflexivity.
  - split.
    + intros H. injection H as <-. split; [reflexivity|right].
      eexists. split; [reflexivity|]. split; [discriminate|reflexivity].
    + intros (-> & _). reflexivity.
Qed.

Example text_that_is_a_number : parsedText numberAnswer = inl TypeError.
Proof. reflexivity. Qed.

(** ** The requests of a run *)

Lemma requests_app l1 l2 : requests (l1 ++ l2) = requests l1 ++ requests l2.
Proof. apply flat_map_app. Qed.

Lemma requests_local l : forallb isLocal l = true -> requests l = [].
Proof.
  induction l as [|e l IH]; [reflexivity|].
  simpl. intros H. apply andb_true_iff in H. destruct H as [He Hl].
  destruct e; try discriminate; simpl; exact (IH Hl).
Qed.

Lemma textsShown_app l1 l2 :
  textsShown (l1 ++ l2) = textsShown l1 ++ textsShown l2.
Proof. apply flat_map_app. Qed.

Lemma textsShown_local l : forallb isLocal l = true -> textsShown l = [].
Proof.
  induction l as [|e l IH]; [reflexivity|].
  simpl. intros H. apply andb_true_iff in H. destruct H as [He Hl].
  destruct e; try discriminate; simpl; exact (IH Hl).
Qed.

Lemma requests_answerEvents env payload :
  requests (answerEvents env payload)
  = PostOcr payload
    :: match ocrResult env payload with
       | inr (c :: t) => [PostAnalyze (c :: t)]
       | _ => []
       end.
Proof.
  unfold answerEvents, ocrResult.
  destruct (fetch env (PostOcr payload)) as [e|resp]; [reflexivity|].
  destruct (json_body resp) as [e|data]; [reflexivity|].
  destruct (parsedText data) as [e|[|c t]]; [reflexivity|reflexivity|].
  cbn. rewrite requests_app. destruct (explanation env (c :: t)); reflexivity.
Qed.

Lemma textsShown_answerEvents env payload :
  textsShown (answerEvents env payload)
  = match ocrResult env payload with
    | inr text => [text]
    | inl _ => []
    end.
Proof.
  unfold answerEvents, ocrResult.
  destruct (fetch env (PostOcr payload)) as [e|resp]; [reflexivity|].
  destruct (json_body resp) as [e|data]; [reflexivity|].
  destruct (parsedText data) as [e|[|c t]]; [reflexivity|reflexivity|].
  cbn. rewrite textsShown_app. destruct (explanation env (c :: t)); reflexivity.
Qed.

(** The requests of a run, given what the preparation did and how it
    ended. *)
Lemma requests_runEvents env prepared c :
  forallb isLocal prepared = true ->
  requests (runEvents env prepared c)
  = match c with
    | Normal payload =>
        PostOcr payload
        :: match ocrResult env payload with
           | inr (ch :: t) => [PostAnalyze (ch :: t)]
           | _ => []
           end
    | _ => []
    end.
Proof.
  intros Hlocal. unfold runEvents.
  rewrite !requests_app, (requests_local _ Hlocal).
  destruct c as [payload|e|]; [|reflexivity|reflexivity].
  apply requests_answerEvents.
Qed.

(** X19. A run makes at most two requests and repeats none: none at all
    when the preparation fails; otherwise one to the OCR endpoint, with
    the form the preparation produced, followed by one to the analysis
    endpoint exactly when the OCR stage yields a text that is not empty,
    and then with that text. *)
Theorem at_most_one_request_per_stage rev fuel env u :
  (6 <= fuel)%nat ->
  requests (timeline (extractTextOf rev fuel env u))
  = match completion_of (prepareOf rev fuel env u) with
    | Normal payload =>
        PostOcr payload
        :: match ocrResult env payload with
           | inr (c :: t) => [PostAnalyze (c :: t)]
           | _ => []
           end
    | _ => []
    end.
Proof.
  intros Hfuel.
  destruct (run_facts rev fuel env u Hfuel) as (_ & Hlocal & _ & Ht).
  rewrite Ht. exact (requests_runEvents env _ _ Hlocal).
Qed.

Lemma at_most_one_request_per_stage_witness :
  requests (timeline (extractTextOf Reencoding 6 envHello photo))
  = [PostOcr (formOf smallBase64); PostAnalyze (js "hello world")]
  /\ requests (timeline (extractTextOf Reencoding 6 envBlank photo))
     = [PostOcr (formOf smallBase64)]
  /\ requests (timeline (extractTextOf Reencoding 6 envUnreadable photo)) = []
  /\ requests (timeline (extractTextOf Resizing 6 envHello photo)) = [].
Proof.
  split; [|split; [|split]].
  - exact (at_most_one_request_per_stage Reencoding 6 envHello photo (le_n 6)).
  - exact (at_most_one_request_per_stage Reencoding 6 envBlank photo (le_n 6)).
  - exact (at_most_one_request_per_stage Reencoding 6 envUnreadable photo (le_n 6)).
  - exact (at_most_one_request_per_stage Resizing 6 envHello photo (le_n 6)).
Defined.

Lemma trimmed_trim s : trimmed (trim s) = true.
Proof.
  destruct (trim_spec s) as (pre & post & _ & _ & _ & Hhead & Hlast).
  unfold trimmed. destruct (trim s) as [|c rest] eqn:Ht; [reflexivity|].
  rewrite (Hhead c rest eq_refl). cbn [negb andb].
  destruct (exists_last (l := c :: rest)) as (init & x & E); [discriminate|].
  rewrite E, last_last, (Hlast init x E). reflexivity.
Qed.

(** The text read off an answer is empty or the result of a [trim]. *)
Lemma parsedText_trimmed data text :
  parsedText data = inr text -> trimmed text = true.
Proof.
  unfold parsedText.
  destruct (get data (js "ParsedResults")) as [e|results]; [discriminate|].
  destruct (optional results (fun v => inr (index0 v))) as [e|first];
    [discriminate|].
  destruct (optional first (fun v => get v (js "ParsedText"))) as [e|parsed];
    [discriminate|].
  unfold optional.
  destruct (nullish parsed).
  { intros H. injection H as <-. reflexivity. }
  destruct parsed as [v|].
  2:{ intros H. injection H as <-. reflexivity. }
  destruct v; try discriminate. cbn [callTrim].
  intros H. injection H as <-. unfold orEmpty.
  destruct (truthy (Some (JStr (trim s)))); [apply trimmed_trim|reflexivity].
Qed.

Lemma ocrResult_trimmed env payload text :
  ocrResult env payload = inr text -> trimmed text = true.
Proof.
  unfold ocrResult.
  destruct (fetch env (PostOcr payload)) as [e|resp]; [discriminate|].
  destruct (json_body resp) as [e|data]; [discriminate|].
  apply parsedText_trimmed.
Qed.

(** X20. The text a run sends to the analysis endpoint is the text it has
    put on the screen; it is not empty, and it neither starts nor ends with
    white space. *)
Theorem what_is_analysed_is_what_is_shown rev fuel env u text :
  (6 <= fuel)%nat ->
  In (PostAnalyze text) (requests (timeline (extractTextOf rev fuel env u))) ->
  text <> []
  /\ trimmed text = true
  /\ textsShown (timeline (extractTextOf rev fuel env u)) = [[]; text].
Proof.
  intros Hfuel Hin.
  destruct (run_facts rev fuel env u Hfuel) as (_ & Hlocal & _ & Ht).
  rewrite Ht in Hin. rewrite (requests_runEvents env _ _ Hlocal) in Hin.
  rewrite Ht. unfold runEvents.
  rewrite !textsShown_app, (textsShown_local _ Hlocal).
  destruct (completion_of (prepareOf rev fuel env u)) as [payload|e|];
    [|destruct Hin|destruct Hin].
  rewrite textsShown_answerEvents.
  destruct Hin as [Hin|Hin]; [discriminate|].
  destruct (ocrResult env payload) as [e|[|c t]] eqn:Hocr;
    [destruct Hin|destruct Hin|].
  destruct Hin as [Hin|[]]. injection Hin as <-.
  split; [discriminate|]. split; [|reflexivity].
  exact (ocrResult_trimmed _ _ _ Hocr).
Qed.

Lemma what_is_analysed_is_what_is_shown_witness :
  js "hello world" <> []
  /\ trimmed (js "hello world") = true
  /\ textsShown (timeline (extractTextOf Reencoding 6 envHello photo))
     = [[]; js "hello world"].
Proof.
  apply (what_is_analysed_is_what_is_shown Reencoding 6 envHello photo
           (js "hello world") (le_n 6)).
  right. left. reflexivity.
Defined.

Lemma alerts_app l1 l2 : alerts (l1 ++ l2) = alerts l1 ++ alerts l2.
Proof. apply flat_map_app. Qed.

Lemma alerts_local l : forallb isLocal l = true -> alerts l = [].
Proof.
  induction l as [|e l IH]; [reflexivity|].
  simpl. intros H. apply andb_true_iff in H. destruct H as [He Hl].
  destruct e; try discriminate; simpl; exact (IH Hl).
Qed.

(** X21. A run raises no alert when it ends with an explanation, and
    exactly one otherwise, which says where it stopped: "Failed to extract
    text." for a failure up to and including the reading of the OCR
    answer, "No text detected" for an empty text, "Could not connect to AI
    service." for a failure of the analysis. *)
Theorem one_alert_unless_explained rev fuel env u :
  (6 <= fuel)%nat ->
  alerts (timeline (extractTextOf rev fuel env u))
  = match completion_of (prepareOf rev fuel env u) with
    | Normal payload =>
        match ocrResult env payload with
        | inr [] =>
            [(js "No text detected", js "Try another image with clearer text.")]
        | inr (c :: t) =>
            match explanation env (c :: t) with
            | inr _ => []
            | inl _ => [(js "Error", js "Could not connect to AI service.")]
            end
        | inl _ => [(js "Error", js "Failed to extract text.")]
        end
    | _ => [(js "Error", js "Failed to extract text.")]
    end.
Proof.
  intros Hfuel.
  destruct (run_facts rev fuel env u Hfuel) as (Hend & Hlocal & _ & Ht).
  rewrite Ht. unfold runEvents.
  rewrite !alerts_app, (alerts_local _ Hlocal).
  destruct (completion_of (prepareOf rev fuel env u)) as [payload|e|];
    [|reflexivity|congruence].
  unfold answerEvents, ocrResult.
  destruct (fetch env (PostOcr payload)) as [e|resp]; [reflexivity|].
  destruct (json_body resp) as [e|data]; [reflexivity|].
  destruct (parsedText data) as [e|[|c t]]; [reflexivity|reflexivity|].
  cbn. rewrite alerts_app. destruct (explanation env (c :: t)); reflexivity.
Qed.

Lemma one_alert_unless_explained_witness :
  alerts (timeline (extractTextOf Reencoding 6 envHello photo)) = []
  /\ alerts (timeline (extractTextOf Reencoding 6 envNoAnalysis photo))
     = [(js "Error", js "Could not connect to AI service.")]
  /\ alerts (timeline (extractTextOf Reencoding 6 envBlank photo))
     = [(js "No text detected", js "Try another image with clearer text.")]
  /\ alerts (timeline (extractTextOf Reencoding 6 envUnreadable photo))
     = [(js "Error", js "Failed to extract text.")].
Proof.
  split; [|split; [|split]].
  - exact (one_alert_unless_explained Reencoding 6 envHello photo (le_n 6)).
  - exact (one_alert_unless_explained Reencoding 6 envNoAnalysis photo (le_n 6)).
  - exact (one_alert_unless_explained Reencoding 6 envBlank photo (le_n 6)).
  - exact (one_alert_unless_explained Reencoding 6 envUnreadable photo (le_n 6)).
Defined.

(** ** Failures before the request *)

(** X22. In the second revision the one thing that can fail a run before
    the request is the reading of the original: the preparation throws
    exactly when [readAsStringAsync] rejects, and then the run consists of
    the resets, the reading, the failure alert and the clearing of the
    flag. *)
Theorem only_an_unreadable_original_stops_the_second_revision fuel env u e :
  (6 <= fuel)%nat ->
  (completion_of (FromOriginal.prepare fuel env u) = Thrown e
   <-> readAsStringAsync env u = inl e)
  /\ (readAsStringAsync env u = inl e ->
      timeline (FromOriginal.extractText fuel env u)
      = resets ++ [ReadAsString u (inl e)] ++ failureEvents e
        ++ [SetLoading false]).
Proof.
  intros Hfuel. split.
  - destruct (readAsStringAsync env u) as [e'|base64] eqn:Hr.
    + rewrite (prepare2_unreadable env fuel u e' Hr). cbn.
      split; congruence.
    + destruct (prepare2_read env fuel u base64 Hfuel Hr) as (ev & sent & -> & _).
      cbn. split; discriminate.
  - intros Hr.
    destruct (run_reencoding fuel env u Hfuel) as (_ & _ & _ & ->).
    rewrite (prepare2_unreadable env fuel u e Hr). reflexivity.
Qed.

Lemma only_an_unreadable_original_stops_the_second_revision_witness :
  timeline (FromOriginal.extractText 6 envUnreadable photo)
  = resets ++ [ReadAsString photo (inl (Rejected (js "File not found")))]
    ++ failureEvents (Rejected (js "File not found")) ++ [SetLoading false].
Proof.
  exact (proj2 (only_an_unreadable_original_stops_the_second_revision
                  6 envUnreadable photo (Rejected (js "File not found")) (le_n 6))
               eq_refl).
Defined.

(** X23. Whatever fails before the request, be it the resizing, the
    measurement or the reading of the original, the run ends in
    Failed with the alert "Failed to extract text.", having sent nothing
    and shown no text. *)
Theorem a_failure_before_the_request_fails_the_run rev fuel env u e :
  (6 <= fuel)%nat ->
  completion_of (prepareOf rev fuel env u) = Thrown e ->
  timeline (extractTextOf rev fuel env u)
  = resets ++ events (prepareOf rev fuel env u)
    ++ [ConsoleError e; Alert (js "Error") (js "Failed to extract text.");
        SetLoading false]
  /\ requests (timeline (extractTextOf rev fuel env u)) = []
  /\ textsShown (timeline (extractTextOf rev fuel env u)) = [[]]
  /\ finalState (timeline (extractTextOf rev fuel env u)) = Failed.
Proof.
  intros Hfuel Hc.
  destruct (run_facts rev fuel env u Hfuel) as (_ & Hlocal & _ & Ht).
  rewrite Ht, Hc. rewrite (requests_runEvents env _ _ Hlocal).
  unfold runEvents.
  split; [reflexivity|]. split; [reflexivity|]. split.
  - rewrite !textsShown_app, (textsShown_local _ Hlocal). reflexivity.
  - rewrite finalState_cases by discriminate.
    rewrite !existsb_app. cbn. rewrite !orb_true_r. reflexivity.
Qed.

Lemma a_failure_before_the_request_fails_the_run_witness :
  timeline (extractTextOf Reencoding 6 envUnreadable photo)
  = resets
    ++ [ReadAsString photo (inl (Rejected (js "File not found")))]
    ++ [ConsoleError (Rejected (js "File not found"));
        Alert (js "Error") (js "Failed to extract text.");
        SetLoading false]
  /\ timeline (extractTextOf Resizing 6 envHello photo)
     = resets
       ++ [Manipulate photo [Resize 1280]
             {| compress := 0.7; want_base64 := false |} (inr (nextFile photo))]
       ++ [ConsoleError ReferenceError;
           Alert (js "Error") (js "Failed to extract text.");
           SetLoading false].
Proof.
  split.
  - exact (proj1 (a_failure_before_the_request_fails_the_run Reencoding 6
                    envUnreadable photo (Rejected (js "File not found"))
                    (le_n 6) eq_refl)).
  - exact (proj1 (a_failure_before_the_request_fails_the_run Resizing 6
                    envHello photo ReferenceError (le_n 6) eq_refl)).
Defined.

(** ** The quality given to the encoder *)

(** X24. In the second revision the quality factor given to the encoder
    is always between 0.1 and 0.9, which is within what the guard of the
    loop lets through and within the range the encoder accepts. *)
Theorem the_quality_stays_in_range fuel env u :
  (6 <= fuel)%nat ->
  forallb (inRange 0.1 0.9)
    (qualitiesUsed (events (FromOriginal.prepare fuel env u))) = true.
Proof.
  intros Hfuel.
  destruct (readAsStringAsync env u) as [e|base64] eqn:Hr.
  + rewrite (prepare2_unreadable env fuel u e Hr). reflexivity.
  + destruct (prepare2_read env fuel u base64 Hfuel Hr)
      as (ev & sent & -> & _ & _ & k & Hk & Hqs).
    cbn [events]. change (qualitiesUsed (ReadAsString u (inr base64) :: ev))
      with (qualitiesUsed ev).
    rewrite Hqs.
    do 7 (destruct k as [|k]; [reflexivity|]). lia.
Qed.

(** An encoder whose output stays over the limit: all six qualities are
    used. *)
Lemma the_quality_stays_in_range_witness :
  qualitiesUsed (events (FromOriginal.prepare 6 envSwelling photo))
  = descending 0.15 6 0.9
  /\ forallb (inRange 0.1 0.9)
       (qualitiesUsed (events (FromOriginal.prepare 6 envSwelling photo))) = true.
Proof.
  split.
  - unfold FromOriginal.prepare.
    rewrite (awaitRead_ok envSwelling photo bigBase64 eq_refl), bind_Normal.
    rewrite envSwelling_choice. reflexivity.
  - exact (the_quality_stays_in_range 6 envSwelling photo (le_n 6)).
Defined.
